(** * The Telegram thinking updater: renderer, sink and coalescing dispatcher

    A shallow embedding of [src/telegram/thinking-updater.ts].

    - JavaScript strings are sequences of UTF-16 code units, so that
      [.length] and [.slice] count what the source counts.
    - The closure variables of [createThinkingUpdater] become the record
      [Session]; promises that are awaited become entries of a task list,
      settled by explicit events; [Date.now()] is the time stamp carried by
      each event.
    - Code that can raise returns a [result]. *)

From Stdlib Require Import String Ascii DecimalString.
From Stdlib Require Import ZArith NArith Lia Bool List.
Import ListNotations.
Local Open Scope Z_scope.

(** ** Exceptions *)

(** [TypeError] is raised by the language, [TransportError] stands for
    whatever a rejected transport call carries. *)
Inductive JsError : Type :=
| TypeError
| TransportError.

Inductive result (A : Type) : Type :=
| Ok (a : A)
| Throw (e : JsError).
Arguments Ok {A} a.
Arguments Throw {A} e.

Definition bind {A B : Type} (r : result A) (k : A -> result B) : result B :=
  match r with
  | Ok a => k a
  | Throw e => Throw e
  end.

Notation "x <- r ;; k" := (bind r (fun x => k))
  (at level 61, r at next level, right associativity).

(** [for (const x of xs) body]: the loop state is threaded through the
    iterations, an exception leaves the loop. *)
Fixpoint forOf {A S : Type} (xs : list A) (body : S -> A -> result S) (s : S)
  : result S :=
  match xs with
  | [] => Ok s
  | x :: rest =>
      match body s x with
      | Ok s' => forOf rest body s'
      | Throw e => Throw e
      end
  end.

(** ** JavaScript strings *)

Module Js.

(** A UTF-16 code unit. *)
Definition char16 : Type := N.
Definition jsstring : Type := list char16.

(** An ASCII literal of the source. *)
Definition lit (s : string) : jsstring :=
  map N_of_ascii (list_ascii_of_string s).

(** [s.length] *)
Definition len {A : Type} (s : list A) : Z := Z.of_nat (length s).

Fixpoint eqb (a b : jsstring) : bool :=
  match a, b with
  | [], [] => true
  | x :: a', y :: b' => N.eqb x y && eqb a' b'
  | _, _ => false
  end.

(** Truthiness of a string: the empty string is falsy. *)
Definition truthy (s : jsstring) : bool :=
  match s with
  | [] => false
  | _ :: _ => true
  end.

(** The relative index of [String.prototype.slice] and
    [Array.prototype.slice]: negative counts from the end, everything is
    clamped to [0, len].  JavaScript's [-0] is [0] here, as it is for
    [slice]. *)
Definition rel_index (n i : Z) : Z :=
  if i <? 0 then Z.max (n + i) 0 else Z.min i n.

(** [l.slice(start, end)]; [end_ = None] is the one-argument call. *)
Definition slice {A : Type} (l : list A) (start : Z) (end_ : option Z) : list A :=
  let n := len l in
  let from := rel_index n start in
  let to := match end_ with
            | None => n
            | Some e => rel_index n e
            end in
  if from <? to
  then firstn (Z.to_nat (to - from)) (skipn (Z.to_nat from) l)
  else [].

(** [parts.join(sep)] *)
Fixpoint join (sep : jsstring) (parts : list jsstring) : jsstring :=
  match parts with
  | [] => []
  | [p] => p
  | p :: rest => p ++ sep ++ join sep rest
  end.

(** [s.replace(/c/g, by)] for a one-character pattern [c] and a
    replacement without dollar patterns. *)
Definition replaceAll (c : char16) (by_ : jsstring) (s : jsstring) : jsstring :=
  flat_map (fun x => if N.eqb x c then by_ else [x]) s.

(** White space and line terminators, the characters [trim] strips. *)
Definition isWhiteSpace (c : char16) : bool :=
  (   N.eqb c 9 || N.eqb c 10 || N.eqb c 11 || N.eqb c 12 || N.eqb c 13
   || N.eqb c 32 || N.eqb c 160 || N.eqb c 5760
   || (N.leb 8192 c && N.leb c 8202)
   || N.eqb c 8232 || N.eqb c 8233 || N.eqb c 8239 || N.eqb c 8287
   || N.eqb c 12288 || N.eqb c 65279)%bool.

Fixpoint trimStart (s : jsstring) : jsstring :=
  match s with
  | [] => []
  | c :: rest => if isWhiteSpace c then trimStart rest else s
  end.

Definition trimEnd (s : jsstring) : jsstring := rev (trimStart (rev s)).

Definition trim (s : jsstring) : jsstring := trimEnd (trimStart s).

(** [s.toLowerCase()], as far as the look-up in an ASCII-keyed table can
    tell: [A-Z] and the Kelvin sign are the only code units whose lower
    case is an ASCII letter; every other code unit stays outside ASCII
    and is kept as it is. *)
Definition lowerUnit (c : char16) : char16 :=
  if (N.leb 65 c && N.leb c 90)%bool then (c + 32)%N
  else if N.eqb c 8490 then 107%N
  else c.

Definition toLowerCase (s : jsstring) : jsstring := map lowerUnit s.

(** [String(n)] for a non-negative integer. *)
Definition ofNat (n : nat) : jsstring :=
  lit (NilZero.string_of_uint (Nat.to_uint n)).

(** U+2026, the horizontal ellipsis: one code unit. *)
Definition ellipsis : jsstring := [8230%N].
(** U+1F9E0, the brain: a surrogate pair. *)
Definition brain : jsstring := [55358%N; 56800%N].
(** U+2705, U+274C, U+23F3 and U+2014. *)
Definition checkMark : jsstring := [9989%N].
Definition crossMark : jsstring := [10060%N].
Definition hourglass : jsstring := [9203%N].
Definition emDash : jsstring := [8212%N].

End Js.
Import Js.

(** ** Insertion-ordered maps

    A JavaScript [Map] iterates in insertion order; [set] on a present key
    replaces the value where it stands. *)

Module JsMap.

Definition t (V : Type) : Type := list (jsstring * V).

Fixpoint get {V : Type} (m : t V) (k : jsstring) : option V :=
  match m with
  | [] => None
  | (k', v) :: rest => if Js.eqb k' k then Some v else get rest k
  end.

Fixpoint set {V : Type} (m : t V) (k : jsstring) (v : V) : t V :=
  match m with
  | [] => [(k, v)]
  | (k', v') :: rest =>
      if Js.eqb k' k then (k', v) :: rest else (k', v') :: set rest k v
  end.

Fixpoint delete {V : Type} (m : t V) (k : jsstring) : t V :=
  match m with
  | [] => []
  | (k', v') :: rest =>
      if Js.eqb k' k then rest else (k', v') :: delete rest k
  end.

Definition size {V : Type} (m : t V) : Z := Js.len m.

Definition values {V : Type} (m : t V) : list V := map snd m.

End JsMap.

(** ** Data model *)

(** A value of type [unknown]: the code only asks whether it is a string. *)
Inductive JsValue : Type :=
| VString (s : jsstring)
| VOther.

(** A [Record<string, unknown>], its own properties in the order
    [Object.values] visits them. *)
Definition Args : Type := list (jsstring * JsValue).

Inductive ThinkingCompletionMode := CompleteDelete | CompleteSummary | CompleteKeep.
Inductive ThinkingMode := ModeStream | ModeOff.
Inductive ToolMode := ModeInline | ModeSeparate.

Record ThinkingConfig : Type := {
  tc_enabled : option bool;
  tc_mode : option ThinkingMode;
  updateIntervalOpt : option Z;
  maxLengthOpt : option Z;
  completionMode : option ThinkingCompletionMode
}.

Record ToolDisplayConfig : Type := {
  enabled : option bool;
  mode : option ToolMode;
  showArgs : option bool;
  maxArgsLength : option Z
}.

Record ToolEntry : Type := {
  name : jsstring;
  args : option Args;
  startedAt : Z
}.

(** [ToolEntry & { failed; duration }], built by the spread in [toolEnd]. *)
Record CompletedToolEntry : Type := {
  c_name : jsstring;
  c_args : option Args;
  c_startedAt : Z;
  failed : bool;
  duration : Z
}.

(** [x !== false] for an optional boolean. *)
Definition isnt_false (x : option bool) : bool :=
  match x with
  | Some false => false
  | _ => true
  end.

(** [x ?? d] *)
Definition orDefault {A : Type} (x : option A) (d : A) : A :=
  match x with
  | Some a => a
  | None => d
  end.

(** ** extractToolArgs *)

(** What [TOOL_ARG_EXTRACTORS[key]] evaluates to.  The table is an object
    literal, so besides its eleven own entries the look-up reaches
    [Object.prototype]: [constructor] and [__proto__] are the two
    lower-case names found there, and both yield a truthy value that is
    not iterable. *)
Inductive TableEntry : Type :=
| OwnKeys (keys : list jsstring)
| Inherited
| Absent.

Definition TOOL_ARG_EXTRACTORS (key : jsstring) : TableEntry :=
  if Js.eqb key (lit "read") then OwnKeys [lit "path"]
  else if Js.eqb key (lit "write") then OwnKeys [lit "path"]
  else if Js.eqb key (lit "edit") then OwnKeys [lit "file_path"]
  else if Js.eqb key (lit "exec") then OwnKeys [lit "command"]
  else if Js.eqb key (lit "bash") then OwnKeys [lit "command"]
  else if Js.eqb key (lit "search") then OwnKeys [lit "pattern"; lit "query"]
  else if Js.eqb key (lit "grep") then OwnKeys [lit "pattern"]
  else if Js.eqb key (lit "glob") then OwnKeys [lit "pattern"]
  else if Js.eqb key (lit "web_search") then OwnKeys [lit "query"]
  else if Js.eqb key (lit "web_fetch") then OwnKeys [lit "url"]
  else if Js.eqb key (lit "list_directory") then OwnKeys [lit "path"]
  else if Js.eqb key (lit "constructor") then Inherited
  else if Js.eqb key (lit "__proto__") then Inherited
  else Absent.

(** [args[key]] *)
Fixpoint getProp (a : Args) (key : jsstring) : option JsValue :=
  match a with
  | [] => None
  | (k, v) :: rest => if Js.eqb k key then Some v else getProp rest key
  end.

(** [trimmed.length > maxLen ? trimmed.slice(0, maxLen) + "…" : trimmed] *)
Definition clip (trimmed : jsstring) (maxLen : Z) : jsstring :=
  if Js.len trimmed >? maxLen
  then slice trimmed 0 (Some maxLen) ++ ellipsis
  else trimmed.

(** The loop over the configured keys; [Some] is its [return]. *)
Fixpoint keysLoop (keys : list jsstring) (a : Args) (maxLen : Z) : option jsstring :=
  match keys with
  | [] => None
  | key :: rest =>
      match getProp a key with
      | Some (VString val) =>
          if truthy (trim val) then Some (clip (trim val) maxLen)
          else keysLoop rest a maxLen
      | _ => keysLoop rest a maxLen
      end
  end.

(** The fallback loop over [Object.values(args)]. *)
Fixpoint valuesLoop (vals : list JsValue) (maxLen : Z) : jsstring :=
  match vals with
  | [] => []
  | VString val :: rest =>
      if truthy (trim val) then clip (trim val) maxLen
      else valuesLoop rest maxLen
  | VOther :: rest => valuesLoop rest maxLen
  end.

Definition extractToolArgs (name_ : jsstring) (args_ : option Args) (maxLen : Z)
  : result jsstring :=
  match args_ with
  | None => Ok []
  | Some a =>
      match TOOL_ARG_EXTRACTORS (toLowerCase name_) with
      | Inherited => Throw TypeError
      | OwnKeys keys =>
          match keysLoop keys a maxLen with
          | Some r => Ok r
          | None => Ok (valuesLoop (map snd a) maxLen)
          end
      | Absent => Ok (valuesLoop (map snd a) maxLen)
      end
  end.

(** ** escapeHtml *)

Definition escapeHtml (text : jsstring) : jsstring :=
  replaceAll 62%N (lit "&gt;")
    (replaceAll 60%N (lit "&lt;")
       (replaceAll 38%N (lit "&amp;") text)).

(** ** buildMessage *)

(** The constant [trimmed] of the thinking block. *)
Definition trimmed (thinkingText : jsstring) (maxLength : Z) : jsstring :=
  if Js.len thinkingText >? maxLength - 200
  then ellipsis ++ slice thinkingText (- (maxLength - 200)) None
  else thinkingText.

(** The block guarded by [if (thinkingText)]. *)
Definition thinkingParts (thinkingText : option jsstring) (maxLength : Z)
  : list jsstring :=
  match thinkingText with
  | Some text =>
      if truthy text
      then [ brain ++ lit " <b>Thinking</b>"
           ; []
           ; lit "<blockquote>" ++ escapeHtml (trimmed text maxLength)
               ++ lit "</blockquote>" ]
      else []
  | None => []
  end.

Definition argStr (toolDisplay : ToolDisplayConfig) (name_ : jsstring)
  (args_ : option Args) : result jsstring :=
  if isnt_false (showArgs toolDisplay)
  then extractToolArgs name_ args_ (orDefault (maxArgsLength toolDisplay) 150)
  else Ok [].

(** One line of the tool section: icon, name in a code span, and the
    argument when there is one. *)
Definition toolLine (icon : jsstring) (toolDisplay : ToolDisplayConfig)
  (name_ : jsstring) (args_ : option Args) : result jsstring :=
  a <- argStr toolDisplay name_ args_ ;;
  Ok (if truthy a
      then icon ++ lit " <code>" ++ escapeHtml name_ ++ lit "</code> " ++ escapeHtml a
      else icon ++ lit " <code>" ++ escapeHtml name_ ++ lit "</code>").

Definition completedLine (toolDisplay : ToolDisplayConfig) (c : CompletedToolEntry)
  : result jsstring :=
  toolLine (if failed c then crossMark else checkMark) toolDisplay (c_name c) (c_args c).

Definition activeLine (toolDisplay : ToolDisplayConfig) (e : ToolEntry)
  : result jsstring :=
  toolLine hourglass toolDisplay (name e) (args e).

(** [parts.push(line)] inside the two loops. *)
Definition pushLine {A : Type} (render : A -> result jsstring)
  (parts : list jsstring) (x : A) : result (list jsstring) :=
  line <- render x ;;
  Ok (parts ++ [line]).

(** The block guarded by [toolDisplay.enabled !== false && (...)]. *)
Definition toolParts (parts : list jsstring) (activeTools : JsMap.t ToolEntry)
  (completedTools : list CompletedToolEntry) (toolDisplay : ToolDisplayConfig)
  : result (list jsstring) :=
  if (isnt_false (enabled toolDisplay)
      && ((JsMap.size activeTools >? 0) || (Js.len completedTools >? 0)))%bool
  then
    let parts := if Js.len parts >? 0 then parts ++ [[]] else parts in
    parts <- forOf (slice completedTools (-10) None)
                   (pushLine (completedLine toolDisplay)) parts ;;
    forOf (JsMap.values activeTools) (pushLine (activeLine toolDisplay)) parts
  else Ok parts.

(** The array [parts] when the function reaches [parts.join]. *)
Definition buildParts (thinkingText : option jsstring)
  (activeTools : JsMap.t ToolEntry) (completedTools : list CompletedToolEntry)
  (toolDisplay : ToolDisplayConfig) (maxLength : Z) : result (list jsstring) :=
  parts <- toolParts (thinkingParts thinkingText maxLength)
             activeTools completedTools toolDisplay ;;
  Ok (if Js.len parts =? 0
      then parts ++ [brain ++ lit " <b>Thinking" ++ ellipsis ++ lit "</b>"]
      else parts).

(** The last line of [buildMessage]. *)
Definition cap (result_ : jsstring) : jsstring :=
  if Js.len result_ >? 4096
  then slice result_ 0 (Some 4093) ++ ellipsis
  else result_.

Definition buildMessage (thinkingText : option jsstring)
  (activeTools : JsMap.t ToolEntry) (completedTools : list CompletedToolEntry)
  (toolDisplay : ToolDisplayConfig) (maxLength : Z) : result jsstring :=
  parts <- buildParts thinkingText activeTools completedTools toolDisplay maxLength ;;
  Ok (cap (join (lit (String (ascii_of_nat 10) EmptyString)) parts)).


(** ** The session: the closure variables of [createThinkingUpdater] *)

Record Session : Type := {
  messageId : option Z;
  thinkingText : option jsstring;
  activeTools : JsMap.t ToolEntry;
  completedTools : list CompletedToolEntry;
  lastSentContent : jsstring;
  lastSentAt : Z;
  (** the armed timeout, as the time the updater asked for: the time it
      was set plus the delay given to [setTimeout] *)
  timer : option Z;
  inFlight : bool;
  stopped : bool;
  pendingUpdate : bool
}.

Definition set_messageId (v : option Z) (s : Session) : Session :=
  {| messageId := v; thinkingText := thinkingText s; activeTools := activeTools s;
     completedTools := completedTools s; lastSentContent := lastSentContent s;
     lastSentAt := lastSentAt s; timer := timer s; inFlight := inFlight s;
     stopped := stopped s; pendingUpdate := pendingUpdate s |}.

Definition set_thinkingText (v : option jsstring) (s : Session) : Session :=
  {| messageId := messageId s; thinkingText := v; activeTools := activeTools s;
     completedTools := completedTools s; lastSentContent := lastSentContent s;
     lastSentAt := lastSentAt s; timer := timer s; inFlight := inFlight s;
     stopped := stopped s; pendingUpdate := pendingUpdate s |}.

Definition set_activeTools (v : JsMap.t ToolEntry) (s : Session) : Session :=
  {| messageId := messageId s; thinkingText := thinkingText s; activeTools := v;
     completedTools := completedTools s; lastSentContent := lastSentContent s;
     lastSentAt := lastSentAt s; timer := timer s; inFlight := inFlight s;
     stopped := stopped s; pendingUpdate := pendingUpdate s |}.

Definition set_completedTools (v : list CompletedToolEntry) (s : Session) : Session :=
  {| messageId := messageId s; thinkingText := thinkingText s;
     activeTools := activeTools s; completedTools := v;
     lastSentContent := lastSentContent s; lastSentAt := lastSentAt s;
     timer := timer s; inFlight := inFlight s; stopped := stopped s;
     pendingUpdate := pendingUpdate s |}.

Definition set_lastSentContent (v : jsstring) (s : Session) : Session :=
  {| messageId := messageId s; thinkingText := thinkingText s;
     activeTools := activeTools s; completedTools := completedTools s;
     lastSentContent := v; lastSentAt := lastSentAt s; timer := timer s;
     inFlight := inFlight s; stopped := stopped s;
     pendingUpdate := pendingUpdate s |}.

Definition set_lastSentAt (v : Z) (s : Session) : Session :=
  {| messageId := messageId s; thinkingText := thinkingText s;
     activeTools := activeTools s; completedTools := completedTools s;
     lastSentContent := lastSentContent s; lastSentAt := v; timer := timer s;
     inFlight := inFlight s; stopped := stopped s;
     pendingUpdate := pendingUpdate s |}.

Definition set_timer (v : option Z) (s : Session) : Session :=
  {| messageId := messageId s; thinkingText := thinkingText s;
     activeTools := activeTools s; completedTools := completedTools s;
     lastSentContent := lastSentContent s; lastSentAt := lastSentAt s;
     timer := v; inFlight := inFlight s; stopped := stopped s;
     pendingUpdate := pendingUpdate s |}.

Definition set_inFlight (v : bool) (s : Session) : Session :=
  {| messageId := messageId s; thinkingText := thinkingText s;
     activeTools := activeTools s; completedTools := completedTools s;
     lastSentContent := lastSentContent s; lastSentAt := lastSentAt s;
     timer := timer s; inFlight := v; stopped := stopped s;
     pendingUpdate := pendingUpdate s |}.

Definition set_stopped (v : bool) (s : Session) : Session :=
  {| messageId := messageId s; thinkingText := thinkingText s;
     activeTools := activeTools s; completedTools := completedTools s;
     lastSentContent := lastSentContent s; lastSentAt := lastSentAt s;
     timer := timer s; inFlight := inFlight s; stopped := v;
     pendingUpdate := pendingUpdate s |}.

Definition set_pendingUpdate (v : bool) (s : Session) : Session :=
  {| messageId := messageId s; thinkingText := thinkingText s;
     activeTools := activeTools s; completedTools := completedTools s;
     lastSentContent := lastSentContent s; lastSentAt := lastSentAt s;
     timer := timer s; inFlight := inFlight s; stopped := stopped s;
     pendingUpdate := v |}.

(** ** The transport and the event loop around the session *)

Inductive ApiCall : Type :=
| SendMessage (content : jsstring)
| EditMessageText (id : Z) (content : jsstring)
| DeleteMessage (id : Z).

(** The function of the updater that made a call. *)
Inductive Caller : Type :=
| BySendOrEdit
| ByDelete
| ByCollapse.

(** An [await] that has not settled yet.
    - [AwaitApi who c]: [who] awaits the promise of the transport call [c];
      for [BySendOrEdit], [doFlush] in turn awaits [sendOrEdit].
    - [AwaitSendOrEdit r]: [sendOrEdit] has finished with [r] and the
      continuation of [doFlush] is queued. *)
Inductive Task : Type :=
| AwaitApi (who : Caller) (c : ApiCall)
| AwaitSendOrEdit (r : result unit).

Inductive LogLine : Type :=
| SendFailed
| EditFailed
| DeleteFailed
| CollapseFailed.

Record Issued : Type := {
  at_ : Z;
  by_ : Caller;
  call : ApiCall
}.

Record World : Type := {
  session : Session;
  (** awaits in progress *)
  tasks : list Task;
  (** every transport call made so far, the latest first *)
  calls : list Issued;
  (** contents whose [sendMessage] or [editMessageText], made by
      [sendOrEdit], resolved: the latest first *)
  delivered : list jsstring;
  (** lines given to [logVerbose], the latest first *)
  verbose : list LogLine;
  (** exceptions that left the updater: rejections of the promises of
      [doFlush] and [flush] *)
  raised : list JsError;
  (** the time from which the runtime runs the callback of the timeout set
      last *)
  timeoutAt : Z
}.

Definition onSession (f : Session -> Session) (w : World) : World :=
  {| session := f (session w); tasks := tasks w; calls := calls w;
     delivered := delivered w; verbose := verbose w; raised := raised w;
     timeoutAt := timeoutAt w |}.

Definition set_tasks (v : list Task) (w : World) : World :=
  {| session := session w; tasks := v; calls := calls w;
     delivered := delivered w; verbose := verbose w; raised := raised w;
     timeoutAt := timeoutAt w |}.

(** The transport call [c] is made at [now] and awaited by [who]. *)
Definition invoke (now : Z) (who : Caller) (c : ApiCall) (w : World) : World :=
  {| session := session w; tasks := tasks w ++ [AwaitApi who c];
     calls := {| at_ := now; by_ := who; call := c |} :: calls w;
     delivered := delivered w; verbose := verbose w; raised := raised w;
     timeoutAt := timeoutAt w |}.

Definition await (t : Task) (w : World) : World :=
  set_tasks (tasks w ++ [t]) w.

Definition logVerbose (l : LogLine) (w : World) : World :=
  {| session := session w; tasks := tasks w; calls := calls w;
     delivered := delivered w; verbose := l :: verbose w; raised := raised w;
     timeoutAt := timeoutAt w |}.

Definition acknowledge (content : jsstring) (w : World) : World :=
  {| session := session w; tasks := tasks w; calls := calls w;
     delivered := content :: delivered w; verbose := verbose w;
     raised := raised w;
     timeoutAt := timeoutAt w |}.

Definition raise (e : JsError) (w : World) : World :=
  {| session := session w; tasks := tasks w; calls := calls w;
     delivered := delivered w; verbose := verbose w; raised := e :: raised w;
     timeoutAt := timeoutAt w |}.

(** The largest delay a timeout of the runtime keeps. *)
Definition TIMEOUT_MAX : Z := 2147483647.

(** The time the runtime waits for when a timeout is set at [now] with
    [delay]: a delay above [TIMEOUT_MAX] is replaced by 1 ms.  (So is a
    delay below 1; the updater only asks for 0 then, and the model lets
    that callback run from [now] on.) *)
Definition timeoutTime (now delay : Z) : Z :=
  now + (if TIMEOUT_MAX <? delay then 1 else delay).

Definition set_timeoutAt (v : Z) (w : World) : World :=
  {| session := session w; tasks := tasks w; calls := calls w;
     delivered := delivered w; verbose := verbose w; raised := raised w;
     timeoutAt := v |}.

(** [timer = setTimeout(callback, delay)] at [now] ([delay] is not negative
    where the updater calls it): [timer] holds the time the updater asked
    for, [timeoutAt] the time the runtime waits for. *)
Definition setTimeout (now delay : Z) (w : World) : World :=
  set_timeoutAt (timeoutTime now delay)
    (onSession (set_timer (Some (now + delay))) w).

(** [messageId] as a condition: absent and [0] are falsy. *)
Definition truthyId (m : option Z) : bool :=
  match m with
  | Some id => negb (id =? 0)
  | None => false
  end.

Fixpoint replaceAt {A : Type} (i : nat) (x : A) (l : list A) : list A :=
  match l, i with
  | [], _ => []
  | _ :: rest, O => x :: rest
  | y :: rest, S j => y :: replaceAt j x rest
  end.

Fixpoint removeAt {A : Type} (i : nat) (l : list A) : list A :=
  match l, i with
  | [], _ => []
  | _ :: rest, O => rest
  | y :: rest, S j => y :: removeAt j rest
  end.

Definition initialSession : Session :=
  {| messageId := None; thinkingText := None; activeTools := [];
     completedTools := []; lastSentContent := []; lastSentAt := 0;
     timer := None; inFlight := false; stopped := false;
     pendingUpdate := false |}.

Definition initialWorld : World :=
  {| session := initialSession; tasks := []; calls := []; delivered := [];
     verbose := []; raised := []; timeoutAt := 0 |}.

Section Updater.

Variable thinkingConfig : ThinkingConfig.
Variable toolDisplay : ToolDisplayConfig.

Definition updateInterval : Z := orDefault (updateIntervalOpt thinkingConfig) 800.
Definition maxLength : Z := orDefault (maxLengthOpt thinkingConfig) 3800.

(** [sendOrEdit] up to its [await]; when it returns at once, [doFlush]
    still awaits its (resolved) promise. *)
Definition sendOrEdit (now : Z) (content : jsstring) (w : World) : World :=
  let s := session w in
  if (stopped s || Js.eqb content (lastSentContent s))%bool
  then await (AwaitSendOrEdit (Ok tt)) w
  else
    let w := onSession (set_lastSentContent content) w in
    let w := onSession (set_lastSentAt now) w in
    match messageId s with
    | Some id =>
        if truthyId (messageId s)
        then invoke now BySendOrEdit (EditMessageText id content) w
        else invoke now BySendOrEdit (SendMessage content) w
    | None => invoke now BySendOrEdit (SendMessage content) w
    end.

(** [sendOrEdit] from the point where the awaited transport call [c]
    settles with [r]: the [catch] turns a rejection into a log line. *)
Definition sendOrEdit_settled (c : ApiCall) (r : result Z) (w : World)
  : World * result unit :=
  match r with
  | Ok message_id =>
      match c with
      | SendMessage content =>
          (acknowledge content (onSession (set_messageId (Some message_id)) w), Ok tt)
      | EditMessageText _ content => (acknowledge content w, Ok tt)
      | DeleteMessage _ => (w, Ok tt)
      end
  | Throw _ =>
      (logVerbose (if truthyId (messageId (session w)) then EditFailed else SendFailed) w,
       Ok tt)
  end.

Definition schedule (now : Z) (w : World) : World :=
  let s := session w in
  match timer s with
  | Some _ => w
  | None =>
      if stopped s then w
      else
        let delay := Z.max 0 (updateInterval - (now - lastSentAt s)) in
        setTimeout now delay w
  end.

(** [doFlush] up to its [await]. *)
Definition doFlush (now : Z) (w : World) : World :=
  if stopped (session w) then w
  else
    let w := onSession (set_timer None) w in
    if inFlight (session w) then onSession (set_pendingUpdate true) w
    else
      match buildMessage (thinkingText (session w)) (activeTools (session w))
              (completedTools (session w)) toolDisplay maxLength with
      | Throw e => raise e w
      | Ok content => sendOrEdit now content (onSession (set_inFlight true) w)
      end.

(** [doFlush] from the point where [await sendOrEdit(content)] settles
    with [r]: the [finally] runs either way, an exception skips the rest. *)
Definition doFlush_resumed (now : Z) (r : result unit) (w : World) : World :=
  let w := onSession (set_inFlight false) w in
  match r with
  | Throw e => raise e w
  | Ok _ =>
      if pendingUpdate (session w)
      then schedule now (onSession (set_pendingUpdate false) w)
      else w
  end.

Definition triggerUpdate (now : Z) (w : World) : World :=
  let s := session w in
  if stopped s then w
  else if inFlight s then schedule now (onSession (set_pendingUpdate true) w)
  else
    match timer s with
    | None => if now - lastSentAt s >=? updateInterval then doFlush now w
              else schedule now w
    | Some _ => schedule now w
    end.

(** The callback given to [setTimeout]. *)
Definition timerCallback (now : Z) (w : World) : World :=
  doFlush now (onSession (set_timer None) w).

Definition start (now : Z) (w : World) : World := triggerUpdate now w.

Definition update (now : Z) (text : jsstring) (w : World) : World :=
  triggerUpdate now (onSession (set_thinkingText (Some text)) w).

Definition flush (now : Z) (w : World) : World := doFlush now w.

Definition stop (w : World) : World :=
  onSession (set_timer None) (onSession (set_stopped true) w).

Definition delete (now : Z) (w : World) : World :=
  let w := onSession (set_timer None) (onSession (set_stopped true) w) in
  match messageId (session w) with
  | Some id =>
      if truthyId (messageId (session w))
      then invoke now ByDelete (DeleteMessage id) w
      else w
  | None => w
  end.

(** [delete] from the point where [deleteMessage] settles. *)
Definition delete_settled (r : result Z) (w : World) : World :=
  let w := match r with
           | Ok _ => w
           | Throw _ => logVerbose DeleteFailed w
           end in
  onSession (set_messageId None) w.

Definition defaultSummary (n : nat) : jsstring :=
  brain ++ lit " <b>Thinking complete</b> " ++ emDash ++ lit " " ++ ofNat n
    ++ lit " tool" ++ (if Nat.eqb n 1 then [] else lit "s") ++ lit " used".

Definition collapse (now : Z) (summary : option jsstring) (w : World) : World :=
  let w := onSession (set_timer None) (onSession (set_stopped true) w) in
  match messageId (session w) with
  | Some id =>
      if truthyId (messageId (session w))
      then
        let text :=
          match summary with
          | Some s => if truthy s then s
                      else defaultSummary (length (completedTools (session w)))
          | None => defaultSummary (length (completedTools (session w)))
          end in
        invoke now ByCollapse (EditMessageText id text) w
      else w
  | None => w
  end.

Definition collapse_settled (r : result Z) (w : World) : World :=
  match r with
  | Ok _ => w
  | Throw _ => logVerbose CollapseFailed w
  end.

Definition toolStart (now : Z) (id name_ : jsstring) (args_ : option Args)
  (w : World) : World :=
  let entry := {| name := name_; args := args_; startedAt := now |} in
  triggerUpdate now
    (onSession (fun s => set_activeTools (JsMap.set (activeTools s) id entry) s) w).

Definition toolEnd (now : Z) (id : jsstring) (failed_ : option bool) (w : World)
  : World :=
  let w :=
    match JsMap.get (activeTools (session w)) id with
    | Some entry =>
        let w := onSession
                   (fun s => set_activeTools (JsMap.delete (activeTools s) id) s) w in
        onSession
          (fun s => set_completedTools
                      (completedTools s ++
                         [{| c_name := name entry; c_args := args entry;
                             c_startedAt := startedAt entry;
                             failed := orDefault failed_ false;
                             duration := now - startedAt entry |}]) s) w
    | None => w
    end in
  triggerUpdate now w.

(** ** Events

    What can happen to a session: a call of one of the eight methods, the
    armed timeout becoming due, the promise of a transport call settling,
    and the queued continuation of [doFlush] running. *)

Inductive Event : Type :=
| Start
| Update (text : jsstring)
| Flush
| Stop
| Delete
| Collapse (summary : option jsstring)
| ToolStart (id name_ : jsstring) (args_ : option Args)
| ToolEnd (id : jsstring) (failed_ : option bool)
| TimerFires
| Settles (i : nat) (r : result Z)
| Resumes (i : nat).

(** One event at time [now], the value [Date.now()] has while the event is
    handled; [None] when the event cannot happen in [w] (no timeout due, no
    such await).  The callback of the armed timeout runs no earlier than
    [timeoutAt]: the delay after the time the timeout was set, or 1 ms after
    it when the delay was above [TIMEOUT_MAX]. *)
Definition step (w : World) (now : Z) (e : Event) : option World :=
  match e with
  | Start => Some (start now w)
  | Update text => Some (update now text w)
  | Flush => Some (flush now w)
  | Stop => Some (stop w)
  | Delete => Some (delete now w)
  | Collapse summary => Some (collapse now summary w)
  | ToolStart id name_ args_ => Some (toolStart now id name_ args_ w)
  | ToolEnd id failed_ => Some (toolEnd now id failed_ w)
  | TimerFires =>
      match timer (session w) with
      | Some _ => if timeoutAt w <=? now then Some (timerCallback now w) else None
      | None => None
      end
  | Settles i r =>
      match nth_error (tasks w) i with
      | Some (AwaitApi BySendOrEdit c) =>
          let (w', r') := sendOrEdit_settled c r w in
          Some (set_tasks (replaceAt i (AwaitSendOrEdit r') (tasks w')) w')
      | Some (AwaitApi ByDelete _) =>
          Some (delete_settled r (set_tasks (removeAt i (tasks w)) w))
      | Some (AwaitApi ByCollapse _) =>
          Some (collapse_settled r (set_tasks (removeAt i (tasks w)) w))
      | _ => None
      end
  | Resumes i =>
      match nth_error (tasks w) i with
      | Some (AwaitSendOrEdit r) =>
          Some (doFlush_resumed now r (set_tasks (removeAt i (tasks w)) w))
      | _ => None
      end
  end.

(** A run: time-stamped events, in the order they happen. *)
Fixpoint run (w : World) (tr : list (Z * Event)) : option World :=
  match tr with
  | [] => Some w
  | (now, e) :: rest =>
      match step w now e with
      | Some w' => run w' rest
      | None => None
      end
  end.

End Updater.


(** ** Vocabulary of the properties *)

(** The last [n] elements of a list, the oldest first. *)
Definition lastN {A : Type} (n : nat) (l : list A) : list A :=
  skipn (length l - n) l.

Definition newline : jsstring := lit (String (ascii_of_nat 10) EmptyString).

Definition placeholder : jsstring :=
  brain ++ lit " <b>Thinking" ++ ellipsis ++ lit "</b>".

(** A tool name whose look-up in the extractor table reaches
    [Object.prototype]. *)
Definition inheritedName (n : jsstring) : Prop :=
  TOOL_ARG_EXTRACTORS (toLowerCase n) = Inherited.

(** The lines of [parts] that come before the tool section. *)
Definition preamble (thinkingText : option jsstring) (maxLength_ : Z)
  (tools : bool) : list jsstring :=
  match thinkingParts thinkingText maxLength_, tools with
  | [], true => []
  | [], false => [placeholder]
  | ps, true => ps ++ [[]]
  | ps, false => ps
  end.

(** [activeTools.size > 0 || completedTools.length > 0] *)
Definition anyTool (activeTools_ : JsMap.t ToolEntry)
  (completedTools_ : list CompletedToolEntry) : bool :=
  match activeTools_, completedTools_ with
  | [], [] => false
  | _, _ => true
  end.

Definition isApi (t : Task) : bool :=
  match t with
  | AwaitApi _ _ => true
  | AwaitSendOrEdit _ => false
  end.

(** A task that belongs to a delivery cycle of [doFlush]. *)
Definition isFlight (t : Task) : bool :=
  match t with
  | AwaitApi BySendOrEdit _ => true
  | AwaitApi _ _ => false
  | AwaitSendOrEdit _ => true
  end.

Definition count {A : Type} (p : A -> bool) (l : list A) : nat :=
  length (filter p l).

Definition b2n (b : bool) : nat := if b then 1%nat else 0%nat.

(** An outstanding transport call of a delivery cycle. *)
Definition isDeliveryCall (t : Task) : bool :=
  match t with
  | AwaitApi BySendOrEdit _ => true
  | _ => false
  end.

(** The number of transport calls that have been made and have not
    settled. *)
Definition outstanding (w : World) : nat := count isApi (tasks w).

Definition isDelivery (c : Issued) : bool :=
  match by_ c with
  | BySendOrEdit => true
  | _ => false
  end.

(** The times of the delivery calls, the latest first. *)
Definition deliveries (w : World) : list Z :=
  map at_ (filter isDelivery (calls w)).

(** Successive times, latest first, are at least [gap] apart. *)
Fixpoint spaced (gap : Z) (ts : list Z) : Prop :=
  match ts with
  | later :: (earlier :: _) as rest => earlier + gap <= later /\ spaced gap rest
  | _ => True
  end.

Definition contentOf (c : ApiCall) : jsstring :=
  match c with
  | SendMessage content => content
  | EditMessageText _ content => content
  | DeleteMessage _ => []
  end.

(** What [buildMessage] returns for the state of the session. *)
Definition rendered (thinkingConfig : ThinkingConfig)
  (toolDisplay : ToolDisplayConfig) (w : World) : result jsstring :=
  buildMessage (thinkingText (session w)) (activeTools (session w))
    (completedTools (session w)) toolDisplay (maxLength thinkingConfig).

(** The three variables of the delivery state. *)
Definition sameDelivery (w w' : World) : Prop :=
  messageId (session w') = messageId (session w)
  /\ lastSentContent (session w') = lastSentContent (session w)
  /\ lastSentAt (session w') = lastSentAt (session w).

(** The three variables of the accumulator. *)
Definition sameAccumulator (w w' : World) : Prop :=
  thinkingText (session w') = thinkingText (session w)
  /\ activeTools (session w') = activeTools (session w)
  /\ completedTools (session w') = completedTools (session w).

(** The events the dispatcher is driven by while the session is active. *)
Definition isTrigger (e : Event) : bool :=
  match e with
  | Start | Update _ | Flush | ToolStart _ _ _ | ToolEnd _ _ | TimerFires => true
  | _ => false
  end.

Definition isTerminal (e : Event) : bool :=
  match e with
  | Stop | Delete | Collapse _ => true
  | _ => false
  end.

Definition isFlush (e : Event) : bool :=
  match e with
  | Flush => true
  | _ => false
  end.

(** The three methods that write to the accumulator. *)
Definition isMutator (e : Event) : bool :=
  match e with
  | Update _ | ToolStart _ _ _ | ToolEnd _ _ => true
  | _ => false
  end.

(** ** Invariants *)

(** What holds of the awaits of every reachable world: the flag [inFlight]
    counts the delivery cycles in progress, the content of an outstanding
    delivery call is the one recorded in [lastSentContent], a finished
    [sendOrEdit] has not raised, and a message identifier exists only
    after a delivery was acknowledged. *)
Definition flightInv (w : World) : Prop :=
  count isFlight (tasks w) = (if inFlight (session w) then 1 else 0)%nat
  /\ (forall c, In (AwaitApi BySendOrEdit c) (tasks w) ->
                lastSentContent (session w) = contentOf c)
  /\ (forall r, In (AwaitSendOrEdit r) (tasks w) -> r = Ok tt)
  /\ (delivered w = [] -> messageId (session w) = None).

(** While no terminal method has been called. *)
Definition activeInv (w : World) : Prop :=
  stopped (session w) = false
  /\ Forall (fun t => isFlight t = true) (tasks w).

(** The time stamps of a trace that starts no earlier than [t0] never go
    back. *)
Fixpoint ordered (t0 : Z) (tr : list (Z * Event)) : Prop :=
  match tr with
  | [] => True
  | (now, _) :: rest => t0 <= now /\ ordered now rest
  end.

(** The time of the last event of a trace that starts at [t0]. *)
Fixpoint lastStamp (t0 : Z) (tr : list (Z * Event)) : Z :=
  match tr with
  | [] => t0
  | (now, _) :: rest => lastStamp now rest
  end.

(** What the dispatcher maintains up to time [t0], whatever is called, when
    the clock never goes back and the interval is one the runtime keeps:
    [lastSentAt] is the time of the latest delivery, and an armed timeout
    waits for the end of the interval after it. *)
Definition spacingInv (thinkingConfig : ThinkingConfig) (t0 : Z) (w : World) : Prop :=
  lastSentAt (session w) <= t0
  /\ (forall t, hd_error (deliveries w) = Some t -> lastSentAt (session w) = t)
  /\ (forall due, timer (session w) = Some due ->
                  timeoutAt w = due
                  /\ lastSentAt (session w) + updateInterval thinkingConfig <= due).

(** ** Sample configurations and sessions *)

Definition defaultThinking : ThinkingConfig :=
  {| tc_enabled := None; tc_mode := None; updateIntervalOpt := None;
     maxLengthOpt := None; completionMode := None |}.

Definition defaultTools : ToolDisplayConfig :=
  {| enabled := None; mode := None; showArgs := None; maxArgsLength := None |}.

Definition sampleEntry (n : nat) : ToolEntry :=
  {| name := lit "read";
     args := Some [(lit "path", VString (lit "/a/" ++ ofNat n))];
     startedAt := Z.of_nat n |}.

Definition sampleActive : JsMap.t ToolEntry :=
  [(lit "t20", sampleEntry 20); (lit "t21", sampleEntry 21)].

Definition sampleCompleted (n : nat) : CompletedToolEntry :=
  {| c_name := lit "exec";
     c_args := Some [(lit "command", VString (lit "make " ++ ofNat n))];
     c_startedAt := Z.of_nat n; failed := Nat.even n; duration := 5 |}.

Definition twelveCompleted : list CompletedToolEntry :=
  map sampleCompleted (seq 0 12).

(** The text rendered for a session that only has the thinking text
    [text], free of markup characters and within the budget. *)
Definition thinkingMessage (text : jsstring) : jsstring :=
  brain ++ lit " <b>Thinking</b>" ++ newline ++ newline
    ++ lit "<blockquote>" ++ text ++ lit "</blockquote>".

(** A session stopped before anything happened. *)
Definition stoppedWorld : World := stop initialWorld.

(** A delivery of [a] that succeeds, a delivery of [b] that fails, and
    the text set back to [a]. *)
Definition failedEditTrace : list (Z * Event) :=
  [ (1000, Update (lit "a")); (1001, Settles 0 (Ok 7)); (1001, Resumes 0);
    (2000, Update (lit "b")); (2001, Settles 0 (Throw TransportError));
    (2001, Resumes 0); (2002, Update (lit "a")) ].

(** A first delivery that fails. *)
Definition failedSendTrace : list (Z * Event) :=
  [ (1000, Update (lit "a")); (1002, Settles 0 (Throw TransportError));
    (1002, Resumes 0) ].

(** A delivery, an update that arms the timer, and a [flush]. *)
Definition flushTrace : list (Z * Event) :=
  [ (1000, Update (lit "a")); (1001, Settles 0 (Ok 7)); (1001, Resumes 0);
    (1002, Update (lit "b")); (1003, Flush) ].

(** Updates that arrive during a delivery, and the timer they arm. *)
Definition coalescedTrace : list (Z * Event) :=
  [ (1000, Update (lit "a")); (1001, Update (lit "b"));
    (1002, ToolStart (lit "t1") (lit "read") None);
    (1003, Settles 0 (Ok 7)); (1003, Resumes 0); (1800, TimerFires) ].

(** The world a sample trace leads to, under the default configuration. *)
Definition after (tr : list (Z * Event)) : World :=
  match run defaultThinking defaultTools initialWorld tr with
  | Some w => w
  | None => initialWorld
  end.

(** A delivery in flight. *)
Definition firstUpdateTrace : list (Z * Event) := [ (1000, Update (lit "a")) ].

(** A delivery that was acknowledged and whose cycle is over. *)
Definition firstDeliveryTrace : list (Z * Event) :=
  [ (1000, Update (lit "a")); (1001, Settles 0 (Ok 7)); (1001, Resumes 0) ].

(** [delete] while an edit is in flight. *)
Definition deleteInFlightTrace : list (Z * Event) :=
  [ (1000, Update (lit "a")); (1001, Settles 0 (Ok 7)); (1001, Resumes 0);
    (2000, Update (lit "b")); (2001, Delete) ].

Definition afterFirstUpdate : World := Eval vm_compute in after firstUpdateTrace.
Definition afterFirstDelivery : World := Eval vm_compute in after firstDeliveryTrace.
Definition afterFailedSend : World := Eval vm_compute in after failedSendTrace.
Definition afterFailedEdit : World := Eval vm_compute in after failedEditTrace.
Definition afterFlush : World := Eval vm_compute in after flushTrace.
Definition afterCoalesced : World := Eval vm_compute in after coalescedTrace.
Definition afterDeleteInFlight : World := Eval vm_compute in after deleteInFlightTrace.

(** A thinking text of 5000 code units, rendered with a budget that keeps
    all of it. *)
Definition longThinking : jsstring := repeat 97%N 5000.

Definition longParts : list jsstring :=
  Eval vm_compute in
    match buildParts (Some longThinking) [] [] defaultTools 10000 with
    | Ok parts => parts
    | Throw _ => []
    end.

(** Whether the code units of [needle] are those at the start of [hay]. *)
Fixpoint startsWith (needle hay : jsstring) : bool :=
  match needle, hay with
  | [], _ => true
  | _ :: _, [] => false
  | n :: ns, h :: hs => (n =? h)%N && startsWith ns hs
  end.

(** Whether [needle] occurs somewhere in [hay]. *)
Fixpoint occurs (needle hay : jsstring) : bool :=
  startsWith needle hay
  || match hay with
     | [] => false
     | _ :: rest => occurs needle rest
     end.

Definition lineOf (r : result jsstring) : jsstring :=
  match r with
  | Ok line => line
  | Throw _ => []
  end.

(** A thinking text that fills its budget, three completed tools with
    arguments of 149 code units, and two active tools: the parts add up to
    more than 4096 code units. *)
Definition crowdedThinking : jsstring := repeat 97%N 3600.

Definition wideCompleted (n : nat) : CompletedToolEntry :=
  {| c_name := lit "exec";
     c_args := Some [(lit "command", VString (repeat 120%N 148 ++ ofNat n))];
     c_startedAt := Z.of_nat n; failed := false; duration := 5 |}.

Definition threeWide : list CompletedToolEntry :=
  [wideCompleted 1; wideCompleted 2; wideCompleted 3].

Definition crowdedParts : list jsstring :=
  Eval vm_compute in
    match buildParts (Some crowdedThinking) sampleActive threeWide defaultTools 3800 with
    | Ok parts => parts
    | Throw _ => []
    end.

Definition crowdedMessage : jsstring :=
  Eval vm_compute in
    lineOf (buildMessage (Some crowdedThinking) sampleActive threeWide
              defaultTools 3800).

Definition wideLine3 : jsstring :=
  Eval vm_compute in lineOf (completedLine defaultTools (wideCompleted 3)).

Definition activeLine20 : jsstring :=
  Eval vm_compute in lineOf (activeLine defaultTools (sampleEntry 20)).

Definition activeLine21 : jsstring :=
  Eval vm_compute in lineOf (activeLine defaultTools (sampleEntry 21)).

(** [flushTrace], the end of the delivery that [flush] started, and an
    update that arms the timeout. *)
Definition armedAfterFlushTrace : list (Z * Event) :=
  flushTrace
    ++ [ (1004, Settles 0 (Ok 7)); (1004, Resumes 0); (1010, Update (lit "c")) ].

Definition armedAfterFlush : World := Eval vm_compute in after armedAfterFlushTrace.

Definition afterArmedTimeout : World :=
  Eval vm_compute in
    match step defaultThinking defaultTools armedAfterFlush 1803 TimerFires with
    | Some w => w
    | None => initialWorld
    end.

(** An interval above [TIMEOUT_MAX]: 3 000 000 000 ms. *)
Definition oversizedInterval : ThinkingConfig :=
  {| tc_enabled := None; tc_mode := None; updateIntervalOpt := Some 3000000000;
     maxLengthOpt := None; completionMode := None |}.

(** A delivery, and an update 9 ms later that arms the timeout; the
    runtime runs the callback 1 ms after that. *)
Definition oversizedTrace : list (Z * Event) :=
  [ (1700000000000, Update (lit "a")); (1700000000001, Settles 0 (Ok 7));
    (1700000000001, Resumes 0); (1700000000009, Update (lit "b"));
    (1700000000010, TimerFires) ].

Definition afterOversized : World :=
  Eval vm_compute in
    match run oversizedInterval defaultTools initialWorld oversizedTrace with
    | Some w => w
    | None => initialWorld
    end.

(** The clock is set back by 3 000 000 000 ms after a delivery: the update
    that follows asks for a delay above [TIMEOUT_MAX]. *)
Definition clockSetBackTrace : list (Z * Event) :=
  [ (1700000000000, Update (lit "a")); (1700000000001, Settles 0 (Ok 7));
    (1700000000001, Resumes 0); (1697000000000, Update (lit "b"));
    (1697000000001, TimerFires) ].

Definition afterClockSetBack : World := Eval vm_compute in after clockSetBackTrace.


(** ** Vocabulary of the further properties *)

(** What [escapeHtml] makes of one code unit when the three replacements
    are taken at once. *)
Definition escapeUnit (c : char16) : jsstring :=
  if N.eqb c 38 then lit "&amp;"
  else if N.eqb c 60 then lit "&lt;"
  else if N.eqb c 62 then lit "&gt;"
  else [c].

(** A value that [extractToolArgs] can show: a string that is not blank. *)
Definition shown (v : JsValue) : bool :=
  match v with
  | VString s => truthy (trim s)
  | VOther => false
  end.

(** The values [extractToolArgs] looks at, in the order it does: the
    values of the configured keys that are present, then
    [Object.values(args)]. *)
Definition candidates (keys : list jsstring) (a : Args) : list JsValue :=
  flat_map (fun key => match getProp a key with
                       | Some v => [v]
                       | None => []
                       end) keys
  ++ map snd a.

Definition configuredKeys (name_ : jsstring) : list jsstring :=
  match TOOL_ARG_EXTRACTORS (toLowerCase name_) with
  | OwnKeys keys => keys
  | _ => []
  end.

(** The first candidate that can be shown, trimmed and clipped; the empty
    string when there is none. *)
Definition firstShown (vals : list JsValue) (maxLen : Z) : jsstring :=
  match find shown vals with
  | Some (VString v) => clip (trim v) maxLen
  | _ => []
  end.

(** A [search] call whose arguments list the query before the pattern. *)
Definition searchArgs : Args :=
  [ (lit "limit", VOther); (lit "query", VString (lit "needle"));
    (lit "pattern", VString (lit "  *.ts ")) ].

(** The keys of a map, in iteration order. *)
Definition keys {V : Type} (m : JsMap.t V) : list jsstring := map fst m.

Definition isToolEnd (e : Event) : bool :=
  match e with
  | ToolEnd _ _ => true
  | _ => false
  end.

(** The entry [toolEnd] appends for an active entry. *)
Definition completedOf (entry : ToolEntry) (failed_ : option bool) (now : Z)
  : CompletedToolEntry :=
  {| c_name := name entry; c_args := args entry; c_startedAt := startedAt entry;
     failed := orDefault failed_ false; duration := now - startedAt entry |}.

(** The transport call of a delivery: an edit of the message when there
    is a (truthy) identifier, a new message otherwise. *)
Definition deliveryCall (m : option Z) (content : jsstring) : ApiCall :=
  match m with
  | Some id => if truthyId m then EditMessageText id content
               else SendMessage content
  | None => SendMessage content
  end.

(** The four methods that end in [triggerUpdate]. *)
Definition isTriggerUpdate (e : Event) : bool :=
  match e with
  | Start | Update _ | ToolStart _ _ _ | ToolEnd _ _ => true
  | _ => false
  end.

(** The calls made by [sendOrEdit], the latest first. *)
Definition deliveryCalls (w : World) : list Issued := filter isDelivery (calls w).

(** A second update during the first delivery: it arms the timer. *)
Definition secondUpdateTrace : list (Z * Event) :=
  [ (1000, Update (lit "a")); (1001, Update (lit "b")) ].


Definition afterSecondUpdate : World := Eval vm_compute in after secondUpdateTrace.

(** A stopped session has no timer armed. *)
Definition stoppedInv (w : World) : Prop :=
  stopped (session w) = true -> timer (session w) = None.

(** The recorded content and time are those of the latest delivery call. *)
Definition bookInv (w : World) : Prop :=
  match deliveryCalls w with
  | c :: _ =>
      lastSentContent (session w) = contentOf (call c)
      /\ lastSentAt (session w) = at_ c
  | [] => lastSentContent (session w) = [] /\ lastSentAt (session w) = 0
  end.

(** The session waits for nothing: no delivery in flight, no timer. *)
Definition quiescent (w : World) : Prop :=
  stopped (session w) = false
  /\ inFlight (session w) = false
  /\ timer (session w) = None.

(** The recorded content is the rendering of the current state, or the
    current state cannot be rendered. *)
Definition upToDate (tc : ThinkingConfig) (td : ToolDisplayConfig) (w : World)
  : Prop :=
  rendered tc td w = Ok (lastSentContent (session w))
  \/ exists e, rendered tc td w = Throw e.

Definition quietInv (tc : ThinkingConfig) (td : ToolDisplayConfig) (w : World)
  : Prop :=
  (inFlight (session w) = false -> pendingUpdate (session w) = false)
  /\ (stopped (session w) = true
      \/ timer (session w) <> None
      \/ pendingUpdate (session w) = true
      \/ w = initialWorld
      \/ upToDate tc td w).

(** With a (truthy) message identifier, no [sendMessage] is outstanding. *)
Definition sendInv (w : World) : Prop :=
  truthyId (messageId (session w)) = true ->
  forall content, ~ In (AwaitApi BySendOrEdit (SendMessage content)) (tasks w).

(** Every delivery call carries between one and 4096 code units. *)
Definition contentInv (w : World) : Prop :=
  Forall (fun c => 1 <= Js.len (contentOf (call c)) <= 4096) (deliveryCalls w).

(** The text [collapse] sends: [summary || default]. *)
Definition collapseText (summary : option jsstring) (completed : nat) : jsstring :=
  match summary with
  | Some s => if truthy s then s else defaultSummary completed
  | None => defaultSummary completed
  end.

Definition isRejected (r : result Z) : bool :=
  match r with
  | Ok _ => false
  | Throw _ => true
  end.

(** A code unit that [escapeHtml] leaves alone. *)
Definition plain (c : char16) : Prop := c <> 38%N /\ c <> 60%N /\ c <> 62%N.


(** * Properties *)

(** ** Strings and slices *)

Lemma eqb_eq (a b : jsstring) : Js.eqb a b = true <-> a = b.
Proof.
  revert b; induction a as [|x a IH]; intros [|y b]; simpl; split;
    try congruence; try reflexivity.
  - intros H. apply andb_true_iff in H as [Hx Ha].
    apply N.eqb_eq in Hx. apply IH in Ha. congruence.
  - intros H. injection H as -> ->. rewrite N.eqb_refl. simpl. now apply IH.
Qed.

Lemma eqb_refl (a : jsstring) : Js.eqb a a = true.
Proof. now apply eqb_eq. Qed.

Lemma eqb_neq (a b : jsstring) : Js.eqb a b = false <-> a <> b.
Proof.
  split.
  - intros H E. apply eqb_eq in E. congruence.
  - intros H. destruct (Js.eqb a b) eqn:E; [|reflexivity].
    apply eqb_eq in E. contradiction.
Qed.

Lemma len_app {A : Type} (a b : list A) : Js.len (a ++ b) = Js.len a + Js.len b.
Proof. unfold Js.len. rewrite length_app. lia. Qed.

Lemma len_nonneg {A : Type} (a : list A) : 0 <= Js.len a.
Proof. unfold Js.len. lia. Qed.

(** [l.slice(0, n)] with [n >= 0] is the prefix of length [n]. *)
Lemma slice_prefix {A : Type} (l : list A) (n : Z) :
  0 <= n -> slice l 0 (Some n) = firstn (Z.to_nat n) l.
Proof.
  intros Hn. unfold slice, rel_index, Js.len.
  replace (0 <? 0) with false by reflexivity.
  destruct (n <? 0) eqn:E; [apply Z.ltb_lt in E; lia|].
  rewrite Z.min_l by lia.
  destruct (Z.min n (Z.of_nat (length l))) eqn:M.
  - simpl. destruct (Z.eq_dec n 0) as [->|Hz]; [reflexivity|].
    assert (length l = 0%nat) as L by lia.
    apply length_zero_iff_nil in L. subst l. now rewrite firstn_nil.
  - replace (0 <? Z.pos p) with true by reflexivity.
    rewrite Z.sub_0_r. simpl skipn. rewrite <- M.
    destruct (Z.le_ge_cases n (Z.of_nat (length l))).
    + now rewrite Z.min_l.
    + rewrite Z.min_r by assumption. rewrite Nat2Z.id.
      rewrite firstn_all. symmetry. apply firstn_all2. lia.
  - lia.
Qed.

(** [l.slice(-n)] with [n > 0] is the suffix of the last [n] elements. *)
Lemma slice_suffix {A : Type} (l : list A) (n : Z) :
  0 < n -> slice l (- n) None = lastN (Z.to_nat n) l.
Proof.
  intros Hn. unfold slice, rel_index, Js.len, lastN.
  destruct (- n <? 0) eqn:E; [|apply Z.ltb_ge in E; lia].
  destruct (Z.max (Z.of_nat (length l) + - n) 0 <? Z.of_nat (length l)) eqn:F.
  - apply Z.ltb_lt in F.
    replace (Z.to_nat (Z.max (Z.of_nat (length l) + - n) 0))
      with (length l - Z.to_nat n)%nat by lia.
    apply firstn_all2. rewrite length_skipn. lia.
  - apply Z.ltb_ge in F.
    assert (length l = 0%nat) as L by lia.
    apply length_zero_iff_nil in L. subst l. reflexivity.
Qed.

(** [l.slice(0)] is the whole of [l]. *)
Lemma slice_from_zero {A : Type} (l : list A) : slice l 0 None = l.
Proof.
  unfold slice, rel_index. change (0 <? 0) with false. cbv iota.
  rewrite Z.min_l by apply len_nonneg.
  destruct l as [|x l]; [reflexivity|].
  assert ((0 <? Js.len (x :: l)) = true) as E.
  { apply Z.ltb_lt. unfold Js.len. simpl length. lia. }
  rewrite E, Z.sub_0_r. unfold Js.len. rewrite Nat2Z.id.
  change (Z.to_nat 0) with 0%nat. apply firstn_all.
Qed.

Lemma lastN_length {A : Type} (n : nat) (l : list A) :
  length (lastN n l) = Nat.min n (length l).
Proof. unfold lastN. rewrite length_skipn. lia. Qed.

(** The window is a suffix: what precedes it are the older elements. *)
Lemma lastN_suffix {A : Type} (n : nat) (l : list A) :
  l = firstn (length l - n) l ++ lastN n l.
Proof. unfold lastN. symmetry. apply firstn_skipn. Qed.

Lemma lastN_all {A : Type} (n : nat) (l : list A) :
  (length l <= n)%nat -> lastN n l = l.
Proof.
  intros H. unfold lastN. replace (length l - n)%nat with 0%nat by lia.
  reflexivity.
Qed.

(** ** The thinking block *)

(** With a budget of at least one character the block keeps the tail. *)
Lemma trimmed_keeps_tail (text : jsstring) (maxLength_ : Z) :
  200 < maxLength_ ->
  Js.len text > maxLength_ - 200 ->
  trimmed text maxLength_ = ellipsis ++ lastN (Z.to_nat (maxLength_ - 200)) text.
Proof.
  intros Hm Hl. unfold trimmed.
  destruct (Js.len text >? maxLength_ - 200) eqn:E.
  - rewrite slice_suffix by lia. reflexivity.
  - rewrite Z.gtb_ltb in E. apply Z.ltb_ge in E. lia.
Qed.

Lemma trimmed_short (text : jsstring) (maxLength_ : Z) :
  Js.len text <= maxLength_ - 200 -> trimmed text maxLength_ = text.
Proof.
  intros Hl. unfold trimmed.
  destruct (Js.len text >? maxLength_ - 200) eqn:E; [|reflexivity].
  rewrite Z.gtb_ltb in E. apply Z.ltb_lt in E. lia.
Qed.

(** The scenario of the spec: 5000 characters, maximum length 3800. *)
Lemma trimmed_5000_3800 (text : jsstring) :
  length text = 5000%nat ->
  trimmed text 3800 = ellipsis ++ lastN 3600 text
  /\ Js.len (trimmed text 3800) = 3601.
Proof.
  intros H.
  assert (trimmed text 3800 = ellipsis ++ lastN 3600 text) as E.
  { rewrite trimmed_keeps_tail; [reflexivity | lia | unfold Js.len; lia]. }
  split; [exact E|].
  rewrite E, len_app. unfold Js.len. rewrite lastN_length, H. reflexivity.
Qed.

(** ** The tool section *)

(** A loop that pushes one rendered line per element appends the lines in
    the order of the elements, or raises what the first failing element
    raises. *)
Lemma forOf_pushLine {A : Type} (render : A -> result jsstring) (xs : list A) :
  forall parts,
    match forOf xs (pushLine render) parts with
    | Ok parts' =>
        exists lines, parts' = parts ++ lines
                      /\ Forall2 (fun x l => render x = Ok l) xs lines
    | Throw e => exists x, In x xs /\ render x = Throw e
    end.
Proof.
  induction xs as [|x xs IH]; intros parts; simpl.
  - exists []. split; [now rewrite app_nil_r | constructor].
  - unfold pushLine at 1. destruct (render x) as [line|e] eqn:R; simpl.
    + specialize (IH (parts ++ [line])).
      destruct (forOf xs (pushLine render) (parts ++ [line])) as [parts'|e].
      * destruct IH as (lines & -> & F). exists (line :: lines). split.
        -- now rewrite <- app_assoc.
        -- now constructor.
      * destruct IH as (y & Hy & Ry). exists y. auto.
    + exists x. auto.
Qed.

Lemma toolLine_throws icon toolDisplay name_ args_ e :
  toolLine icon toolDisplay name_ args_ = Throw e ->
  e = TypeError /\ isnt_false (showArgs toolDisplay) = true /\ inheritedName name_.
Proof.
  unfold toolLine, argStr, extractToolArgs, inheritedName.
  destruct (isnt_false (showArgs toolDisplay)); simpl; [|discriminate].
  destruct args_ as [a|]; simpl; [|discriminate].
  destruct (TOOL_ARG_EXTRACTORS (toLowerCase name_)) as [keys| |]; simpl.
  - destruct (keysLoop keys a _); discriminate.
  - intros H. injection H as <-. auto.
  - discriminate.
Qed.

Lemma anyTool_guard (activeTools_ : JsMap.t ToolEntry)
  (completedTools_ : list CompletedToolEntry) :
  ((JsMap.size activeTools_ >? 0) || (Js.len completedTools_ >? 0))%bool
  = anyTool activeTools_ completedTools_.
Proof.
  unfold JsMap.size, Js.len.
  destruct activeTools_, completedTools_; reflexivity.
Qed.

Lemma In_lastN {A : Type} (n : nat) (l : list A) (x : A) :
  In x (lastN n l) -> In x l.
Proof.
  intros H. rewrite (lastN_suffix n l). apply in_or_app. now right.
Qed.

(** What [toolParts] appends to the parts it is given. *)
Lemma toolParts_spec parts activeTools_ completedTools_ toolDisplay :
  match toolParts parts activeTools_ completedTools_ toolDisplay with
  | Ok parts' =>
      if (isnt_false (enabled toolDisplay) && anyTool activeTools_ completedTools_)%bool
      then exists cl al,
          parts' = (match parts with [] => [] | _ => parts ++ [[]] end) ++ cl ++ al
          /\ Forall2 (fun c l => completedLine toolDisplay c = Ok l)
               (lastN 10 completedTools_) cl
          /\ Forall2 (fun e l => activeLine toolDisplay e = Ok l)
               (JsMap.values activeTools_) al
      else parts' = parts
  | Throw e =>
      e = TypeError /\ isnt_false (showArgs toolDisplay) = true
      /\ ((exists c, In c completedTools_ /\ inheritedName (c_name c))
          \/ (exists t, In t (JsMap.values activeTools_) /\ inheritedName (name t)))
  end.
Proof.
  unfold toolParts. rewrite anyTool_guard.
  destruct (isnt_false (enabled toolDisplay) && anyTool activeTools_ completedTools_)%bool;
    [|reflexivity].
  change (-10) with (Z.opp 10).
  rewrite (slice_suffix completedTools_ 10) by lia.
  change (Z.to_nat 10) with 10%nat.
  set (parts0 := if Js.len parts >? 0 then parts ++ [[]] else parts).
  assert (parts0 = match parts with [] => [] | _ => parts ++ [[]] end) as E0.
  { subst parts0. destruct parts; reflexivity. }
  pose proof (forOf_pushLine (completedLine toolDisplay) (lastN 10 completedTools_) parts0) as H1.
  destruct (forOf (lastN 10 completedTools_) (pushLine (completedLine toolDisplay)) parts0)
    as [parts1|e]; simpl.
  - destruct H1 as (cl & -> & Fc).
    pose proof (forOf_pushLine (activeLine toolDisplay) (JsMap.values activeTools_)
                  (parts0 ++ cl)) as H2.
    destruct (forOf (JsMap.values activeTools_) (pushLine (activeLine toolDisplay))
                (parts0 ++ cl)) as [parts2|e].
    + destruct H2 as (al & -> & Fa). exists cl, al.
      rewrite <- E0, <- app_assoc. auto.
    + destruct H2 as (t & Ht & Rt). apply toolLine_throws in Rt as (-> & S & I).
      repeat split; auto. right. eauto.
  - destruct H1 as (c & Hc & Rc). apply toolLine_throws in Rc as (-> & S & I).
    repeat split; auto. left. exists c. split; [eapply In_lastN; eauto | assumption].
Qed.

Lemma Forall2_length_eq {A B : Type} (R : A -> B -> Prop) (a : list A) (b : list B) :
  Forall2 R a b -> length a = length b.
Proof. induction 1; simpl; congruence. Qed.

(** What [buildParts] returns, in every case. *)
Lemma buildParts_spec thinkingText_ activeTools_ completedTools_ toolDisplay maxLength_ :
  match buildParts thinkingText_ activeTools_ completedTools_ toolDisplay maxLength_ with
  | Ok parts =>
      if isnt_false (enabled toolDisplay)
      then exists cl al,
          parts = preamble thinkingText_ maxLength_ (anyTool activeTools_ completedTools_)
                    ++ cl ++ al
          /\ Forall2 (fun c l => completedLine toolDisplay c = Ok l)
               (lastN 10 completedTools_) cl
          /\ Forall2 (fun e l => activeLine toolDisplay e = Ok l)
               (JsMap.values activeTools_) al
      else parts = preamble thinkingText_ maxLength_ false
  | Throw e =>
      e = TypeError /\ isnt_false (showArgs toolDisplay) = true
      /\ ((exists c, In c completedTools_ /\ inheritedName (c_name c))
          \/ (exists t, In t (JsMap.values activeTools_) /\ inheritedName (name t)))
  end.
Proof.
  unfold buildParts.
  pose proof (toolParts_spec (thinkingParts thinkingText_ maxLength_)
                activeTools_ completedTools_ toolDisplay) as H.
  destruct (toolParts (thinkingParts thinkingText_ maxLength_) activeTools_
              completedTools_ toolDisplay) as [parts|e]; simpl; [|exact H].
  unfold preamble. fold placeholder.
  destruct (isnt_false (enabled toolDisplay)); simpl in *.
  - destruct (anyTool activeTools_ completedTools_) eqn:T.
    + destruct H as (cl & al & -> & Fc & Fa).
      assert (length cl + length al > 0)%nat as Hpos.
      { apply Forall2_length_eq in Fc, Fa. rewrite <- Fc, <- Fa, lastN_length.
        unfold JsMap.values. rewrite length_map.
        destruct activeTools_, completedTools_; simpl in *; try discriminate; lia. }
      exists cl, al. split; [|auto].
      destruct (Js.len _ =? 0) eqn:Z0.
      * apply Z.eqb_eq in Z0. unfold Js.len in Z0.
        rewrite !length_app in Z0. lia.
      * destruct (thinkingParts thinkingText_ maxLength_); reflexivity.
    + subst parts. destruct activeTools_, completedTools_; try discriminate.
      exists [], []. simpl. rewrite app_nil_r. repeat split; try constructor.
      destruct (thinkingParts thinkingText_ maxLength_); reflexivity.
  - subst parts. destruct (thinkingParts thinkingText_ maxLength_); reflexivity.
Qed.

Lemma cap_spec (s : jsstring) :
  cap s = (if Js.len s >? 4096 then firstn 4093 s ++ ellipsis else s)
  /\ Js.len (cap s) <= 4096.
Proof.
  unfold cap. destruct (Js.len s >? 4096) eqn:E.
  - rewrite slice_prefix by lia. change (Z.to_nat 4093) with 4093%nat.
    split; [reflexivity|].
    rewrite len_app. unfold Js.len. rewrite length_firstn.
    change (length ellipsis) with 1%nat. lia.
  - split; [reflexivity|]. rewrite Z.gtb_ltb in E. apply Z.ltb_ge in E. exact E.
Qed.

(** C7 as stated fails: the cap on the returned text cuts the tool
    section.  With the default configuration, a thinking text of 3600 code
    units, three completed tools whose arguments have 149 code units and two
    active tools, the parts join to more than 4096 code units; the returned
    text has 4094, ends in the middle of the third completed line and shows
    no active tool. *)
Lemma cap_cuts_tool_section :
  isnt_false (enabled defaultTools) = true
  /\ buildParts (Some crowdedThinking) sampleActive threeWide defaultTools 3800
     = Ok crowdedParts
  /\ buildMessage (Some crowdedThinking) sampleActive threeWide defaultTools 3800
     = Ok crowdedMessage
  /\ Js.len (join newline crowdedParts) = 4208
  /\ Js.len crowdedMessage = 4094
  /\ crowdedMessage <> join newline crowdedParts
  /\ completedLine defaultTools (wideCompleted 3) = Ok wideLine3
  /\ activeLine defaultTools (sampleEntry 20) = Ok activeLine20
  /\ activeLine defaultTools (sampleEntry 21) = Ok activeLine21
  /\ JsMap.values sampleActive = [sampleEntry 20; sampleEntry 21]
  /\ occurs wideLine3 (join newline crowdedParts) = true
  /\ occurs activeLine20 (join newline crowdedParts) = true
  /\ occurs activeLine21 (join newline crowdedParts) = true
  /\ occurs wideLine3 crowdedMessage = false
  /\ occurs activeLine20 crowdedMessage = false
  /\ occurs activeLine21 crowdedMessage = false.
Proof.
  repeat split; try (vm_compute; reflexivity).
  intros E. apply (f_equal Js.len) in E. vm_compute in E. discriminate E.
Qed.

(** C7, amended.  With tool display enabled, the tool section of the
    composed parts is: the last ten completed entries at most, in
    completion order (the oldest of the window first), followed by every
    active entry in insertion order.  Never more than ten completed lines
    are composed.  The lines before the section are the thinking block and
    a separator.  The returned text is the join of these parts when that
    has at most 4096 code units; otherwise it is the first 4093 code units
    of the join followed by an ellipsis, so that lines at the end of the
    section can be cut or missing.  The only other outcome is the
    [TypeError] of a tool named after a property of [Object.prototype]. *)
Theorem tool_section_window thinkingText_ activeTools_ completedTools_
  toolDisplay maxLength_ :
  isnt_false (enabled toolDisplay) = true ->
  match buildParts thinkingText_ activeTools_ completedTools_ toolDisplay maxLength_ with
  | Ok parts =>
      exists cl al,
        parts = preamble thinkingText_ maxLength_ (anyTool activeTools_ completedTools_)
                  ++ cl ++ al
        /\ Forall2 (fun c l => completedLine toolDisplay c = Ok l)
             (lastN 10 completedTools_) cl
        /\ Forall2 (fun e l => activeLine toolDisplay e = Ok l)
             (JsMap.values activeTools_) al
        /\ (length cl <= 10)%nat
        /\ completedTools_
           = firstn (length completedTools_ - 10) completedTools_
               ++ lastN 10 completedTools_
        /\ (Js.len (join newline parts) <= 4096 ->
            buildMessage thinkingText_ activeTools_ completedTools_ toolDisplay maxLength_
            = Ok (join newline parts))
        /\ (4096 < Js.len (join newline parts) ->
            buildMessage thinkingText_ activeTools_ completedTools_ toolDisplay maxLength_
            = Ok (firstn 4093 (join newline parts) ++ ellipsis))
  | Throw e =>
      e = TypeError
      /\ ((exists c, In c completedTools_ /\ inheritedName (c_name c))
          \/ (exists t, In t (JsMap.values activeTools_) /\ inheritedName (name t)))
  end.
Proof.
  intros En.
  pose proof (buildParts_spec thinkingText_ activeTools_ completedTools_
                toolDisplay maxLength_) as H.
  unfold buildMessage.
  destruct (buildParts thinkingText_ activeTools_ completedTools_ toolDisplay maxLength_)
    as [parts|e].
  - rewrite En in H. destruct H as (cl & al & E & Fc & Fa).
    exists cl, al. repeat split; auto.
    + apply Forall2_length_eq in Fc. rewrite <- Fc, lastN_length. lia.
    + apply lastN_suffix.
    + intros L. simpl. fold newline. destruct (cap_spec (join newline parts)) as [C _].
      rewrite C. destruct (Js.len (join newline parts) >? 4096) eqn:G; [|reflexivity].
      rewrite Z.gtb_ltb in G. apply Z.ltb_lt in G. lia.
    + intros L. simpl. fold newline. destruct (cap_spec (join newline parts)) as [C _].
      rewrite C. destruct (Js.len (join newline parts) >? 4096) eqn:G; [reflexivity|].
      rewrite Z.gtb_ltb in G. apply Z.ltb_ge in G. lia.
  - destruct H as (-> & _ & H). auto.
Qed.

Lemma tool_section_window_witness :
  isnt_false (enabled defaultTools) = true
  /\ exists cl al,
      buildParts (Some (lit "hm")) sampleActive twelveCompleted defaultTools 3800
      = Ok (preamble (Some (lit "hm")) 3800 true ++ cl ++ al)
      /\ length cl = 10%nat /\ length al = 2%nat.
Proof.
  split; [reflexivity|].
  pose proof (tool_section_window (Some (lit "hm")) sampleActive twelveCompleted
                defaultTools 3800 eq_refl) as H.
  destruct (buildParts (Some (lit "hm")) sampleActive twelveCompleted defaultTools 3800)
    as [parts|e] eqn:B; [|discriminate B].
  destruct H as (cl & al & E & Fc & Fa & _).
  exists cl, al. split; [now rewrite E|].
  apply Forall2_length_eq in Fc, Fa. split; [now rewrite <- Fc | now rewrite <- Fa].
Defined.

(** C8.  The thinking block at the boundary of its budget: with
    [maxLength = 200] the budget [maxLength - 200] is zero, every
    non-empty text exceeds it, and [slice(-0)] keeps the whole text
    instead of its trailing zero characters; with a smaller [maxLength]
    the block drops a prefix and keeps the rest.  (For [maxLength > 200]
    the tail is kept as claimed: [trimmed_keeps_tail],
    [trimmed_5000_3800].) *)
Theorem trimmed_zero_budget :
  (forall c text,
      Js.len (c :: text) > 200 - 200
      /\ trimmed (c :: text) 200 = ellipsis ++ c :: text
      /\ trimmed (c :: text) 200
         <> ellipsis ++ lastN (Z.to_nat (200 - 200)) (c :: text))
  /\ buildMessage (Some (lit "abc")) [] [] defaultTools 200
     = Ok (brain ++ lit " <b>Thinking</b>" ++ newline ++ newline
             ++ lit "<blockquote>" ++ ellipsis ++ lit "abc" ++ lit "</blockquote>")
  /\ trimmed (repeat 97%N 300) 150 = ellipsis ++ repeat 97%N 250.
Proof.
  split; [|split; [reflexivity | vm_compute; reflexivity]].
  intros c text.
  assert (trimmed (c :: text) 200 = ellipsis ++ c :: text) as E.
  { unfold trimmed. change (200 - 200) with 0. change (- 0) with 0.
    rewrite slice_from_zero.
    destruct (Js.len (c :: text) >? 0) eqn:G; [reflexivity|].
    rewrite Z.gtb_ltb in G. apply Z.ltb_ge in G.
    unfold Js.len in G. simpl length in G. lia. }
  split; [unfold Js.len; simpl length; lia|].
  split; [exact E|].
  rewrite E. change (Z.to_nat (200 - 200)) with 0%nat.
  unfold lastN. rewrite Nat.sub_0_r, skipn_all. discriminate.
Qed.

(** C9.  Whatever the state and the configuration, a returned text has at
    most 4096 code units; when the joined parts exceed 4096, it is their
    first 4093 code units followed by the ellipsis, and otherwise the
    joined parts themselves.  [buildMessage] returns unless a tool is
    named after a property of [Object.prototype]. *)
Theorem buildMessage_capped thinkingText_ activeTools_ completedTools_
  toolDisplay maxLength_ :
  match buildMessage thinkingText_ activeTools_ completedTools_ toolDisplay maxLength_ with
  | Ok r =>
      exists parts,
        buildParts thinkingText_ activeTools_ completedTools_ toolDisplay maxLength_
        = Ok parts
        /\ Js.len r <= 4096
        /\ (Js.len (join newline parts) > 4096 ->
            r = firstn 4093 (join newline parts) ++ ellipsis)
        /\ (Js.len (join newline parts) <= 4096 -> r = join newline parts)
  | Throw e =>
      e = TypeError /\ isnt_false (showArgs toolDisplay) = true
      /\ ((exists c, In c completedTools_ /\ inheritedName (c_name c))
          \/ (exists t, In t (JsMap.values activeTools_) /\ inheritedName (name t)))
  end.
Proof.
  pose proof (buildParts_spec thinkingText_ activeTools_ completedTools_
                toolDisplay maxLength_) as H.
  unfold buildMessage.
  destruct (buildParts thinkingText_ activeTools_ completedTools_ toolDisplay maxLength_)
    as [parts|e]; simpl; [|exact H].
  fold newline. exists parts. destruct (cap_spec (join newline parts)) as [C L].
  split; [reflexivity|]. split; [exact L|].
  rewrite C. destruct (Js.len (join newline parts) >? 4096) eqn:G.
  - split; [reflexivity|]. rewrite Z.gtb_ltb in G. apply Z.ltb_lt in G. lia.
  - split; [|reflexivity]. rewrite Z.gtb_ltb in G. apply Z.ltb_ge in G. lia.
Qed.

Lemma buildMessage_capped_witness :
  buildParts (Some longThinking) [] [] defaultTools 10000 = Ok longParts
  /\ Js.len (join newline longParts) = 5045
  /\ exists r,
      buildMessage (Some longThinking) [] [] defaultTools 10000 = Ok r
      /\ Js.len r <= 4096
      /\ r = firstn 4093 (join newline longParts) ++ ellipsis.
Proof.
  assert (buildParts (Some longThinking) [] [] defaultTools 10000 = Ok longParts)
    as P by (vm_compute; reflexivity).
  assert (Js.len (join newline longParts) = 5045) as L by (vm_compute; reflexivity).
  split; [exact P|]. split; [exact L|].
  pose proof (buildMessage_capped (Some longThinking) [] [] defaultTools 10000) as H.
  destruct (buildMessage (Some longThinking) [] [] defaultTools 10000) as [r|e].
  - exists r. destruct H as (parts & P' & Hl & Hgt & _).
    rewrite P in P'. injection P' as <-.
    split; [reflexivity|]. split; [exact Hl|]. apply Hgt. rewrite L. reflexivity.
  - exfalso. destruct H as (_ & _ & [(c & [] & _)|(t & [] & _)]).
Defined.

(** ** The dispatcher: what each function leaves alone *)

Arguments buildMessage : simpl never.

Ltac unfold_updater :=
  unfold step, start, update, flush, stop, delete, collapse, toolStart, toolEnd,
    timerCallback, triggerUpdate, doFlush, doFlush_resumed, schedule,
    sendOrEdit, sendOrEdit_settled, delete_settled, collapse_settled,
    invoke, await, logVerbose, acknowledge, raise, set_tasks, setTimeout,
    set_timeoutAt, onSession in *.

Ltac break_match :=
  match goal with
  | |- context [match ?x with _ => _ end] => destruct x eqn:?
  | H : context [match ?x with _ => _ end] |- _ => destruct x eqn:?
  end.

Ltac simplify_eqs :=
  repeat match goal with
    | H : Some _ = Some _ |- _ => injection H as H; subst
    | H : (_, _) = (_, _) |- _ => injection H as ? ?; subst
    | H : Some _ = None |- _ => discriminate H
    | H : None = Some _ |- _ => discriminate H
    end.

Ltac crush_updater :=
  unfold_updater; simpl in *;
  repeat (break_match; simpl in *; simplify_eqs; try discriminate; try congruence);
  simplify_eqs; simpl in *; auto 12.

Section Frames.

Variable thinkingConfig : ThinkingConfig.
Variable toolDisplay : ToolDisplayConfig.

Lemma schedule_accumulator now w :
  sameAccumulator w (schedule thinkingConfig now w).
Proof. unfold sameAccumulator. crush_updater. Qed.

Lemma doFlush_accumulator now w :
  sameAccumulator w (doFlush thinkingConfig toolDisplay now w).
Proof. unfold sameAccumulator. crush_updater. Qed.

Lemma triggerUpdate_accumulator now w :
  sameAccumulator w (triggerUpdate thinkingConfig toolDisplay now w).
Proof. unfold sameAccumulator. crush_updater. Qed.

(** A stopped session ignores the dispatcher. *)
Lemma triggerUpdate_stopped now w :
  stopped (session w) = true ->
  triggerUpdate thinkingConfig toolDisplay now w = w.
Proof. intros H. unfold triggerUpdate. now rewrite H. Qed.

Lemma doFlush_stopped now w :
  stopped (session w) = true ->
  doFlush thinkingConfig toolDisplay now w = w.
Proof. intros H. unfold doFlush. now rewrite H. Qed.

Lemma schedule_stopped now w :
  stopped (session w) = true -> schedule thinkingConfig now w = w.
Proof. intros H. unfold schedule. rewrite H. now destruct (timer (session w)). Qed.

(** Nothing clears [stopped]. *)
Lemma step_keeps_stopped w now e w' :
  stopped (session w) = true ->
  step thinkingConfig toolDisplay w now e = Some w' ->
  stopped (session w') = true.
Proof.
  intros S H. destruct e; simpl in H.
  - injection H as <-. unfold start. now rewrite triggerUpdate_stopped.
  - injection H as <-. unfold update. now rewrite triggerUpdate_stopped.
  - injection H as <-. unfold flush. now rewrite doFlush_stopped.
  - injection H as <-. reflexivity.
  - injection H as <-. unfold delete. simpl.
    destruct (messageId (session w)) as [id|];
      [destruct (truthyId (Some id))|]; reflexivity.
  - injection H as <-. unfold collapse. simpl.
    destruct (messageId (session w)) as [id|];
      [destruct (truthyId (Some id))|]; reflexivity.
  - injection H as <-. unfold toolStart. now rewrite triggerUpdate_stopped.
  - injection H as <-. unfold toolEnd.
    destruct (JsMap.get (activeTools (session w)) id);
      now rewrite triggerUpdate_stopped.
  - destruct (timer (session w)) as [due|]; [|discriminate H].
    destruct (timeoutAt w <=? now); [|discriminate H]. injection H as <-.
    unfold timerCallback. now rewrite doFlush_stopped.
  - destruct (nth_error (tasks w) i) as [[who c|r0]|]; try discriminate H.
    destruct who.
    + destruct (sendOrEdit_settled c r w) as [w1 r1] eqn:E.
      injection H as <-. simpl.
      unfold sendOrEdit_settled in E.
      destruct r; [destruct c|]; injection E as <- _; exact S.
    + injection H as <-. unfold delete_settled. destruct r; exact S.
    + injection H as <-. unfold collapse_settled. destruct r; exact S.
  - destruct (nth_error (tasks w) i) as [[who c|r0]|]; try discriminate H.
    injection H as <-. unfold doFlush_resumed.
    destruct r0; simpl; [|exact S].
    destruct (pendingUpdate (session w)); [|exact S].
    now rewrite schedule_stopped.
Qed.

End Frames.

(** ** The accumulator and the terminal state *)

(** C6.  [toolEnd] for an id that is not in the active map leaves the
    active map and the completed sequence as they are. *)
Theorem toolEnd_inactive_noop tc td w now id failed_ :
  JsMap.get (activeTools (session w)) id = None ->
  exists w',
    step tc td w now (ToolEnd id failed_) = Some w'
    /\ activeTools (session w') = activeTools (session w)
    /\ completedTools (session w') = completedTools (session w).
Proof.
  intros H. eexists. split; [reflexivity|].
  unfold toolEnd. rewrite H.
  destruct (triggerUpdate_accumulator tc td now w) as (_ & A & C). auto.
Qed.

Lemma toolEnd_inactive_noop_witness :
  exists w',
    step defaultThinking defaultTools initialWorld 1000 (ToolEnd (lit "t9") None)
    = Some w'
    /\ activeTools (session w') = []
    /\ completedTools (session w') = [].
Proof.
  apply (toolEnd_inactive_noop defaultThinking defaultTools initialWorld 1000
           (lit "t9") None).
  reflexivity.
Defined.

(** C4 as stated fails: [update] after [stop] replaces the thinking text. *)
Lemma update_after_stop_mutates :
  stopped (session stoppedWorld) = true
  /\ exists w',
      step defaultThinking defaultTools stoppedWorld 5 (Update (lit "x")) = Some w'
      /\ thinkingText (session w') = Some (lit "x")
      /\ ~ sameAccumulator stoppedWorld w'.
Proof.
  split; [reflexivity|]. eexists. split; [reflexivity|]. split; [reflexivity|].
  intros (T & _). discriminate T.
Qed.

(** C4, amended.  Once [stopped] is set no event clears it; every later
    [update], [toolStart] and [toolEnd] makes no transport call, starts no
    await, arms no timer and leaves the delivery state alone, but still
    writes to the accumulator: [update] replaces the thinking text,
    [toolStart] sets the entry, [toolEnd] moves an active entry to the
    completed sequence. *)
Theorem terminal_is_permanent tc td w now e w' :
  stopped (session w) = true ->
  step tc td w now e = Some w' ->
  stopped (session w') = true
  /\ (isMutator e = true ->
      calls w' = calls w /\ tasks w' = tasks w
      /\ timer (session w') = timer (session w)
      /\ sameDelivery w w'
      /\ match e with
         | Update text =>
             thinkingText (session w') = Some text
         | ToolStart id name_ args_ =>
             activeTools (session w')
             = JsMap.set (activeTools (session w)) id
                 {| name := name_; args := args_; startedAt := now |}
         | ToolEnd id failed_ =>
             match JsMap.get (activeTools (session w)) id with
             | Some entry =>
                 activeTools (session w') = JsMap.delete (activeTools (session w)) id
                 /\ completedTools (session w')
                    = completedTools (session w)
                        ++ [{| c_name := name entry; c_args := args entry;
                               c_startedAt := startedAt entry;
                               failed := orDefault failed_ false;
                               duration := now - startedAt entry |}]
             | None => sameAccumulator w w'
             end
         | _ => True
         end).
Proof.
  intros S H. split; [eapply step_keeps_stopped; eauto|].
  intros M. destruct e; try discriminate M; simpl in H; injection H as <-.
  - unfold update. rewrite triggerUpdate_stopped by exact S.
    unfold sameDelivery. simpl. auto 10.
  - unfold toolStart. rewrite triggerUpdate_stopped by exact S.
    unfold sameDelivery. simpl. auto 10.
  - unfold toolEnd.
    destruct (JsMap.get (activeTools (session w)) id) as [entry|].
    + rewrite triggerUpdate_stopped by exact S.
      unfold sameDelivery. simpl. auto 10.
    + rewrite triggerUpdate_stopped by exact S.
      unfold sameDelivery, sameAccumulator. auto 10.
Qed.

Lemma terminal_is_permanent_witness :
  exists w',
    step defaultThinking defaultTools stoppedWorld 5 (Update (lit "x")) = Some w'
    /\ stopped (session w') = true
    /\ calls w' = [] /\ tasks w' = []
    /\ thinkingText (session w') = Some (lit "x").
Proof.
  eexists. split; [reflexivity|].
  destruct (terminal_is_permanent defaultThinking defaultTools stoppedWorld 5
              (Update (lit "x")) _ eq_refl eq_refl) as (S & M).
  destruct (M eq_refl) as (C & T & _ & _ & X).
  auto.
Defined.

(** The methods that end a session set [stopped]. *)
Lemma terminal_call_stops tc td w now e w' :
  isTerminal e = true ->
  step tc td w now e = Some w' ->
  stopped (session w') = true.
Proof. intros T H. destruct e; try discriminate T; crush_updater. Qed.

(** ** Lists of awaits *)

Lemma count_app {A : Type} (p : A -> bool) (l1 l2 : list A) :
  count p (l1 ++ l2) = (count p l1 + count p l2)%nat.
Proof. unfold count. now rewrite filter_app, length_app. Qed.

Lemma count_cons {A : Type} (p : A -> bool) (x : A) (l : list A) :
  count p (x :: l) = (b2n (p x) + count p l)%nat.
Proof. unfold count. simpl. now destruct (p x). Qed.

Lemma count_snoc {A : Type} (p : A -> bool) (l : list A) (x : A) :
  count p (l ++ [x]) = (count p l + b2n (p x))%nat.
Proof. rewrite count_app, count_cons. unfold count. simpl. lia. Qed.

Lemma count_zero {A : Type} (p : A -> bool) (l : list A) (x : A) :
  count p l = 0%nat -> In x l -> p x = false.
Proof.
  induction l as [|y l IH]; intros C I; [contradiction|].
  rewrite count_cons in C. destruct I as [->|I].
  - destruct (p x); [discriminate C | reflexivity].
  - apply IH; [lia | assumption].
Qed.

Lemma count_replaceAt {A : Type} (p : A -> bool) (l : list A) (i : nat) (t t' : A) :
  nth_error l i = Some t ->
  (count p (replaceAt i t' l) + b2n (p t) = count p l + b2n (p t'))%nat.
Proof.
  revert i; induction l as [|y l IH]; intros [|i] H; simpl in H; try discriminate.
  - injection H as ->. simpl. rewrite !count_cons. lia.
  - simpl. rewrite !count_cons. specialize (IH i H). lia.
Qed.

Lemma count_removeAt {A : Type} (p : A -> bool) (l : list A) (i : nat) (t : A) :
  nth_error l i = Some t ->
  (count p (removeAt i l) + b2n (p t) = count p l)%nat.
Proof.
  revert i; induction l as [|y l IH]; intros [|i] H; simpl in H; try discriminate.
  - injection H as ->. simpl. rewrite !count_cons. lia.
  - simpl. rewrite !count_cons. specialize (IH i H). lia.
Qed.

Lemma In_replaceAt {A : Type} (l : list A) (i : nat) (t' x : A) :
  In x (replaceAt i t' l) -> x = t' \/ In x l.
Proof.
  revert i; induction l as [|y l IH]; intros [|i] H; simpl in *; try tauto.
  - destruct H as [H|H]; auto.
  - destruct H as [H|H]; auto. destruct (IH i H); auto.
Qed.

Lemma In_removeAt {A : Type} (l : list A) (i : nat) (x : A) :
  In x (removeAt i l) -> In x l.
Proof.
  revert i; induction l as [|y l IH]; intros [|i] H; simpl in *; try tauto.
  destruct H as [H|H]; eauto.
Qed.

Lemma nth_error_replaceAt {A : Type} (l : list A) (i : nat) (t t' : A) :
  nth_error l i = Some t -> nth_error (replaceAt i t' l) i = Some t'.
Proof.
  revert i; induction l as [|y l IH]; intros [|i] H; simpl in *;
    try discriminate; auto.
Qed.

Lemma Forall_replaceAt {A : Type} (P : A -> Prop) (l : list A) (i : nat) (t' : A) :
  Forall P l -> P t' -> Forall P (replaceAt i t' l).
Proof.
  intros F. revert i. induction F as [|y l Hy F IH]; intros [|i] Ht; simpl;
    constructor; auto.
Qed.

Lemma Forall_removeAt {A : Type} (P : A -> Prop) (l : list A) (i : nat) :
  Forall P l -> Forall P (removeAt i l).
Proof.
  intros F. revert i. induction F as [|y l Hy F IH]; intros [|i]; simpl;
    try constructor; auto.
Qed.

Lemma flights_bound_api (l : list Task) :
  Forall (fun t => isFlight t = true) l -> (count isApi l <= count isFlight l)%nat.
Proof.
  induction 1 as [|t l Ht F IH]; [reflexivity|].
  rewrite !count_cons, Ht. destruct (isApi t); simpl; lia.
Qed.

(** ** The awaits of a reachable world *)

Section Reachable.

Variable thinkingConfig : ThinkingConfig.
Variable toolDisplay : ToolDisplayConfig.

Lemma flightInv_ext (w w' : World) :
  tasks w' = tasks w ->
  inFlight (session w') = inFlight (session w) ->
  lastSentContent (session w') = lastSentContent (session w) ->
  delivered w' = delivered w ->
  messageId (session w') = messageId (session w) ->
  flightInv w -> flightInv w'.
Proof.
  unfold flightInv. intros -> -> -> -> ->. auto.
Qed.

Lemma initial_flightInv : flightInv initialWorld.
Proof.
  unfold flightInv. simpl. repeat split; auto; contradiction.
Qed.

Lemma schedule_flightInv now w :
  flightInv w -> flightInv (schedule thinkingConfig now w).
Proof. apply flightInv_ext; crush_updater. Qed.

(** No delivery cycle is in progress: there is no await of one. *)
Lemma idle_no_flight w t :
  flightInv w -> inFlight (session w) = false -> In t (tasks w) ->
  isFlight t = false.
Proof.
  intros (C & _) F I. rewrite F in C. eapply count_zero; eauto.
Qed.

Lemma doFlush_flightInv now w :
  flightInv w -> flightInv (doFlush thinkingConfig toolDisplay now w).
Proof.
  intros Inv. unfold doFlush.
  destruct (stopped (session w)) eqn:S; [exact Inv|]. simpl.
  destruct (inFlight (session w)) eqn:F.
  { revert Inv. apply flightInv_ext; simpl; auto. }
  destruct (buildMessage _ _ _ _ _) as [content|e].
  2:{ revert Inv. apply flightInv_ext; simpl; auto. }
  pose proof (fun t => idle_no_flight w t Inv F) as Idle.
  destruct Inv as (C & L & R & D). rewrite F in C.
  unfold sendOrEdit. simpl. rewrite S. simpl.
  destruct (Js.eqb content (lastSentContent (session w))) eqn:E.
  - unfold flightInv. simpl. rewrite count_snoc, C. simpl.
    repeat split; auto.
    + intros c I. apply in_app_or in I as [I|[I|[]]]; [|discriminate I].
      apply Idle in I. discriminate I.
    + intros r I. apply in_app_or in I as [I|[I|[]]]; [|congruence].
      apply Idle in I. discriminate I.
  - assert (forall call_,
               contentOf call_ = content ->
               flightInv
                 (invoke now BySendOrEdit call_
                    (onSession (set_lastSentAt now)
                       (onSession (set_lastSentContent content)
                          (onSession (set_inFlight true)
                             (onSession (set_timer None) w)))))) as K.
    { intros call_ Hc. unfold flightInv. simpl. rewrite count_snoc, C. simpl.
      repeat split; auto.
      - intros c I. apply in_app_or in I as [I|[I|[]]].
        + apply Idle in I. discriminate I.
        + injection I as <-. now rewrite Hc.
      - intros r I. apply in_app_or in I as [I|[I|[]]]; [|discriminate I].
        apply Idle in I. discriminate I. }
    destruct (messageId (session w)) as [id|]; [destruct (truthyId (Some id))|];
      apply K; reflexivity.
Qed.

Lemma triggerUpdate_flightInv now w :
  flightInv w -> flightInv (triggerUpdate thinkingConfig toolDisplay now w).
Proof.
  intros Inv. unfold triggerUpdate.
  destruct (stopped (session w)); [exact Inv|].
  destruct (inFlight (session w)) eqn:F.
  { apply schedule_flightInv. revert Inv. apply flightInv_ext; simpl; auto. }
  destruct (timer (session w)); [now apply schedule_flightInv|].
  destruct (_ >=? _); [now apply doFlush_flightInv | now apply schedule_flightInv].
Qed.

Lemma step_flightInv w now e w' :
  flightInv w ->
  step thinkingConfig toolDisplay w now e = Some w' ->
  flightInv w'.
Proof.
  intros Inv H. destruct e; simpl in H.
  - injection H as <-. now apply triggerUpdate_flightInv.
  - injection H as <-. apply triggerUpdate_flightInv.
    revert Inv. apply flightInv_ext; simpl; auto.
  - injection H as <-. now apply doFlush_flightInv.
  - injection H as <-. revert Inv. apply flightInv_ext; simpl; auto.
  - injection H as <-. unfold delete. simpl.
    destruct (messageId (session w)) as [id|] eqn:M;
      [destruct (truthyId (Some id))|];
      try (revert Inv; apply flightInv_ext; simpl; auto; fail).
    destruct Inv as (C & L & R & D). unfold flightInv. simpl.
    rewrite count_snoc. simpl. rewrite Nat.add_0_r.
    repeat split; auto.
    + intros c I. apply in_app_or in I as [I|[I|[]]]; [auto | discriminate I].
    + intros r I. apply in_app_or in I as [I|[I|[]]]; [auto | discriminate I].
  - injection H as <-. unfold collapse. simpl.
    destruct (messageId (session w)) as [id|] eqn:M;
      [destruct (truthyId (Some id))|];
      try (revert Inv; apply flightInv_ext; simpl; auto; fail).
    destruct Inv as (C & L & R & D). unfold flightInv. simpl.
    rewrite count_snoc. simpl. rewrite Nat.add_0_r.
    repeat split; auto.
    + intros c I. apply in_app_or in I as [I|[I|[]]]; [auto | discriminate I].
    + intros r I. apply in_app_or in I as [I|[I|[]]]; [auto | discriminate I].
  - injection H as <-. apply triggerUpdate_flightInv.
    revert Inv. apply flightInv_ext; simpl; auto.
  - injection H as <-. apply triggerUpdate_flightInv.
    destruct (JsMap.get (activeTools (session w)) id);
      revert Inv; apply flightInv_ext; simpl; auto.
  - destruct (timer (session w)) as [due|]; [|discriminate H].
    destruct (timeoutAt w <=? now); [|discriminate H]. injection H as <-.
    apply doFlush_flightInv. revert Inv. apply flightInv_ext; simpl; auto.
  - destruct (nth_error (tasks w) i) as [[who c|r0]|] eqn:N; try discriminate H.
    destruct Inv as (C & L & R & D).
    destruct who.
    + assert (lastSentContent (session w) = contentOf c) as Lc
          by (apply L; eapply nth_error_In; eauto).
      assert (exists w1,
                 sendOrEdit_settled c r w = (w1, Ok tt)
                 /\ tasks w1 = tasks w
                 /\ inFlight (session w1) = inFlight (session w)
                 /\ lastSentContent (session w1) = lastSentContent (session w)
                 /\ (delivered w1 = [] -> messageId (session w1) = None))
        as (w1 & E & T & F & Lw & Dw).
      { unfold sendOrEdit_settled. destruct r as [mid|err].
        - destruct c; eexists; (split; [reflexivity|]); simpl;
            repeat split; auto; discriminate.
        - eexists; (split; [reflexivity|]); simpl; repeat split; auto. }
      rewrite E in H. injection H as <-.
      pose proof (count_replaceAt isFlight (tasks w) i _ (AwaitSendOrEdit (Ok tt)) N) as Cr.
      simpl in Cr.
      unfold flightInv. simpl. rewrite T, F, Lw.
      repeat split; auto.
      * lia.
      * intros c' I. apply In_replaceAt in I as [I|I]; [discriminate I | auto].
      * intros r' I. apply In_replaceAt in I as [I|I]; [congruence | auto].
    + injection H as <-.
      pose proof (count_removeAt isFlight (tasks w) i _ N) as Cr. simpl in Cr.
      unfold flightInv, delete_settled. destruct r; simpl; repeat split; auto;
        try lia; intros ? I; apply In_removeAt in I; auto.
    + injection H as <-.
      pose proof (count_removeAt isFlight (tasks w) i _ N) as Cr. simpl in Cr.
      unfold flightInv, collapse_settled. destruct r; simpl; repeat split; auto;
        try lia; intros ? I; apply In_removeAt in I; auto.
  - destruct (nth_error (tasks w) i) as [[who c|r0]|] eqn:N; try discriminate H.
    injection H as <-.
    destruct Inv as (C & L & R & D).
    pose proof (count_removeAt isFlight (tasks w) i _ N) as Cr. simpl in Cr.
    assert (count isFlight (removeAt i (tasks w)) = 0%nat) as C0
        by (destruct (inFlight (session w)); lia).
    assert (flightInv
              (onSession (set_inFlight false)
                 (set_tasks (removeAt i (tasks w)) w))) as Inv'.
    { unfold flightInv. simpl. repeat split; auto.
      - intros c I. apply In_removeAt in I. auto.
      - intros r I. apply In_removeAt in I. auto. }
    unfold doFlush_resumed. destruct r0 as [u|err].
    + simpl. destruct (pendingUpdate (session w)).
      * apply schedule_flightInv. revert Inv'. apply flightInv_ext; simpl; auto.
      * exact Inv'.
    + revert Inv'. apply flightInv_ext; simpl; auto.
Qed.

Lemma run_invariant (P : World -> Prop) (ok : Event -> bool) :
  (forall w now e w',
      P w -> ok e = true ->
      step thinkingConfig toolDisplay w now e = Some w' -> P w') ->
  forall tr w w',
    P w ->
    Forall (fun te => ok (snd te) = true) tr ->
    run thinkingConfig toolDisplay w tr = Some w' ->
    P w'.
Proof.
  intros Hstep tr. induction tr as [|[now e] tr IH]; intros w w' Pw F R; simpl in R.
  - injection R as <-. exact Pw.
  - inversion F as [|? ? Fe Ft]; subst. simpl in Fe.
    destruct (step thinkingConfig toolDisplay w now e) as [w1|] eqn:S;
      [|discriminate R].
    apply (IH w1 w'); [eapply Hstep; eauto | exact Ft | exact R].
Qed.

Lemma run_flightInv tr w :
  run thinkingConfig toolDisplay initialWorld tr = Some w -> flightInv w.
Proof.
  intros R.
  apply (run_invariant flightInv (fun _ => true)
           (fun w0 now e w1 P _ S => step_flightInv w0 now e w1 P S)
           tr initialWorld w initial_flightInv); [|exact R].
  apply Forall_forall. reflexivity.
Qed.

End Reachable.

(** ** The sink: deduplication and failures *)

(** A cycle whose rendered content is the recorded one makes no call. *)
Lemma doFlush_dedupe tc td now w :
  rendered tc td w = Ok (lastSentContent (session w)) ->
  calls (doFlush tc td now w) = calls w
  /\ outstanding (doFlush tc td now w) = outstanding w
  /\ sameDelivery w (doFlush tc td now w).
Proof.
  unfold rendered, sameDelivery, outstanding, doFlush. intros H.
  destruct (stopped (session w)) eqn:S; [auto|]. simpl.
  destruct (inFlight (session w)); [simpl; auto|].
  rewrite H. unfold sendOrEdit. simpl. rewrite S, eqb_refl. simpl.
  rewrite count_snoc. simpl. auto.
Qed.

(** C10.  [collapse] on a session without a message identifier makes no
    transport call and starts no await, whatever the summary; the session
    is stopped and its timer cancelled.  A session none of whose
    deliveries was acknowledged has no message identifier. *)
Theorem collapse_without_message tc td tr w now summary :
  run tc td initialWorld tr = Some w ->
  messageId (session w) = None \/ delivered w = [] ->
  exists w',
    step tc td w now (Collapse summary) = Some w'
    /\ calls w' = calls w
    /\ tasks w' = tasks w
    /\ outstanding w' = outstanding w
    /\ stopped (session w') = true
    /\ timer (session w') = None.
Proof.
  intros R H.
  assert (messageId (session w) = None) as M.
  { destruct H as [H|H]; [exact H|].
    destruct (run_flightInv tc td tr w R) as (_ & _ & _ & D). auto. }
  eexists. split; [reflexivity|].
  unfold collapse, outstanding. simpl. rewrite M. simpl. auto.
Qed.

Lemma collapse_without_message_witness :
  run defaultThinking defaultTools initialWorld failedSendTrace = Some afterFailedSend
  /\ delivered afterFailedSend = []
  /\ exists w',
      step defaultThinking defaultTools afterFailedSend 3000
        (Collapse (Some (lit "done"))) = Some w'
      /\ calls w' = calls afterFailedSend
      /\ tasks w' = tasks afterFailedSend
      /\ outstanding w' = outstanding afterFailedSend
      /\ stopped (session w') = true
      /\ timer (session w') = None.
Proof.
  assert (run defaultThinking defaultTools initialWorld failedSendTrace
          = Some afterFailedSend) as R by (vm_compute; reflexivity).
  assert (delivered afterFailedSend = []) as D by (vm_compute; reflexivity).
  split; [exact R|]. split; [exact D|].
  exact (collapse_without_message defaultThinking defaultTools failedSendTrace
           afterFailedSend 3000 (Some (lit "done")) R (or_intror D)).
Defined.

(** C5 as stated fails: after a failed edit the recorded content is the
    failed one, so a [flush] whose rendered text equals the last
    acknowledged content does make a transport call. *)
Lemma flush_after_failed_edit_calls :
  run defaultThinking defaultTools initialWorld failedEditTrace = Some afterFailedEdit
  /\ stopped (session afterFailedEdit) = false
  /\ rendered defaultThinking defaultTools afterFailedEdit
     = Ok (thinkingMessage (lit "a"))
  /\ hd_error (delivered afterFailedEdit) = Some (thinkingMessage (lit "a"))
  /\ lastSentContent (session afterFailedEdit) = thinkingMessage (lit "b")
  /\ calls (flush defaultThinking defaultTools 2003 afterFailedEdit)
     = {| at_ := 2003; by_ := BySendOrEdit;
          call := EditMessageText 7 (thinkingMessage (lit "a")) |}
         :: calls afterFailedEdit
  /\ outstanding (flush defaultThinking defaultTools 2003 afterFailedEdit)
     = S (outstanding afterFailedEdit).
Proof. repeat split; vm_compute; reflexivity. Qed.

(** C5, amended.  [flush] on a session that is not stopped, when the
    rendered text equals [lastSentContent] (the content of the latest
    delivery attempt, acknowledged or not), makes no transport call and
    leaves the delivery state as it is. *)
Theorem flush_dedupe tc td w now :
  stopped (session w) = false ->
  rendered tc td w = Ok (lastSentContent (session w)) ->
  exists w',
    step tc td w now Flush = Some w'
    /\ calls w' = calls w
    /\ outstanding w' = outstanding w
    /\ sameDelivery w w'.
Proof.
  intros _ H. eexists. split; [reflexivity|].
  now apply doFlush_dedupe.
Qed.

Lemma flush_dedupe_witness :
  stopped (session afterFirstDelivery) = false
  /\ rendered defaultThinking defaultTools afterFirstDelivery
     = Ok (lastSentContent (session afterFirstDelivery))
  /\ exists w',
      step defaultThinking defaultTools afterFirstDelivery 1002 Flush = Some w'
      /\ calls w' = calls afterFirstDelivery
      /\ outstanding w' = outstanding afterFirstDelivery
      /\ sameDelivery afterFirstDelivery w'.
Proof.
  assert (stopped (session afterFirstDelivery) = false) as S
      by (vm_compute; reflexivity).
  assert (rendered defaultThinking defaultTools afterFirstDelivery
          = Ok (lastSentContent (session afterFirstDelivery))) as H
      by (vm_compute; reflexivity).
  split; [exact S|]. split; [exact H|].
  exact (flush_dedupe defaultThinking defaultTools afterFirstDelivery 1002 S H).
Defined.

(** C1 as stated fails: the only delivery of the session has failed, yet
    [lastSentContent] holds its content, and a later cycle that presents
    the same content makes no transport call. *)
Lemma failed_send_is_not_retried :
  run defaultThinking defaultTools initialWorld failedSendTrace = Some afterFailedSend
  /\ verbose afterFailedSend = [SendFailed]
  /\ delivered afterFailedSend = []
  /\ raised afterFailedSend = []
  /\ map call (calls afterFailedSend) = [SendMessage (thinkingMessage (lit "a"))]
  /\ rendered defaultThinking defaultTools afterFailedSend
     = Ok (thinkingMessage (lit "a"))
  /\ lastSentContent (session afterFailedSend) = thinkingMessage (lit "a")
  /\ lastSentContent (session afterFailedSend) <> lastSentContent (session initialWorld)
  /\ lastSentAt (session afterFailedSend) <> lastSentAt (session initialWorld)
  /\ calls (flush defaultThinking defaultTools 5000 afterFailedSend)
     = calls afterFailedSend
  /\ outstanding (flush defaultThinking defaultTools 5000 afterFailedSend) = 0%nat.
Proof.
  repeat split; try (vm_compute; reflexivity); vm_compute; discriminate.
Qed.

(** C1, amended.  When the transport call of a delivery cycle is rejected,
    [sendOrEdit] logs and finishes normally: nothing is raised, [doFlush]
    resumes as after a success, and the rejection itself changes nothing
    of the delivery state.  [lastSentContent], written before the call,
    holds the content of the failed call, so the next cycle that presents
    this content makes no transport call. *)
Theorem failure_is_swallowed tc td tr w i c now err :
  run tc td initialWorld tr = Some w ->
  nth_error (tasks w) i = Some (AwaitApi BySendOrEdit c) ->
  exists w1,
    step tc td w now (Settles i (Throw err)) = Some w1
    /\ raised w1 = raised w
    /\ length (verbose w1) = S (length (verbose w))
    /\ calls w1 = calls w
    /\ nth_error (tasks w1) i = Some (AwaitSendOrEdit (Ok tt))
    /\ sameDelivery w w1
    /\ lastSentContent (session w1) = contentOf c
    /\ forall now2, exists w2,
        step tc td w1 now2 (Resumes i) = Some w2
        /\ raised w2 = raised w
        /\ calls w2 = calls w
        /\ inFlight (session w2) = false
        /\ sameDelivery w w2
        /\ forall now3,
            rendered tc td w2 = Ok (contentOf c) ->
            exists w3,
              step tc td w2 now3 Flush = Some w3
              /\ calls w3 = calls w
              /\ outstanding w3 = outstanding w2.
Proof.
  intros R N.
  destruct (run_flightInv tc td tr w R) as (_ & L & _ & _).
  assert (lastSentContent (session w) = contentOf c) as Lc
      by (apply L; eapply nth_error_In; eauto).
  simpl. rewrite N. simpl. eexists. split; [reflexivity|]. simpl.
  repeat (split; [reflexivity|]).
  split; [eapply nth_error_replaceAt; eauto|].
  split; [unfold sameDelivery; simpl; auto|].
  split; [exact Lc|].
  intros now2. erewrite nth_error_replaceAt by eauto.
  eexists. split; [reflexivity|].
  set (w2 := doFlush_resumed tc now2 (Ok tt) _).
  assert (raised w2 = raised w /\ calls w2 = calls w
          /\ inFlight (session w2) = false /\ sameDelivery w w2) as (Rw & Cw & Fw & Dw).
  { subst w2. unfold sameDelivery, doFlush_resumed. simpl.
    destruct (pendingUpdate _); [|simpl; auto 10].
    unfold schedule. simpl. destruct (timer _); [simpl; auto 10|].
    destruct (stopped _); simpl; auto 10. }
  repeat (split; [assumption|]).
  intros now3 Hr. eexists. split; [reflexivity|].
  destruct Dw as (_ & Dl & _).
  destruct (doFlush_dedupe tc td now3 w2) as (C3 & O3 & _).
  { rewrite Hr. f_equal. congruence. }
  unfold flush. split; [congruence | exact O3].
Qed.

Lemma failure_is_swallowed_witness :
  run defaultThinking defaultTools initialWorld firstUpdateTrace = Some afterFirstUpdate
  /\ nth_error (tasks afterFirstUpdate) 0
     = Some (AwaitApi BySendOrEdit (SendMessage (thinkingMessage (lit "a"))))
  /\ exists w1,
      step defaultThinking defaultTools afterFirstUpdate 1002
        (Settles 0 (Throw TransportError)) = Some w1
      /\ raised w1 = raised afterFirstUpdate
      /\ lastSentContent (session w1) = thinkingMessage (lit "a").
Proof.
  assert (run defaultThinking defaultTools initialWorld firstUpdateTrace
          = Some afterFirstUpdate) as R by (vm_compute; reflexivity).
  assert (nth_error (tasks afterFirstUpdate) 0
          = Some (AwaitApi BySendOrEdit (SendMessage (thinkingMessage (lit "a")))))
    as N by (vm_compute; reflexivity).
  split; [exact R|]. split; [exact N|].
  destruct (failure_is_swallowed defaultThinking defaultTools firstUpdateTrace
              afterFirstUpdate 0 (SendMessage (thinkingMessage (lit "a")))
              1002 TransportError R N)
    as (w1 & S & Rz & _ & _ & _ & _ & L & _).
  exists w1. auto.
Defined.

(** ** The dispatcher: single flight *)

Section Dispatcher.

Variable thinkingConfig : ThinkingConfig.
Variable toolDisplay : ToolDisplayConfig.

Lemma initial_activeInv : activeInv initialWorld.
Proof. split; [reflexivity | constructor]. Qed.

Lemma schedule_activeInv now w :
  activeInv w -> activeInv (schedule thinkingConfig now w).
Proof. unfold activeInv. crush_updater. Qed.

Lemma doFlush_activeInv now w :
  activeInv w -> activeInv (doFlush thinkingConfig toolDisplay now w).
Proof.
  unfold activeInv. intros (S & F). crush_updater; split; auto;
    apply Forall_app; split; auto.
Qed.

Lemma triggerUpdate_activeInv now w :
  activeInv w -> activeInv (triggerUpdate thinkingConfig toolDisplay now w).
Proof.
  intros Inv. unfold triggerUpdate.
  destruct (stopped (session w)); [exact Inv|].
  destruct (inFlight (session w)).
  { apply schedule_activeInv. exact Inv. }
  destruct (timer (session w)); [now apply schedule_activeInv|].
  destruct (_ >=? _); [now apply doFlush_activeInv | now apply schedule_activeInv].
Qed.

Lemma step_activeInv w now e w' :
  activeInv w -> isTerminal e = false ->
  step thinkingConfig toolDisplay w now e = Some w' ->
  activeInv w'.
Proof.
  intros Inv T H. destruct e; try discriminate T; simpl in H.
  - injection H as <-. now apply triggerUpdate_activeInv.
  - injection H as <-. now apply triggerUpdate_activeInv.
  - injection H as <-. now apply doFlush_activeInv.
  - injection H as <-. now apply triggerUpdate_activeInv.
  - injection H as <-. apply triggerUpdate_activeInv.
    destruct (JsMap.get (activeTools (session w)) id); exact Inv.
  - destruct (timer (session w)) as [due|]; [|discriminate H].
    destruct (timeoutAt w <=? now); [|discriminate H]. injection H as <-.
    apply doFlush_activeInv. exact Inv.
  - destruct Inv as (S & F).
    destruct (nth_error (tasks w) i) as [[who c|r0]|] eqn:N; try discriminate H.
    destruct who.
    + destruct (sendOrEdit_settled c r w) as [w1 r1] eqn:E.
      injection H as <-.
      assert (stopped (session w1) = stopped (session w) /\ tasks w1 = tasks w)
        as (S1 & T1) by crush_updater.
      split; simpl; [congruence|]. rewrite T1. now apply Forall_replaceAt.
    + injection H as <-. unfold delete_settled.
      destruct r; split; simpl; auto; now apply Forall_removeAt.
    + injection H as <-. unfold collapse_settled.
      destruct r; split; simpl; auto; now apply Forall_removeAt.
  - destruct Inv as (S & F).
    destruct (nth_error (tasks w) i) as [[who c|r0]|] eqn:N; try discriminate H.
    injection H as <-.
    assert (activeInv (set_tasks (removeAt i (tasks w)) w)) as Inv'
        by (split; simpl; auto; now apply Forall_removeAt).
    revert Inv'. generalize (set_tasks (removeAt i (tasks w)) w). intros w0 (S0 & F0).
    unfold activeInv. crush_updater.
Qed.

(** A trigger that arrives during a delivery cycle starts nothing. *)
Lemma trigger_in_flight w now e w' :
  stopped (session w) = false ->
  inFlight (session w) = true ->
  isTrigger e = true ->
  step thinkingConfig toolDisplay w now e = Some w' ->
  calls w' = calls w /\ tasks w' = tasks w
  /\ inFlight (session w') = true
  /\ pendingUpdate (session w') = true.
Proof.
  intros S F T H.
  assert (forall w0,
             stopped (session w0) = false -> inFlight (session w0) = true ->
             calls w0 = calls w -> tasks w0 = tasks w ->
             let w1 := triggerUpdate thinkingConfig toolDisplay now w0 in
             calls w1 = calls w /\ tasks w1 = tasks w
             /\ inFlight (session w1) = true /\ pendingUpdate (session w1) = true)
    as Trig.
  { intros w0 S0 F0 C0 T0. unfold triggerUpdate. rewrite S0, F0.
    unfold schedule. simpl. rewrite S0.
    destruct (timer (session w0)); simpl; auto. }
  assert (forall w0,
             stopped (session w0) = false -> inFlight (session w0) = true ->
             calls w0 = calls w -> tasks w0 = tasks w ->
             let w1 := doFlush thinkingConfig toolDisplay now w0 in
             calls w1 = calls w /\ tasks w1 = tasks w
             /\ inFlight (session w1) = true /\ pendingUpdate (session w1) = true)
    as Fl.
  { intros w0 S0 F0 C0 T0. unfold doFlush. rewrite S0. simpl. rewrite F0.
    simpl. auto. }
  destruct e; try discriminate T; simpl in H.
  - injection H as <-. now apply Trig.
  - injection H as <-. now apply Trig.
  - injection H as <-. now apply Fl.
  - injection H as <-. now apply Trig.
  - injection H as <-. unfold toolEnd.
    destruct (JsMap.get (activeTools (session w)) id); now apply Trig.
  - destruct (timer (session w)) as [due|]; [|discriminate H].
    destruct (timeoutAt w <=? now); [|discriminate H]. injection H as <-.
    now apply Fl.
Qed.

End Dispatcher.

(** C2.  As long as the session is driven by [start], [update],
    [toolStart], [toolEnd], [flush], timer firings and the settling of its
    awaits, at most one transport call is outstanding; while one is, the
    guard [inFlight] is up, and a trigger that arrives with the guard up
    makes no call and starts no await: it only sets [pendingUpdate] (and,
    for the four mutating triggers, may arm the timer). *)
Theorem single_flight tc td tr w :
  Forall (fun te => isTerminal (snd te) = false) tr ->
  run tc td initialWorld tr = Some w ->
  (outstanding w <= 1)%nat
  /\ (outstanding w = 1%nat -> inFlight (session w) = true)
  /\ forall now e w',
      isTrigger e = true ->
      inFlight (session w) = true ->
      step tc td w now e = Some w' ->
      calls w' = calls w /\ tasks w' = tasks w
      /\ outstanding w' = outstanding w
      /\ inFlight (session w') = true
      /\ pendingUpdate (session w') = true.
Proof.
  intros F R.
  pose proof (run_flightInv tc td tr w R) as (C & _).
  assert (activeInv w) as (S & A).
  { apply (run_invariant tc td activeInv (fun e => negb (isTerminal e))
             (fun w0 now e w1 P T St =>
                step_activeInv tc td w0 now e w1 P
                  (proj1 (negb_true_iff _) T) St)
             tr initialWorld w initial_activeInv); [|exact R].
    eapply Forall_impl; [|exact F]. intros te H. simpl in H. now rewrite H. }
  pose proof (flights_bound_api (tasks w) A) as B.
  unfold outstanding.
  split; [destruct (inFlight (session w)); lia|].
  split; [destruct (inFlight (session w)); [reflexivity | lia]|].
  intros now e w' T Fl St.
  destruct (trigger_in_flight tc td w now e w' S Fl T St) as (Cw & Tw & Fw & Pw).
  rewrite Tw. auto.
Qed.

Lemma single_flight_witness :
  Forall (fun te => isTerminal (snd te) = false) firstUpdateTrace
  /\ run defaultThinking defaultTools initialWorld firstUpdateTrace = Some afterFirstUpdate
  /\ (outstanding afterFirstUpdate <= 1)%nat
  /\ forall w',
      step defaultThinking defaultTools afterFirstUpdate 1001 (Update (lit "b"))
      = Some w' ->
      calls w' = calls afterFirstUpdate
      /\ outstanding w' = outstanding afterFirstUpdate
      /\ pendingUpdate (session w') = true.
Proof.
  assert (Forall (fun te => isTerminal (snd te) = false) firstUpdateTrace) as F
      by (repeat constructor).
  assert (run defaultThinking defaultTools initialWorld firstUpdateTrace
          = Some afterFirstUpdate) as R by (vm_compute; reflexivity).
  assert (inFlight (session afterFirstUpdate) = true) as Fl
      by (vm_compute; reflexivity).
  split; [exact F|]. split; [exact R|].
  destruct (single_flight defaultThinking defaultTools firstUpdateTrace
              afterFirstUpdate F R) as (B & G & K).
  split; [exact B|]. intros w' St.
  destruct (K 1001 (Update (lit "b")) w' eq_refl Fl St) as (C & _ & O & _ & P).
  auto.
Defined.

(** Whatever the events, terminal methods included, the calls made by
    [sendOrEdit] never overlap. *)
Lemma delivery_calls_never_overlap tc td tr w :
  run tc td initialWorld tr = Some w ->
  (count isDeliveryCall (tasks w) <= 1)%nat.
Proof.
  intros R. destruct (run_flightInv tc td tr w R) as (C & _).
  assert (count isDeliveryCall (tasks w) <= count isFlight (tasks w))%nat as B.
  { generalize (tasks w). intros l. induction l as [|t l IH]; [reflexivity|].
    rewrite !count_cons. destruct t as [[| |] c|r]; simpl; lia. }
  destruct (inFlight (session w)); lia.
Qed.

(** With the terminal methods in play a second transport call can be
    outstanding: [delete] does not consult [inFlight]. *)
Lemma delete_during_flight :
  run defaultThinking defaultTools initialWorld deleteInFlightTrace
  = Some afterDeleteInFlight
  /\ outstanding afterDeleteInFlight = 2%nat.
Proof. split; vm_compute; reflexivity. Qed.

(** ** The dispatcher: spacing of the deliveries *)

Lemma deliveries_ext (w w' : World) :
  calls w' = calls w -> deliveries w' = deliveries w.
Proof. unfold deliveries. now intros ->. Qed.

Lemma spaced_cons (gap now : Z) (ts : list Z) :
  spaced gap ts ->
  (forall t, hd_error ts = Some t -> t + gap <= now) ->
  spaced gap (now :: ts).
Proof.
  intros S H. destruct ts as [|t rest]; [exact I|].
  split; [apply H; reflexivity | exact S].
Qed.

Lemma ordered_app (t0 : Z) (tr : list (Z * Event)) (now : Z) (e : Event) :
  ordered t0 (tr ++ [(now, e)]) <-> ordered t0 tr /\ lastStamp t0 tr <= now.
Proof.
  revert t0. induction tr as [|[t e0] tr IH]; intros t0; simpl.
  - tauto.
  - rewrite IH. tauto.
Qed.

Section Spacing.

Variable thinkingConfig : ThinkingConfig.
Variable toolDisplay : ToolDisplayConfig.

Hypothesis interval_kept : updateInterval thinkingConfig <= TIMEOUT_MAX.

Lemma spacingInv_ext (t0 t1 : Z) (w w' : World) :
  calls w' = calls w ->
  lastSentAt (session w') = lastSentAt (session w) ->
  timeoutAt w' = timeoutAt w ->
  (timer (session w') = timer (session w) \/ timer (session w') = None) ->
  t0 <= t1 ->
  spacingInv thinkingConfig t0 w -> spacingInv thinkingConfig t1 w'.
Proof.
  unfold spacingInv, deliveries. intros -> -> -> T Le (A & B & C).
  split; [lia|]. split; [exact B|].
  intros due D. destruct T as [T|T]; rewrite T in D.
  - auto.
  - discriminate D.
Qed.

Lemma initial_spacingInv (t0 : Z) :
  0 <= t0 -> spacingInv thinkingConfig t0 initialWorld.
Proof.
  intros Le. unfold spacingInv. simpl. split; [exact Le|].
  split; intros ? H; discriminate H.
Qed.

(** A timeout set when the clock has not gone back since the latest
    delivery gets a delay the runtime keeps. *)
Lemma schedule_spacingInv (t0 now : Z) (w : World) :
  spacingInv thinkingConfig t0 w -> t0 <= now ->
  spacingInv thinkingConfig now (schedule thinkingConfig now w)
  /\ calls (schedule thinkingConfig now w) = calls w.
Proof.
  intros Inv Le. unfold schedule.
  destruct (timer (session w)) eqn:T.
  { split; [|reflexivity]. revert Inv. apply spacingInv_ext; auto. }
  destruct (stopped (session w)).
  { split; [|reflexivity]. revert Inv. apply spacingInv_ext; auto. }
  split; [|reflexivity].
  destruct Inv as (A & B & C).
  unfold spacingInv, deliveries, timeoutTime in *. simpl.
  split; [lia|]. split; [exact B|].
  intros due D. injection D as <-. unfold timeoutTime.
  destruct (TIMEOUT_MAX <? _) eqn:G.
  - apply Z.ltb_lt in G. unfold TIMEOUT_MAX in *. lia.
  - lia.
Qed.

(** A delivery cycle, whenever it starts: if it calls the transport, the
    call is the latest delivery and bears the current time. *)
Lemma doFlush_spacingInv (t0 now : Z) (w : World) :
  spacingInv thinkingConfig t0 w -> t0 <= now ->
  spacingInv thinkingConfig now (doFlush thinkingConfig toolDisplay now w)
  /\ (deliveries (doFlush thinkingConfig toolDisplay now w) = deliveries w
      \/ deliveries (doFlush thinkingConfig toolDisplay now w) = now :: deliveries w).
Proof.
  intros Inv Le. unfold doFlush.
  destruct (stopped (session w)) eqn:S.
  { split; [|now left]. revert Inv. apply spacingInv_ext; auto. }
  simpl. destruct (inFlight (session w)).
  { split; [|now left]. revert Inv. apply spacingInv_ext; simpl; auto. }
  destruct (buildMessage _ _ _ _ _) as [content|e].
  2:{ split; [|now left]. revert Inv. apply spacingInv_ext; simpl; auto. }
  unfold sendOrEdit. simpl. rewrite S. simpl.
  destruct (Js.eqb content (lastSentContent (session w))).
  { split; [|now left]. revert Inv. apply spacingInv_ext; simpl; auto. }
  assert (forall call_ w1,
             w1 = invoke now BySendOrEdit call_
                    (onSession (set_lastSentAt now)
                       (onSession (set_lastSentContent content)
                          (onSession (set_inFlight true)
                             (onSession (set_timer None) w)))) ->
             spacingInv thinkingConfig now w1
             /\ (deliveries w1 = deliveries w \/ deliveries w1 = now :: deliveries w))
    as K.
  { intros call_ w1 ->. split; [|right; reflexivity].
    unfold spacingInv, deliveries. simpl. split; [lia|].
    split; intros ? H; [now injection H as <- | discriminate H]. }
  destruct (messageId (session w)) as [id|]; [destruct (truthyId (Some id))|];
    eapply K; reflexivity.
Qed.

(** The dispatcher starts a delivery cycle only when the interval has
    elapsed since the latest delivery. *)
Lemma triggerUpdate_spacingInv (t0 now : Z) (w : World) :
  spacingInv thinkingConfig t0 w -> t0 <= now ->
  spacingInv thinkingConfig now (triggerUpdate thinkingConfig toolDisplay now w)
  /\ (deliveries (triggerUpdate thinkingConfig toolDisplay now w) = deliveries w
      \/ (deliveries (triggerUpdate thinkingConfig toolDisplay now w)
          = now :: deliveries w
          /\ lastSentAt (session w) + updateInterval thinkingConfig <= now)).
Proof.
  intros Inv Le. unfold triggerUpdate.
  destruct (stopped (session w)).
  { split; [|now left]. revert Inv. apply spacingInv_ext; auto. }
  destruct (inFlight (session w)).
  { destruct (schedule_spacingInv t0 now (onSession (set_pendingUpdate true) w))
      as (I1 & C1); [|exact Le|].
    - revert Inv. apply spacingInv_ext; simpl; auto. lia.
    - split; [exact I1|]. left. now apply deliveries_ext. }
  destruct (timer (session w)).
  { destruct (schedule_spacingInv t0 now w Inv Le) as (I1 & C1).
    split; [exact I1|]. left. now apply deliveries_ext. }
  destruct (_ >=? _) eqn:G.
  - destruct (doFlush_spacingInv t0 now w Inv Le) as (I1 & [D|D]).
    + split; [exact I1 | now left].
    + split; [exact I1|]. right. split; [exact D|].
      apply Z.geb_le in G. lia.
  - destruct (schedule_spacingInv t0 now w Inv Le) as (I1 & C1).
    split; [exact I1|]. left. now apply deliveries_ext.
Qed.

(** One event, [flush] included: the invariant is kept, and a delivery call
    made by an event other than [flush] comes no earlier than the interval
    after the latest delivery. *)
Lemma step_spacingInv (t0 : Z) (w : World) (now : Z) (e : Event) (w' : World) :
  spacingInv thinkingConfig t0 w -> t0 <= now ->
  step thinkingConfig toolDisplay w now e = Some w' ->
  spacingInv thinkingConfig now w'
  /\ (isFlush e = false ->
      deliveries w' = deliveries w
      \/ (deliveries w' = now :: deliveries w
          /\ lastSentAt (session w) + updateInterval thinkingConfig <= now)).
Proof.
  intros Inv Le H.
  assert (forall w0,
             triggerUpdate thinkingConfig toolDisplay now w0 = w' ->
             calls w0 = calls w ->
             lastSentAt (session w0) = lastSentAt (session w) ->
             timeoutAt w0 = timeoutAt w ->
             (timer (session w0) = timer (session w) \/ timer (session w0) = None) ->
             spacingInv thinkingConfig now w'
             /\ (isFlush e = false ->
                 deliveries w' = deliveries w
                 \/ (deliveries w' = now :: deliveries w
                     /\ lastSentAt (session w) + updateInterval thinkingConfig <= now)))
    as Tr.
  { intros w0 <- C0 L0 A0 T0.
    assert (spacingInv thinkingConfig t0 w0) as Inv0
        by (revert Inv; apply spacingInv_ext; auto; lia).
    destruct (triggerUpdate_spacingInv t0 now w0 Inv0 Le) as (I1 & D).
    rewrite (deliveries_ext w w0 C0), L0 in D. split; [exact I1 | intros _; exact D]. }
  assert (forall w0,
             w0 = w' ->
             calls w0 = calls w ->
             lastSentAt (session w0) = lastSentAt (session w) ->
             timeoutAt w0 = timeoutAt w ->
             (timer (session w0) = timer (session w) \/ timer (session w0) = None) ->
             spacingInv thinkingConfig now w'
             /\ (isFlush e = false ->
                 deliveries w' = deliveries w
                 \/ (deliveries w' = now :: deliveries w
                     /\ lastSentAt (session w) + updateInterval thinkingConfig <= now)))
    as Same.
  { intros w0 <- C0 L0 A0 T0. split.
    - revert Inv. apply spacingInv_ext; auto.
    - intros _. left. now apply deliveries_ext. }
  assert (forall who c,
             who <> BySendOrEdit ->
             invoke now who c
               (onSession (set_timer None) (onSession (set_stopped true) w)) = w' ->
             spacingInv thinkingConfig now w'
             /\ (isFlush e = false ->
                 deliveries w' = deliveries w
                 \/ (deliveries w' = now :: deliveries w
                     /\ lastSentAt (session w) + updateInterval thinkingConfig <= now)))
    as Other.
  { intros who c Nw <-.
    assert (deliveries
              (invoke now who c
                 (onSession (set_timer None) (onSession (set_stopped true) w)))
            = deliveries w) as D.
    { unfold deliveries. simpl. unfold isDelivery at 1. simpl.
      destruct who; [contradiction | reflexivity | reflexivity]. }
    split; [|intros _; now left].
    destruct Inv as (A & B & C). unfold spacingInv. rewrite D. simpl.
    split; [lia|]. split; [exact B|]. intros ? T. discriminate T. }
  destruct e; simpl in H.
  - injection H as H. apply (Tr w); auto.
  - injection H as H. eapply Tr; [exact H| | | |]; simpl; auto.
  - injection H as <-. unfold flush.
    destruct (doFlush_spacingInv t0 now w Inv Le) as (I1 & _).
    split; [exact I1 | discriminate].
  - injection H as H. eapply Same; [exact H| | | |]; simpl; auto.
  - injection H as H. unfold delete in H. simpl in H.
    destruct (messageId (session w)) as [id|]; [destruct (truthyId (Some id))|];
      try (eapply Same; [exact H| | | |]; simpl; auto; fail).
    eapply Other; [|exact H]. discriminate.
  - injection H as H. unfold collapse in H. simpl in H.
    destruct (messageId (session w)) as [id|]; [destruct (truthyId (Some id))|];
      try (eapply Same; [exact H| | | |]; simpl; auto; fail).
    eapply Other; [|exact H]. discriminate.
  - injection H as H. eapply Tr; [exact H| | | |]; simpl; auto.
  - injection H as H. unfold toolEnd in H.
    destruct (JsMap.get (activeTools (session w)) id);
      (eapply Tr; [exact H| | | |]; simpl; auto).
  - destruct (timer (session w)) as [due|] eqn:Tm; [|discriminate H].
    destruct (timeoutAt w <=? now) eqn:Due; [|discriminate H]. injection H as <-.
    apply Z.leb_le in Due.
    assert (lastSentAt (session w) + updateInterval thinkingConfig <= now) as Ld.
    { destruct Inv as (_ & _ & C). destruct (C due Tm) as (At & Ld). lia. }
    unfold timerCallback.
    destruct (doFlush_spacingInv t0 now (onSession (set_timer None) w))
      as (I1 & D); [|exact Le|].
    { revert Inv. apply spacingInv_ext; simpl; auto. lia. }
    split; [exact I1|]. intros _.
    change (deliveries (onSession (set_timer None) w)) with (deliveries w) in D.
    destruct D as [D|D]; [now left | right; split; [exact D | exact Ld]].
  - destruct (nth_error (tasks w) i) as [[who c|r0]|] eqn:N; try discriminate H.
    destruct who.
    + destruct (sendOrEdit_settled c r w) as [w1 r1] eqn:E.
      injection H as H.
      assert (calls w1 = calls w /\ lastSentAt (session w1) = lastSentAt (session w)
              /\ timer (session w1) = timer (session w)
              /\ timeoutAt w1 = timeoutAt w)
        as (C1 & L1 & T1 & A1).
      { unfold sendOrEdit_settled in E.
        destruct r; [destruct c|]; injection E as <- _; simpl; auto. }
      eapply Same; [exact H| | | |]; simpl; auto.
    + injection H as H. unfold delete_settled in H.
      destruct r; (eapply Same; [exact H| | | |]; simpl; auto).
    + injection H as H. unfold collapse_settled in H.
      destruct r; (eapply Same; [exact H| | | |]; simpl; auto).
  - destruct (nth_error (tasks w) i) as [[who c|r0]|] eqn:N; try discriminate H.
    injection H as H. unfold doFlush_resumed in H.
    destruct r0 as [u|err].
    + simpl in H. destruct (pendingUpdate (session w)).
      * destruct (schedule_spacingInv t0 now
                    (onSession (set_pendingUpdate false)
                       (onSession (set_inFlight false)
                          (set_tasks (removeAt i (tasks w)) w))))
          as (I1 & C1); [|exact Le|].
        { revert Inv. apply spacingInv_ext; simpl; auto. lia. }
        rewrite H in I1, C1. split; [exact I1|]. intros _. left.
        apply deliveries_ext. exact C1.
      * eapply Same; [exact H| | | |]; simpl; auto.
    + eapply Same; [exact H| | | |]; simpl; auto.
Qed.

Lemma run_spacingInv (tr : list (Z * Event)) :
  forall t0 w w',
    spacingInv thinkingConfig t0 w -> ordered t0 tr ->
    run thinkingConfig toolDisplay w tr = Some w' ->
    spacingInv thinkingConfig (lastStamp t0 tr) w'.
Proof.
  induction tr as [|[now e] tr IH]; intros t0 w w' Inv O R; simpl in *.
  - now injection R as <-.
  - destruct (step thinkingConfig toolDisplay w now e) as [w1|] eqn:S;
      [|discriminate R].
    destruct O as (Le & O).
    apply (IH now w1 w'); [|exact O|exact R].
    exact (proj1 (step_spacingInv t0 w now e w1 Inv Le S)).
Qed.

(** Without [flush], all the deliveries of a run are spaced. *)
Lemma spaced_without_flush (tr : list (Z * Event)) :
  forall t0 w w',
    spacingInv thinkingConfig t0 w -> ordered t0 tr ->
    Forall (fun te => isFlush (snd te) = false) tr ->
    spaced (updateInterval thinkingConfig) (deliveries w) ->
    run thinkingConfig toolDisplay w tr = Some w' ->
    spaced (updateInterval thinkingConfig) (deliveries w').
Proof.
  induction tr as [|[now e] tr IH]; intros t0 w w' Inv O F Sp R; simpl in *.
  - now injection R as <-.
  - destruct (step thinkingConfig toolDisplay w now e) as [w1|] eqn:S;
      [|discriminate R].
    destruct O as (Le & O). inversion F as [|? ? Fe F']; subst.
    destruct (step_spacingInv t0 w now e w1 Inv Le S) as (I1 & D).
    apply (IH now w1 w'); auto.
    destruct (D Fe) as [->|(-> & G)]; [exact Sp|].
    apply spaced_cons; [exact Sp|].
    intros t Ht. destruct Inv as (_ & B & _). rewrite <- (B t Ht). exact G.
Qed.

End Spacing.

(** C3 as stated fails: [flush] starts a delivery cycle without looking at
    the time of the previous one. *)
Lemma flush_ignores_interval :
  run defaultThinking defaultTools initialWorld flushTrace = Some afterFlush
  /\ updateInterval defaultThinking = 800
  /\ deliveries afterFlush = [1003; 1000]
  /\ ~ spaced (updateInterval defaultThinking) (deliveries afterFlush).
Proof.
  split; [vm_compute; reflexivity|]. split; [reflexivity|].
  split; [vm_compute; reflexivity|].
  assert (deliveries afterFlush = [1003; 1000]) as -> by (vm_compute; reflexivity).
  unfold updateInterval. simpl. lia.
Qed.

(** C3 also fails, without [flush], for an interval the runtime does not
    keep: with [updateInterval = 3000000000] the delay asked for 9 ms
    after a delivery is above [TIMEOUT_MAX], the runtime waits 1 ms
    instead, and the next delivery is 10 ms after the previous one. *)
Lemma oversized_interval_not_kept :
  run oversizedInterval defaultTools initialWorld oversizedTrace = Some afterOversized
  /\ Forall (fun te => isFlush (snd te) = false) oversizedTrace
  /\ ordered 0 oversizedTrace
  /\ updateInterval oversizedInterval = 3000000000
  /\ deliveries afterOversized = [1700000000010; 1700000000000]
  /\ ~ spaced (updateInterval oversizedInterval) (deliveries afterOversized).
Proof.
  split; [vm_compute; reflexivity|]. split; [repeat constructor|].
  split; [simpl; lia|]. split; [reflexivity|].
  split; [vm_compute; reflexivity|].
  assert (deliveries afterOversized = [1700000000010; 1700000000000]) as ->
      by (vm_compute; reflexivity).
  unfold updateInterval. simpl. lia.
Qed.

(** And for a clock that is set back: the time since the latest delivery
    is then negative, the delay asked for is above [TIMEOUT_MAX] even with
    the default interval, and the next delivery bears an earlier time than
    the previous one. *)
Lemma clock_set_back_not_kept :
  run defaultThinking defaultTools initialWorld clockSetBackTrace
  = Some afterClockSetBack
  /\ Forall (fun te => isFlush (snd te) = false) clockSetBackTrace
  /\ updateInterval defaultThinking <= TIMEOUT_MAX
  /\ ~ ordered 0 clockSetBackTrace
  /\ deliveries afterClockSetBack = [1697000000001; 1700000000000]
  /\ ~ spaced (updateInterval defaultThinking) (deliveries afterClockSetBack).
Proof.
  split; [vm_compute; reflexivity|]. split; [repeat constructor|].
  split; [vm_compute; discriminate|].
  split; [simpl; lia|].
  split; [vm_compute; reflexivity|].
  assert (deliveries afterClockSetBack = [1697000000001; 1700000000000]) as ->
      by (vm_compute; reflexivity).
  unfold updateInterval. simpl. lia.
Qed.

(** C3, amended.  Whatever was called before, [flush] included, a delivery
    call made by an event other than [flush] (a call of [start], [update],
    [toolStart] or [toolEnd], or the timeout) comes at least the update
    interval after the previous delivery call; the first delivery has no
    predecessor and may happen at once.  Only the delivery that [flush]
    itself starts is exempt.  This holds for an interval of at most
    [TIMEOUT_MAX] = 2147483647 ms and a clock that never goes back: the
    times are the values of [Date.now()] at the events, they start at 0 or
    later and never decrease, and the runtime runs the callback of a
    timeout no earlier than the delay it keeps. *)
Theorem delivery_spacing tc td tr w now e w' :
  updateInterval tc <= TIMEOUT_MAX ->
  ordered 0 (tr ++ [(now, e)]) ->
  run tc td initialWorld tr = Some w ->
  isFlush e = false ->
  step tc td w now e = Some w' ->
  deliveries w' = deliveries w
  \/ (deliveries w' = now :: deliveries w
      /\ forall t, hd_error (deliveries w) = Some t -> t + updateInterval tc <= now).
Proof.
  intros K O R F S. apply ordered_app in O as (O & Le).
  assert (spacingInv tc (lastStamp 0 tr) w) as Inv.
  { apply (run_spacingInv tc td K tr 0 initialWorld w); auto.
    apply initial_spacingInv. lia. }
  destruct (step_spacingInv tc td K _ w now e w' Inv Le S) as (_ & D).
  destruct (D F) as [E|(E & G)]; [now left|]. right. split; [exact E|].
  intros t Ht. destruct Inv as (_ & B & _). rewrite <- (B t Ht). exact G.
Qed.

Lemma delivery_spacing_witness :
  updateInterval defaultThinking <= TIMEOUT_MAX
  /\ ordered 0 (armedAfterFlushTrace ++ [(1803, TimerFires)])
  /\ In (1003, Flush) armedAfterFlushTrace
  /\ run defaultThinking defaultTools initialWorld armedAfterFlushTrace
     = Some armedAfterFlush
  /\ step defaultThinking defaultTools armedAfterFlush 1803 TimerFires
     = Some afterArmedTimeout
  /\ deliveries armedAfterFlush = [1003; 1000]
  /\ deliveries afterArmedTimeout = [1803; 1003; 1000]
  /\ (deliveries afterArmedTimeout = deliveries armedAfterFlush
      \/ (deliveries afterArmedTimeout = 1803 :: deliveries armedAfterFlush
          /\ forall t, hd_error (deliveries armedAfterFlush) = Some t ->
                       t + updateInterval defaultThinking <= 1803)).
Proof.
  assert (updateInterval defaultThinking <= TIMEOUT_MAX) as K
      by (vm_compute; discriminate).
  assert (ordered 0 (armedAfterFlushTrace ++ [(1803, TimerFires)])) as O
      by (simpl; lia).
  assert (run defaultThinking defaultTools initialWorld armedAfterFlushTrace
          = Some armedAfterFlush) as R by (vm_compute; reflexivity).
  assert (step defaultThinking defaultTools armedAfterFlush 1803 TimerFires
          = Some afterArmedTimeout) as S by (vm_compute; reflexivity).
  split; [exact K|]. split; [exact O|].
  split; [simpl; tauto|].
  split; [exact R|]. split; [exact S|].
  split; [vm_compute; reflexivity|]. split; [vm_compute; reflexivity|].
  exact (delivery_spacing defaultThinking defaultTools armedAfterFlushTrace
           armedAfterFlush 1803 TimerFires afterArmedTimeout K O R eq_refl S).
Defined.


(** * Further properties of the renderer *)

(** ** escapeHtml *)

Lemma replaceAll_app c by_ (a b : jsstring) :
  replaceAll c by_ (a ++ b) = replaceAll c by_ a ++ replaceAll c by_ b.
Proof. unfold replaceAll. apply flat_map_app. Qed.

Lemma escapeHtml_app (a b : jsstring) :
  escapeHtml (a ++ b) = escapeHtml a ++ escapeHtml b.
Proof. unfold escapeHtml. now rewrite !replaceAll_app. Qed.

Lemma escapeHtml_cons (c : char16) (s : jsstring) :
  escapeHtml (c :: s) = escapeUnit c ++ escapeHtml s.
Proof.
  change (c :: s) with ([c] ++ s). rewrite escapeHtml_app. f_equal.
  unfold escapeHtml, escapeUnit, replaceAll. simpl.
  destruct (N.eqb c 38) eqn:E38; [reflexivity|]. simpl.
  destruct (N.eqb c 60) eqn:E60; [reflexivity|]. simpl.
  destruct (N.eqb c 62) eqn:E62; reflexivity.
Qed.

(** X1.  The three replacements of [escapeHtml], made one after the
    other, amount to replacing each code unit once: the ampersand of an
    inserted entity is not escaped again.  The result holds no [<] and no
    [>]. *)
Theorem escapeHtml_one_pass (s : jsstring) :
  escapeHtml s = flat_map escapeUnit s
  /\ Forall (fun c => c <> 60%N /\ c <> 62%N) (escapeHtml s).
Proof.
  assert (escapeHtml s = flat_map escapeUnit s) as E.
  { induction s as [|c s IH]; [reflexivity|].
    rewrite escapeHtml_cons, IH. reflexivity. }
  split; [exact E|]. rewrite E. clear E.
  induction s as [|c s IH]; [constructor|].
  simpl. apply Forall_app. split; [|exact IH].
  unfold escapeUnit.
  destruct (N.eqb c 38) eqn:E38; [repeat constructor; discriminate|].
  destruct (N.eqb c 60) eqn:E60; [repeat constructor; discriminate|].
  destruct (N.eqb c 62) eqn:E62; [repeat constructor; discriminate|].
  apply N.eqb_neq in E60, E62. repeat constructor; assumption.
Qed.

Lemma escapeUnit_cancel (c d : char16) (x y : jsstring) :
  escapeUnit c ++ x = escapeUnit d ++ y -> c = d /\ x = y.
Proof.
  unfold escapeUnit.
  destruct (N.eqb c 38) eqn:C38; [apply N.eqb_eq in C38|apply N.eqb_neq in C38];
  [|destruct (N.eqb c 60) eqn:C60; [apply N.eqb_eq in C60|apply N.eqb_neq in C60];
    [|destruct (N.eqb c 62) eqn:C62; [apply N.eqb_eq in C62|apply N.eqb_neq in C62]]];
  (destruct (N.eqb d 38) eqn:D38; [apply N.eqb_eq in D38|apply N.eqb_neq in D38];
   [|destruct (N.eqb d 60) eqn:D60; [apply N.eqb_eq in D60|apply N.eqb_neq in D60];
     [|destruct (N.eqb d 62) eqn:D62; [apply N.eqb_eq in D62|apply N.eqb_neq in D62]]]);
  simpl; intros H; subst; try discriminate H;
  try (injection H as H; split; congruence);
  try (injection H as H1 H2; congruence).
Qed.

(** X2.  [escapeHtml] loses nothing: two texts with the same escaped form
    are the same text. *)
Theorem escapeHtml_injective (a b : jsstring) :
  escapeHtml a = escapeHtml b -> a = b.
Proof.
  revert b. induction a as [|c a IH]; intros [|d b] H.
  - reflexivity.
  - rewrite escapeHtml_cons in H. unfold escapeUnit in H.
    destruct (N.eqb d 38); [discriminate H|].
    destruct (N.eqb d 60); [discriminate H|].
    destruct (N.eqb d 62); discriminate H.
  - rewrite escapeHtml_cons in H. unfold escapeUnit in H.
    destruct (N.eqb c 38); [discriminate H|].
    destruct (N.eqb c 60); [discriminate H|].
    destruct (N.eqb c 62); discriminate H.
  - rewrite !escapeHtml_cons in H. apply escapeUnit_cancel in H as [-> H].
    f_equal. now apply IH.
Qed.

Lemma escapeHtml_injective_witness :
  escapeHtml (lit "a<b&c") = escapeHtml ([97%N] ++ lit "<b&c")
  /\ lit "a<b&c" = [97%N] ++ lit "<b&c".
Proof.
  assert (escapeHtml (lit "a<b&c") = escapeHtml ([97%N] ++ lit "<b&c")) as H
      by (vm_compute; reflexivity).
  split; [exact H|]. exact (escapeHtml_injective _ _ H).
Defined.

(** ** extractToolArgs *)

Lemma clip_len (t : jsstring) (maxLen : Z) :
  0 <= maxLen -> Js.len (clip t maxLen) <= maxLen + 1.
Proof.
  intros H. unfold clip. destruct (Js.len t >? maxLen) eqn:E.
  - rewrite slice_prefix by exact H. rewrite len_app. unfold Js.len.
    rewrite length_firstn. change (length ellipsis) with 1%nat. lia.
  - rewrite Z.gtb_ltb in E. apply Z.ltb_ge in E. lia.
Qed.

Lemma find_app {A : Type} (p : A -> bool) (l1 l2 : list A) :
  find p (l1 ++ l2) = match find p l1 with
                      | Some x => Some x
                      | None => find p l2
                      end.
Proof.
  induction l1 as [|x l1 IH]; [reflexivity|]. simpl. now destruct (p x).
Qed.

Lemma keysLoop_find (keys : list jsstring) (a : Args) (maxLen : Z) :
  keysLoop keys a maxLen
  = match find shown (flat_map (fun key => match getProp a key with
                                           | Some v => [v]
                                           | None => []
                                           end) keys) with
    | Some (VString v) => Some (clip (trim v) maxLen)
    | _ => None
    end.
Proof.
  induction keys as [|key keys IH]; [reflexivity|]. simpl.
  destruct (getProp a key) as [[val|]|]; simpl; try exact IH.
  destruct (truthy (trim val)); [reflexivity | exact IH].
Qed.

Lemma valuesLoop_find (vals : list JsValue) (maxLen : Z) :
  valuesLoop vals maxLen = firstShown vals maxLen.
Proof.
  unfold firstShown. induction vals as [|[val|] vals IH]; [reflexivity| |exact IH].
  simpl. destruct (truthy (trim val)); [reflexivity | exact IH].
Qed.

Lemma firstShown_len (vals : list JsValue) (maxLen : Z) :
  0 <= maxLen -> Js.len (firstShown vals maxLen) <= maxLen + 1.
Proof.
  intros H. unfold firstShown. destruct (find shown vals) as [[v|]|].
  - now apply clip_len.
  - unfold Js.len. simpl. lia.
  - unfold Js.len. simpl. lia.
Qed.

Lemma inherited_iff (key : jsstring) :
  TOOL_ARG_EXTRACTORS key = Inherited
  <-> key = lit "constructor" \/ key = lit "__proto__".
Proof.
  unfold TOOL_ARG_EXTRACTORS. split.
  - repeat match goal with
      | |- context [if Js.eqb key ?l then _ else _] =>
          destruct (Js.eqb key l) eqn:?; try discriminate
      end.
    + intros _. left. now apply eqb_eq.
    + intros _. right. now apply eqb_eq.
  - intros [->| ->]; reflexivity.
Qed.

(** X5.  [extractToolArgs] raises in one case only: the arguments are
    present and the lower-cased tool name is [constructor] or
    [__proto__], for which the look-up in the extractor table finds an
    inherited property that cannot be iterated.  What it raises is a
    [TypeError]. *)
Theorem extractToolArgs_raises (name_ : jsstring) (args_ : option Args)
  (maxLen : Z) (e : JsError) :
  extractToolArgs name_ args_ maxLen = Throw e
  <-> e = TypeError
      /\ args_ <> None
      /\ (toLowerCase name_ = lit "constructor"
          \/ toLowerCase name_ = lit "__proto__").
Proof.
  unfold extractToolArgs. split.
  - destruct args_ as [a|]; [|discriminate].
    destruct (TOOL_ARG_EXTRACTORS (toLowerCase name_)) as [keys| |] eqn:T.
    + destruct (keysLoop keys a maxLen); discriminate.
    + intros H. injection H as <-. split; [reflexivity|].
      split; [discriminate|]. now apply inherited_iff.
    + discriminate.
  - intros (-> & A & I). destruct args_ as [a|]; [|contradiction].
    apply inherited_iff in I. now rewrite I.
Qed.

Lemma extractToolArgs_raises_witness :
  extractToolArgs (lit "Constructor") (Some [(lit "path", VString (lit "/a"))]) 150
  = Throw TypeError.
Proof.
  apply extractToolArgs_raises. split; [reflexivity|].
  split; [discriminate|]. left. vm_compute. reflexivity.
Defined.

Lemma extractToolArgs_candidates (name_ : jsstring) (a : Args) (maxLen : Z) :
  ~ inheritedName name_ ->
  extractToolArgs name_ (Some a) maxLen
  = Ok (firstShown (candidates (configuredKeys name_) a) maxLen).
Proof.
  unfold inheritedName, extractToolArgs, configuredKeys, candidates. intros NI.
  destruct (TOOL_ARG_EXTRACTORS (toLowerCase name_)) as [keys| |].
  - rewrite keysLoop_find, valuesLoop_find. unfold firstShown at 2.
    rewrite find_app.
    destruct (find shown (flat_map _ keys)) as [[v|]|] eqn:F; try reflexivity.
    apply find_some in F as [_ F]. discriminate F.
  - contradiction.
  - simpl. now rewrite valuesLoop_find.
Qed.

(** X6.  When it does not raise, [extractToolArgs] returns the first
    candidate that is a non-blank string, trimmed and clipped to the
    maximum length, and the empty string when there is none.  The
    candidates are the values of the keys configured for the tool, in
    the configured order, followed by all values of the arguments in
    their own order: a configured key wins over the position of the
    properties. *)
Theorem extractToolArgs_first_candidate (name_ : jsstring) (a : Args) (maxLen : Z) :
  ~ inheritedName name_ ->
  extractToolArgs name_ (Some a) maxLen
  = Ok (firstShown (candidates (configuredKeys name_) a) maxLen).
Proof. apply extractToolArgs_candidates. Qed.

Lemma extractToolArgs_first_candidate_witness :
  ~ inheritedName (lit "Search")
  /\ extractToolArgs (lit "Search") (Some searchArgs) 150 = Ok (lit "*.ts").
Proof.
  assert (~ inheritedName (lit "Search")) as NI by (vm_compute; discriminate).
  split; [exact NI|].
  rewrite (extractToolArgs_first_candidate (lit "Search") searchArgs 150 NI).
  vm_compute. reflexivity.
Defined.

(** X3.  The argument string never exceeds the configured maximum by more
    than the ellipsis: with a maximum [maxLen >= 0] it has at most
    [maxLen + 1] code units. *)
Theorem extractToolArgs_bounded (name_ : jsstring) (args_ : option Args)
  (maxLen : Z) (r : jsstring) :
  0 <= maxLen ->
  extractToolArgs name_ args_ maxLen = Ok r ->
  Js.len r <= maxLen + 1.
Proof.
  intros Hm H. destruct args_ as [a|].
  - destruct (TOOL_ARG_EXTRACTORS (toLowerCase name_)) as [keys| |] eqn:T.
    + rewrite extractToolArgs_candidates in H
        by (unfold inheritedName; rewrite T; discriminate).
      injection H as <-. now apply firstShown_len.
    + unfold extractToolArgs in H. rewrite T in H. discriminate H.
    + rewrite extractToolArgs_candidates in H
        by (unfold inheritedName; rewrite T; discriminate).
      injection H as <-. now apply firstShown_len.
  - injection H as <-. unfold Js.len. simpl. lia.
Qed.

Lemma extractToolArgs_bounded_witness :
  extractToolArgs (lit "bash")
    (Some [(lit "command", VString (repeat 120%N 400))]) 150
  = Ok (repeat 120%N 150 ++ ellipsis)
  /\ Js.len (repeat 120%N 150 ++ ellipsis) <= 150 + 1.
Proof.
  assert (extractToolArgs (lit "bash")
            (Some [(lit "command", VString (repeat 120%N 400))]) 150
          = Ok (repeat 120%N 150 ++ ellipsis)) as H by (vm_compute; reflexivity).
  split; [exact H|].
  apply (extractToolArgs_bounded (lit "bash")
           (Some [(lit "command", VString (repeat 120%N 400))]) 150).
  - lia.
  - exact H.
Defined.

Lemma lowerUnit_idempotent (c : char16) : lowerUnit (lowerUnit c) = lowerUnit c.
Proof.
  unfold lowerUnit.
  destruct (N.leb 65 c && N.leb c 90)%bool eqn:U.
  - apply andb_true_iff in U as [U1 U2].
    apply N.leb_le in U1, U2.
    assert ((N.leb 65 (c + 32) && N.leb (c + 32) 90)%bool = false) as ->.
    { apply andb_false_iff. right. apply N.leb_gt. lia. }
    assert (N.eqb (c + 32) 8490 = false) as -> by (apply N.eqb_neq; lia).
    reflexivity.
  - destruct (N.eqb c 8490) eqn:K.
    + reflexivity.
    + now rewrite U, K.
Qed.

(** X4.  The tool name is matched without regard to case: a name and its
    lower-cased form give the same argument string. *)
Theorem extractToolArgs_ignores_case (name_ : jsstring) (args_ : option Args)
  (maxLen : Z) :
  extractToolArgs (toLowerCase name_) args_ maxLen
  = extractToolArgs name_ args_ maxLen.
Proof.
  unfold extractToolArgs.
  assert (toLowerCase (toLowerCase name_) = toLowerCase name_) as ->.
  { unfold toLowerCase. rewrite map_map. apply map_ext.
    intros c. apply lowerUnit_idempotent. }
  reflexivity.
Qed.

(** ** buildMessage *)

Lemma toolLine_nonempty icon toolDisplay name_ args_ l :
  icon <> [] ->
  toolLine icon toolDisplay name_ args_ = Ok l -> l <> [].
Proof.
  intros I. unfold toolLine.
  destruct (argStr toolDisplay name_ args_) as [a|e]; simpl; [|discriminate].
  intros H. injection H as <-.
  destruct icon; [contradiction|]. destruct (truthy a); discriminate.
Qed.

Lemma completedLine_nonempty toolDisplay c l :
  completedLine toolDisplay c = Ok l -> l <> [].
Proof.
  unfold completedLine. apply toolLine_nonempty. destruct (failed c); discriminate.
Qed.

Lemma activeLine_nonempty toolDisplay t l :
  activeLine toolDisplay t = Ok l -> l <> [].
Proof. unfold activeLine. apply toolLine_nonempty. discriminate. Qed.

Lemma thinkingParts_head thinkingText_ maxLength_ :
  thinkingParts thinkingText_ maxLength_ = []
  \/ exists p rest, thinkingParts thinkingText_ maxLength_ = p :: rest /\ p <> [].
Proof.
  unfold thinkingParts. destruct thinkingText_ as [text|]; [|now left].
  destruct (truthy text); [|now left].
  right. eexists. eexists. split; [reflexivity|]. discriminate.
Qed.

(** The first part is never the empty string. *)
Lemma buildParts_head thinkingText_ activeTools_ completedTools_ toolDisplay
  maxLength_ parts :
  buildParts thinkingText_ activeTools_ completedTools_ toolDisplay maxLength_
  = Ok parts ->
  exists p rest, parts = p :: rest /\ p <> [].
Proof.
  intros B.
  pose proof (buildParts_spec thinkingText_ activeTools_ completedTools_
                toolDisplay maxLength_) as H.
  rewrite B in H.
  assert (exists p rest,
             preamble thinkingText_ maxLength_ false = p :: rest /\ p <> [])
    as NoTools.
  { unfold preamble.
    destruct (thinkingParts_head thinkingText_ maxLength_) as [E|(p & rest & E & N)];
      rewrite E.
    - eexists. eexists. split; [reflexivity | discriminate].
    - eauto. }
  destruct (isnt_false (enabled toolDisplay)).
  - destruct H as (cl & al & -> & Fc & Fa).
    destruct (anyTool activeTools_ completedTools_) eqn:T.
    + unfold preamble.
      destruct (thinkingParts_head thinkingText_ maxLength_) as [E|(p & rest & E & N)];
        rewrite E.
      * simpl. destruct cl as [|l cl].
        -- destruct al as [|l al].
           ++ exfalso. apply Forall2_length_eq in Fc, Fa.
              rewrite lastN_length in Fc. unfold JsMap.values in Fa.
              rewrite length_map in Fa.
              destruct activeTools_, completedTools_; simpl in *;
                try discriminate; lia.
           ++ inversion Fa; subst. eexists. eexists.
              split; [reflexivity|]. eapply activeLine_nonempty; eauto.
        -- inversion Fc; subst. eexists. eexists.
           split; [reflexivity|]. eapply completedLine_nonempty; eauto.
      * exists p. eexists. split; [reflexivity | exact N].
    + destruct activeTools_, completedTools_; try discriminate T.
      inversion Fc; subst. inversion Fa; subst. rewrite !app_nil_r.
      exact NoTools.
  - subst parts. exact NoTools.
Qed.

Lemma join_nonempty (sep p : jsstring) (rest : list jsstring) :
  p <> [] -> join sep (p :: rest) <> [].
Proof.
  intros N. simpl. destruct rest; [exact N|].
  destruct p; [contradiction | discriminate].
Qed.

Lemma cap_nonempty (s : jsstring) : s <> [] -> cap s <> [].
Proof.
  intros N. destruct (cap_spec s) as [E _]. rewrite E.
  destruct (Js.len s >? 4096); [|exact N].
  intros H. apply app_eq_nil in H as [_ H]. discriminate H.
Qed.

Lemma buildMessage_bounds thinkingText_ activeTools_ completedTools_
  toolDisplay maxLength_ r :
  buildMessage thinkingText_ activeTools_ completedTools_ toolDisplay maxLength_
  = Ok r ->
  r <> [] /\ 1 <= Js.len r <= 4096.
Proof.
  unfold buildMessage. intros H.
  destruct (buildParts thinkingText_ activeTools_ completedTools_ toolDisplay
              maxLength_) as [parts|e] eqn:B; [|discriminate H].
  simpl in H. injection H as <-.
  destruct (buildParts_head _ _ _ _ _ _ B) as (p & rest & -> & N).
  assert (cap (join (lit (String (ascii_of_nat 10) EmptyString)) (p :: rest)) <> [])
    as NE by (apply cap_nonempty, join_nonempty, N).
  split; [exact NE|]. split.
  - destruct (cap _); [contradiction|]. unfold Js.len. simpl length. lia.
  - apply cap_spec.
Qed.

(** X7.  [buildMessage] never returns the empty string: there is always a
    heading, a tool line or the placeholder. *)
Theorem buildMessage_nonempty thinkingText_ activeTools_ completedTools_
  toolDisplay maxLength_ r :
  buildMessage thinkingText_ activeTools_ completedTools_ toolDisplay maxLength_
  = Ok r ->
  r <> [] /\ 1 <= Js.len r <= 4096.
Proof. apply buildMessage_bounds. Qed.

Lemma buildMessage_nonempty_witness :
  buildMessage None [] [] defaultTools 3800 = Ok placeholder
  /\ placeholder <> [].
Proof.
  assert (buildMessage None [] [] defaultTools 3800 = Ok placeholder) as H
      by (vm_compute; reflexivity).
  split; [exact H|].
  exact (proj1 (buildMessage_nonempty None [] [] defaultTools 3800 placeholder H)).
Defined.

(** X9.  [buildMessage] returns a text whenever arguments are not shown,
    or no completed and no active tool is named after a property of
    [Object.prototype]. *)
Theorem buildMessage_returns thinkingText_ activeTools_ completedTools_
  toolDisplay maxLength_ :
  isnt_false (showArgs toolDisplay) = false
  \/ ((forall c, In c completedTools_ -> ~ inheritedName (c_name c))
      /\ (forall t, In t (JsMap.values activeTools_) -> ~ inheritedName (name t))) ->
  exists r,
    buildMessage thinkingText_ activeTools_ completedTools_ toolDisplay maxLength_
    = Ok r.
Proof.
  intros H.
  pose proof (buildParts_spec thinkingText_ activeTools_ completedTools_
                toolDisplay maxLength_) as S.
  unfold buildMessage.
  destruct (buildParts thinkingText_ activeTools_ completedTools_ toolDisplay
              maxLength_) as [parts|e].
  - simpl. eauto.
  - exfalso. destruct S as (_ & SA & [(c & Ic & Nc)|(t & It & Nt)]);
      destruct H as [H|[Hc Ht]]; try congruence.
    + exact (Hc c Ic Nc).
    + exact (Ht t It Nt).
Qed.

Lemma buildMessage_returns_witness :
  exists r,
    buildMessage (Some (lit "hm")) sampleActive twelveCompleted defaultTools 3800
    = Ok r.
Proof.
  apply buildMessage_returns. right. split.
  - intros c I. unfold twelveCompleted in I. apply in_map_iff in I as (n & <- & _).
    vm_compute. discriminate.
  - intros t I. unfold sampleActive in I. simpl in I.
    destruct I as [<-|[<-|[]]]; vm_compute; discriminate.
Defined.

(** X8.  With tool display disabled the tools do not reach the message:
    the text is the one of a session without tools, and rendering cannot
    raise. *)
Theorem buildMessage_tools_disabled thinkingText_ activeTools_ completedTools_
  toolDisplay maxLength_ :
  enabled toolDisplay = Some false ->
  buildMessage thinkingText_ activeTools_ completedTools_ toolDisplay maxLength_
  = buildMessage thinkingText_ [] [] toolDisplay maxLength_
  /\ exists r,
      buildMessage thinkingText_ activeTools_ completedTools_ toolDisplay maxLength_
      = Ok r.
Proof.
  intros H.
  assert (forall a c,
             buildParts thinkingText_ a c toolDisplay maxLength_
             = Ok (preamble thinkingText_ maxLength_ false)) as P.
  { intros a c. unfold buildParts, toolParts, preamble. rewrite H. simpl.
    fold placeholder. destruct (thinkingParts thinkingText_ maxLength_); reflexivity. }
  unfold buildMessage. rewrite !P. simpl. split; [reflexivity | eauto].
Qed.

Lemma buildMessage_tools_disabled_witness :
  buildMessage (Some (lit "hm")) sampleActive twelveCompleted
    {| enabled := Some false; mode := None; showArgs := None; maxArgsLength := None |}
    3800
  = Ok (thinkingMessage (lit "hm")).
Proof.
  destruct (buildMessage_tools_disabled (Some (lit "hm")) sampleActive twelveCompleted
              {| enabled := Some false; mode := None; showArgs := None;
                 maxArgsLength := None |} 3800 eq_refl) as (E & _).
  rewrite E. vm_compute. reflexivity.
Defined.

(** * Further properties of the accumulator *)

(** ** Insertion-ordered maps *)

Section MapLaws.

Context {V : Type}.
Implicit Types (m : JsMap.t V) (k : jsstring) (v : V).

Lemma get_set_same m k v : JsMap.get (JsMap.set m k v) k = Some v.
Proof.
  induction m as [|[k' v'] m IH]; simpl.
  - now rewrite eqb_refl.
  - destruct (Js.eqb k' k) eqn:E; simpl; rewrite E; [reflexivity | exact IH].
Qed.

Lemma get_set_other m k v k2 :
  k2 <> k -> JsMap.get (JsMap.set m k v) k2 = JsMap.get m k2.
Proof.
  intros N. induction m as [|[k' v'] m IH]; simpl.
  - assert (Js.eqb k k2 = false) as -> by (apply eqb_neq; congruence).
    reflexivity.
  - destruct (Js.eqb k' k) eqn:E; simpl.
    + apply eqb_eq in E. subst k'.
      assert (Js.eqb k k2 = false) as -> by (apply eqb_neq; congruence).
      reflexivity.
    + now rewrite IH.
Qed.

Lemma get_none_iff m k : JsMap.get m k = None <-> ~ In k (keys m).
Proof.
  induction m as [|[k' v'] m IH]; simpl.
  - tauto.
  - destruct (Js.eqb k' k) eqn:E.
    + apply eqb_eq in E. split; [discriminate | intros H; exfalso; auto].
    + apply eqb_neq in E. rewrite IH. tauto.
Qed.

Lemma keys_set m k v :
  keys (JsMap.set m k v)
  = match JsMap.get m k with
    | Some _ => keys m
    | None => keys m ++ [k]
    end.
Proof.
  unfold keys. induction m as [|[k' v'] m IH]; simpl; [reflexivity|].
  destruct (Js.eqb k' k) eqn:E; simpl; [reflexivity|].
  rewrite IH. now destruct (JsMap.get m k).
Qed.

Lemma set_absent m k v :
  JsMap.get m k = None -> JsMap.set m k v = m ++ [(k, v)].
Proof.
  induction m as [|[k' v'] m IH]; simpl; [reflexivity|].
  destruct (Js.eqb k' k); [discriminate|]. intros H. now rewrite IH.
Qed.

Lemma delete_set m k v : JsMap.delete (JsMap.set m k v) k = JsMap.delete m k.
Proof.
  induction m as [|[k' v'] m IH]; simpl.
  - now rewrite eqb_refl.
  - destruct (Js.eqb k' k) eqn:E; simpl; rewrite E; [reflexivity|].
    now rewrite IH.
Qed.

Lemma keys_delete m k :
  NoDup (keys m) ->
  keys (JsMap.delete m k) = filter (fun k' => negb (Js.eqb k' k)) (keys m).
Proof.
  induction m as [|[k' v'] m IH]; simpl; [reflexivity|].
  intros ND. inversion ND as [|? ? NI ND']; subst.
  destruct (Js.eqb k' k) eqn:E; simpl.
  - apply eqb_eq in E. subst k'. symmetry.
    clear IH ND ND'. induction m as [|[k2 v2] m IH2]; simpl; [reflexivity|].
    simpl in NI.
    assert (Js.eqb k2 k = false) as -> by (apply eqb_neq; intros ->; auto).
    simpl. f_equal. apply IH2. auto.
  - f_equal. now apply IH.
Qed.

Lemma NoDup_set m k v : NoDup (keys m) -> NoDup (keys (JsMap.set m k v)).
Proof.
  intros ND. rewrite keys_set. destruct (JsMap.get m k) eqn:G; [exact ND|].
  apply get_none_iff in G.
  apply NoDup_app; [exact ND | repeat constructor; auto |].
  intros x I [<-|[]]. contradiction.
Qed.

Lemma NoDup_delete m k : NoDup (keys m) -> NoDup (keys (JsMap.delete m k)).
Proof.
  intros ND. rewrite keys_delete by exact ND. now apply NoDup_filter.
Qed.

Lemma get_delete_same m k :
  NoDup (keys m) -> JsMap.get (JsMap.delete m k) k = None.
Proof.
  intros ND. apply get_none_iff. rewrite keys_delete by exact ND.
  intros I. apply filter_In in I as [_ I]. now rewrite eqb_refl in I.
Qed.

End MapLaws.

(** ** What each event does to the accumulator *)

Lemma step_accumulator tc td w now e w' :
  step tc td w now e = Some w' ->
  match e with
  | Update text =>
      thinkingText (session w') = Some text
      /\ activeTools (session w') = activeTools (session w)
      /\ completedTools (session w') = completedTools (session w)
  | ToolStart id name_ args_ =>
      thinkingText (session w') = thinkingText (session w)
      /\ activeTools (session w')
         = JsMap.set (activeTools (session w)) id
             {| name := name_; args := args_; startedAt := now |}
      /\ completedTools (session w') = completedTools (session w)
  | ToolEnd id failed_ =>
      thinkingText (session w') = thinkingText (session w)
      /\ match JsMap.get (activeTools (session w)) id with
         | Some entry =>
             activeTools (session w') = JsMap.delete (activeTools (session w)) id
             /\ completedTools (session w')
                = completedTools (session w) ++ [completedOf entry failed_ now]
         | None =>
             activeTools (session w') = activeTools (session w)
             /\ completedTools (session w') = completedTools (session w)
         end
  | _ => sameAccumulator w w'
  end.
Proof.
  intros H. destruct e; simpl in H.
  - injection H as <-. apply triggerUpdate_accumulator.
  - injection H as <-. unfold update.
    destruct (triggerUpdate_accumulator tc td now
                (onSession (set_thinkingText (Some text)) w)) as (T & A & C).
    rewrite T, A, C. simpl. auto.
  - injection H as <-. apply doFlush_accumulator.
  - injection H as <-. unfold sameAccumulator. simpl. auto.
  - injection H as <-. unfold sameAccumulator, delete. simpl.
    destruct (messageId (session w)) as [id|];
      [destruct (truthyId (Some id))|]; simpl; auto.
  - injection H as <-. unfold sameAccumulator, collapse. simpl.
    destruct (messageId (session w)) as [id|];
      [destruct (truthyId (Some id))|]; simpl; auto.
  - injection H as <-. unfold toolStart.
    match goal with
    | |- context [triggerUpdate tc td now ?w0] =>
        destruct (triggerUpdate_accumulator tc td now w0) as (T & A & C)
    end.
    rewrite T, A, C. simpl. auto.
  - injection H as <-. unfold toolEnd.
    match goal with
    | |- context [triggerUpdate tc td now ?w0] =>
        destruct (triggerUpdate_accumulator tc td now w0) as (T & A & C)
    end.
    rewrite T, A, C.
    destruct (JsMap.get (activeTools (session w)) id); simpl; auto.
  - destruct (timer (session w)) as [due|]; [|discriminate H].
    destruct (timeoutAt w <=? now); [|discriminate H]. injection H as <-.
    unfold timerCallback.
    destruct (doFlush_accumulator tc td now (onSession (set_timer None) w))
      as (T & A & C).
    unfold sameAccumulator. rewrite T, A, C. simpl. auto.
  - destruct (nth_error (tasks w) i) as [[who c|r0]|]; try discriminate H.
    destruct who.
    + destruct (sendOrEdit_settled c r w) as [w1 r1] eqn:E.
      injection H as <-. unfold sameAccumulator. simpl.
      unfold sendOrEdit_settled in E.
      destruct r; [destruct c|]; injection E as <- _; simpl; auto.
    + injection H as <-. unfold sameAccumulator, delete_settled.
      destruct r; simpl; auto.
    + injection H as <-. unfold sameAccumulator, collapse_settled.
      destruct r; simpl; auto.
  - destruct (nth_error (tasks w) i) as [[who c|r0]|]; try discriminate H.
    injection H as <-. unfold doFlush_resumed.
    destruct r0 as [u|err]; simpl.
    + destruct (pendingUpdate (session w)).
      * match goal with
        | |- sameAccumulator _ (schedule tc now ?w0) =>
            destruct (schedule_accumulator tc now w0) as (T & A & C)
        end.
        unfold sameAccumulator. rewrite T, A, C. simpl. auto.
      * unfold sameAccumulator. simpl. auto.
    + unfold sameAccumulator. simpl. auto.
Qed.

(** X14.  Only [update], [toolStart] and [toolEnd] write to the
    accumulator: every other event (start, flush, stop, delete, collapse,
    a timer firing, a transport call settling, a delivery cycle resuming)
    leaves the thinking text, the active map and the completed sequence
    as they are. *)
Theorem accumulator_frame tc td w now e w' :
  isMutator e = false ->
  step tc td w now e = Some w' ->
  sameAccumulator w w'.
Proof.
  intros M H. apply step_accumulator in H.
  destruct e; try discriminate M; exact H.
Qed.

Lemma accumulator_frame_witness :
  sameAccumulator afterFirstUpdate
    (flush defaultThinking defaultTools 1001 afterFirstUpdate).
Proof.
  apply (accumulator_frame defaultThinking defaultTools afterFirstUpdate 1001 Flush).
  - reflexivity.
  - reflexivity.
Defined.

(** X11.  [toolStart] followed by [toolEnd] for the same id moves the
    tool to the completed sequence: one entry is appended, with the name
    and arguments given to [toolStart], the start time, the failure flag
    ([false] when omitted) and the elapsed time as duration; the id is
    deleted from the active map, whether or not it was active before. *)
Theorem toolStart_toolEnd tc td w t1 t2 id name_ args_ failed_ :
  let w2 := toolEnd tc td t2 id failed_ (toolStart tc td t1 id name_ args_ w) in
  completedTools (session w2)
  = completedTools (session w)
      ++ [{| c_name := name_; c_args := args_; c_startedAt := t1;
             failed := orDefault failed_ false; duration := t2 - t1 |}]
  /\ activeTools (session w2) = JsMap.delete (activeTools (session w)) id
  /\ thinkingText (session w2) = thinkingText (session w).
Proof.
  intros w2.
  pose proof (step_accumulator tc td w t1 (ToolStart id name_ args_) _ eq_refl)
    as (T1 & A1 & C1).
  pose proof (step_accumulator tc td _ t2 (ToolEnd id failed_) w2 eq_refl)
    as (T2 & H2).
  rewrite A1, get_set_same in H2. destruct H2 as (A2 & C2).
  rewrite C2, A2, C1, delete_set, T2, T1. auto.
Qed.

(** X13.  [toolStart] keeps the display order: a new id goes to the end of
    the active map, an id that is already active keeps its place and only
    has its entry replaced; the entries of all other ids are untouched. *)
Theorem toolStart_order tc td w now id name_ args_ :
  let w' := toolStart tc td now id name_ args_ w in
  let entry := {| name := name_; args := args_; startedAt := now |} in
  JsMap.get (activeTools (session w')) id = Some entry
  /\ (forall k, k <> id ->
        JsMap.get (activeTools (session w')) k
        = JsMap.get (activeTools (session w)) k)
  /\ match JsMap.get (activeTools (session w)) id with
     | Some _ => keys (activeTools (session w')) = keys (activeTools (session w))
     | None => activeTools (session w') = activeTools (session w) ++ [(id, entry)]
     end.
Proof.
  intros w' entry.
  pose proof (step_accumulator tc td w now (ToolStart id name_ args_) _ eq_refl)
    as (_ & A & _).
  fold w' in A. fold entry in A. rewrite A.
  split; [apply get_set_same|]. split; [intros k N; now apply get_set_other|].
  destruct (JsMap.get (activeTools (session w)) id) eqn:G.
  - rewrite keys_set, G. reflexivity.
  - now apply set_absent.
Qed.

Lemma step_keeps_ids_unique tc td w now e w' :
  NoDup (keys (activeTools (session w))) ->
  step tc td w now e = Some w' ->
  NoDup (keys (activeTools (session w'))).
Proof.
  intros ND H. apply step_accumulator in H.
  destruct e; try (destruct H as (_ & -> & _); exact ND).
  - destruct H as (_ & -> & _). now apply NoDup_set.
  - destruct H as (_ & H).
    destruct (JsMap.get (activeTools (session w)) id).
    + destruct H as (-> & _). now apply NoDup_delete.
    + destruct H as (-> & _). exact ND.
Qed.

Lemma filter_all {A : Type} (p : A -> bool) (l : list A) :
  (forall x, In x l -> p x = true) -> filter p l = l.
Proof.
  induction l as [|x l IH]; intros H; [reflexivity|]. simpl.
  rewrite (H x (or_introl eq_refl)). f_equal. apply IH. intros y I. apply H. now right.
Qed.

(** X10.  In every reachable session the ids of the active map are
    pairwise distinct, and [toolEnd] really ends a tool: afterwards the id
    is not active, and the other ids keep their order. *)
Theorem active_ids_unique tc td tr w :
  run tc td initialWorld tr = Some w ->
  NoDup (keys (activeTools (session w)))
  /\ forall now id failed_ w',
      step tc td w now (ToolEnd id failed_) = Some w' ->
      JsMap.get (activeTools (session w')) id = None
      /\ keys (activeTools (session w'))
         = filter (fun k => negb (Js.eqb k id)) (keys (activeTools (session w))).
Proof.
  intros R.
  assert (NoDup (keys (activeTools (session w)))) as ND.
  { apply (run_invariant tc td (fun w0 => NoDup (keys (activeTools (session w0))))
             (fun _ => true)
             (fun w0 now e w1 P _ S => step_keeps_ids_unique tc td w0 now e w1 P S)
             tr initialWorld w); [constructor | | exact R].
    apply Forall_forall. reflexivity. }
  split; [exact ND|]. intros now id failed_ w' H.
  apply step_accumulator in H as (_ & H).
  destruct (JsMap.get (activeTools (session w)) id) eqn:G.
  - destruct H as (-> & _). split.
    + now apply get_delete_same.
    + now apply keys_delete.
  - destruct H as (-> & _). split; [exact G|].
    symmetry. apply filter_all. intros k I.
    apply negb_true_iff, eqb_neq. intros ->.
    apply get_none_iff in G. contradiction.
Qed.

Lemma active_ids_unique_witness :
  NoDup (keys (activeTools (session afterCoalesced)))
  /\ JsMap.get
       (activeTools
          (session (toolEnd defaultThinking defaultTools 1900 (lit "t1") None
                      afterCoalesced)))
       (lit "t1")
     = None.
Proof.
  assert (run defaultThinking defaultTools initialWorld coalescedTrace
          = Some afterCoalesced) as R by (vm_compute; reflexivity).
  destruct (active_ids_unique defaultThinking defaultTools coalescedTrace
              afterCoalesced R) as (ND & E).
  split; [exact ND|].
  exact (proj1 (E 1900 (lit "t1") None _ eq_refl)).
Defined.

Lemma step_appends_completed tc td w now e w' :
  step tc td w now e = Some w' ->
  exists suffix,
    completedTools (session w') = completedTools (session w) ++ suffix
    /\ (length suffix <= b2n (isToolEnd e))%nat.
Proof.
  intros H. apply step_accumulator in H.
  destruct e;
    try (destruct H as (_ & _ & ->); exists [];
         rewrite app_nil_r; simpl; split; [reflexivity | lia]).
  destruct H as (_ & H).
  destruct (JsMap.get (activeTools (session w)) id).
  - destruct H as (_ & ->). eexists. split; [reflexivity | simpl; lia].
  - destruct H as (_ & ->). exists []. rewrite app_nil_r. simpl.
    split; [reflexivity | lia].
Qed.

(** X12.  The completed sequence is append-only: whatever happens to a
    session, what was completed stays, in the same order, at the front of
    the sequence, and at most one entry is added per [toolEnd]. *)
Theorem completed_append_only tc td tr w w' :
  run tc td w tr = Some w' ->
  exists suffix,
    completedTools (session w') = completedTools (session w) ++ suffix
    /\ (length suffix <= count isToolEnd (map snd tr))%nat.
Proof.
  revert w. induction tr as [|[now e] tr IH]; intros w R; simpl in R.
  - injection R as <-. exists []. rewrite app_nil_r. split; [reflexivity|].
    unfold count. simpl. lia.
  - destruct (step tc td w now e) as [w1|] eqn:S; [|discriminate R].
    destruct (step_appends_completed tc td w now e w1 S) as (s1 & E1 & L1).
    destruct (IH w1 R) as (s2 & E2 & L2).
    exists (s1 ++ s2). rewrite E2, E1, app_assoc. split; [reflexivity|].
    simpl map. rewrite count_cons, length_app. lia.
Qed.

Lemma completed_append_only_witness :
  exists suffix,
    completedTools (session afterCoalesced)
    = completedTools (session initialWorld) ++ suffix
    /\ (length suffix <= count isToolEnd (map snd coalescedTrace))%nat.
Proof.
  apply (completed_append_only defaultThinking defaultTools coalescedTrace).
  vm_compute. reflexivity.
Defined.

(** * Further properties of the dispatcher *)

(** ** The cases of [schedule], [doFlush] and [triggerUpdate] *)

Section Cases.

Variable tc : ThinkingConfig.
Variable td : ToolDisplayConfig.

Lemma schedule_cases now w :
  ((timer (session w) <> None \/ stopped (session w) = true)
   /\ schedule tc now w = w)
  \/ (timer (session w) = None /\ stopped (session w) = false
      /\ schedule tc now w
         = set_timeoutAt
             (timeoutTime now
                (Z.max 0 (updateInterval tc - (now - lastSentAt (session w)))))
             (onSession
                (set_timer
                   (Some (Z.max now (lastSentAt (session w) + updateInterval tc))))
                w)).
Proof.
  unfold schedule. destruct (timer (session w)) eqn:T.
  - left. split; [left; discriminate | reflexivity].
  - destruct (stopped (session w)) eqn:S.
    + left. split; [now right | reflexivity].
    + right. repeat split. unfold setTimeout. do 4 f_equal. lia.
Qed.

Lemma doFlush_cases now w :
  (stopped (session w) = true /\ doFlush tc td now w = w)
  \/ (stopped (session w) = false /\ inFlight (session w) = true
      /\ doFlush tc td now w
         = onSession (set_pendingUpdate true) (onSession (set_timer None) w))
  \/ (stopped (session w) = false /\ inFlight (session w) = false
      /\ exists e, rendered tc td w = Throw e
                   /\ doFlush tc td now w = raise e (onSession (set_timer None) w))
  \/ (stopped (session w) = false /\ inFlight (session w) = false
      /\ rendered tc td w = Ok (lastSentContent (session w))
      /\ doFlush tc td now w
         = await (AwaitSendOrEdit (Ok tt))
             (onSession (set_inFlight true) (onSession (set_timer None) w)))
  \/ (stopped (session w) = false /\ inFlight (session w) = false
      /\ exists content,
          rendered tc td w = Ok content
          /\ content <> lastSentContent (session w)
          /\ doFlush tc td now w
             = invoke now BySendOrEdit (deliveryCall (messageId (session w)) content)
                 (onSession (set_lastSentAt now)
                    (onSession (set_lastSentContent content)
                       (onSession (set_inFlight true)
                          (onSession (set_timer None) w))))).
Proof.
  unfold doFlush, rendered.
  destruct (stopped (session w)) eqn:S; [now left|]. right. simpl.
  destruct (inFlight (session w)) eqn:F; [now left|]. right.
  destruct (buildMessage _ _ _ _ _) as [content|e]; [|left; eauto]. right.
  unfold sendOrEdit. simpl. rewrite S. simpl.
  destruct (Js.eqb content (lastSentContent (session w))) eqn:E.
  - apply eqb_eq in E. subst content. left. auto.
  - apply eqb_neq in E. right. repeat split.
    exists content. repeat split; auto.
    unfold deliveryCall.
    destruct (messageId (session w)) as [id|]; [destruct (truthyId (Some id))|];
      reflexivity.
Qed.

Lemma triggerUpdate_cases now w :
  (stopped (session w) = true /\ triggerUpdate tc td now w = w)
  \/ (stopped (session w) = false /\ inFlight (session w) = true
      /\ triggerUpdate tc td now w
         = schedule tc now (onSession (set_pendingUpdate true) w))
  \/ (stopped (session w) = false /\ inFlight (session w) = false
      /\ timer (session w) = None
      /\ updateInterval tc <= now - lastSentAt (session w)
      /\ triggerUpdate tc td now w = doFlush tc td now w)
  \/ (stopped (session w) = false /\ inFlight (session w) = false
      /\ (timer (session w) <> None
          \/ now - lastSentAt (session w) < updateInterval tc)
      /\ triggerUpdate tc td now w = schedule tc now w).
Proof.
  unfold triggerUpdate.
  destruct (stopped (session w)) eqn:S; [now left|]. right.
  destruct (inFlight (session w)) eqn:F; [now left|]. right.
  destruct (timer (session w)) eqn:T.
  - right. repeat split. left. discriminate.
  - destruct (_ >=? _) eqn:G.
    + left. apply Z.geb_le in G. auto.
    + right. rewrite Z.geb_leb in G. apply Z.leb_gt in G. auto.
Qed.

(** The world [triggerUpdate] is called on, for the four methods that end
    in it: the accumulator is written first. *)
Lemma trigger_step now e w w' :
  isTriggerUpdate e = true ->
  step tc td w now e = Some w' ->
  exists w0,
    w' = triggerUpdate tc td now w0
    /\ tasks w0 = tasks w /\ calls w0 = calls w /\ delivered w0 = delivered w
    /\ verbose w0 = verbose w /\ raised w0 = raised w
    /\ messageId (session w0) = messageId (session w)
    /\ lastSentContent (session w0) = lastSentContent (session w)
    /\ lastSentAt (session w0) = lastSentAt (session w)
    /\ timer (session w0) = timer (session w)
    /\ inFlight (session w0) = inFlight (session w)
    /\ stopped (session w0) = stopped (session w)
    /\ pendingUpdate (session w0) = pendingUpdate (session w).
Proof.
  intros T H. destruct e; try discriminate T; simpl in H; injection H as <-.
  - exists w. repeat split.
  - eexists. split; [reflexivity|]. repeat split.
  - eexists. split; [reflexivity|]. repeat split.
  - unfold toolEnd. destruct (JsMap.get (activeTools (session w)) id);
      (eexists; split; [reflexivity|]; repeat split).
Qed.

End Cases.

(** ** Throttling *)

(** X17.  While a timer is armed, [start], [update], [toolStart] and
    [toolEnd] make no transport call and leave the timer as it is: a
    burst of updates does not postpone the deferred delivery. *)
Theorem armed_timer_coalesces tc td w now e w' due :
  stopped (session w) = false ->
  timer (session w) = Some due ->
  isTriggerUpdate e = true ->
  step tc td w now e = Some w' ->
  calls w' = calls w /\ tasks w' = tasks w
  /\ timer (session w') = Some due
  /\ sameDelivery w w'.
Proof.
  intros S T E H.
  destruct (trigger_step tc td now e w w' E H)
    as (w0 & -> & Tk & Ck & _ & _ & _ & M & LC & LA & Tm & Fl & St & _).
  rewrite <- St in S. rewrite <- Tm in T. unfold sameDelivery.
  destruct (triggerUpdate_cases tc td now w0)
    as [(S' & _)|[(_ & F & ->)|[(_ & _ & T' & _)|(_ & _ & _ & ->)]]];
    try congruence.
  - destruct (schedule_cases tc now (onSession (set_pendingUpdate true) w0))
      as [(_ & ->)|(T' & _)]; simpl in *; [auto 10 | congruence].
  - destruct (schedule_cases tc now w0) as [(_ & ->)|(T' & _)];
      [auto 10 | congruence].
Qed.

Lemma armed_timer_coalesces_witness :
  timer (session afterSecondUpdate) = Some 1800
  /\ calls (update defaultThinking defaultTools 1500 (lit "c") afterSecondUpdate)
     = calls afterSecondUpdate
  /\ timer (session (update defaultThinking defaultTools 1500 (lit "c")
                       afterSecondUpdate))
     = Some 1800.
Proof.
  assert (timer (session afterSecondUpdate) = Some 1800) as T
      by (vm_compute; reflexivity).
  split; [exact T|].
  destruct (armed_timer_coalesces defaultThinking defaultTools afterSecondUpdate
              1500 (Update (lit "c")) _ 1800 eq_refl T eq_refl eq_refl)
    as (C & _ & T' & _).
  auto.
Defined.



(** ** Delivery cycles *)

Lemma rendered_ext tc td w w' :
  sameAccumulator w w' -> rendered tc td w' = rendered tc td w.
Proof. unfold rendered. intros (-> & -> & ->). reflexivity. Qed.

(** A cycle that starts on an idle session whose rendering differs from
    the recorded content. *)
Lemma doFlush_delivers tc td now w content :
  stopped (session w) = false ->
  inFlight (session w) = false ->
  rendered tc td w = Ok content ->
  content <> lastSentContent (session w) ->
  let w' := doFlush tc td now w in
  calls w'
  = {| at_ := now; by_ := BySendOrEdit;
       call := deliveryCall (messageId (session w)) content |} :: calls w
  /\ tasks w'
     = tasks w ++ [AwaitApi BySendOrEdit (deliveryCall (messageId (session w)) content)]
  /\ lastSentContent (session w') = content
  /\ lastSentAt (session w') = now
  /\ inFlight (session w') = true
  /\ timer (session w') = None
  /\ messageId (session w') = messageId (session w).
Proof.
  intros S F R N.
  destruct (doFlush_cases tc td now w)
    as [(S' & _)|[(_ & F' & _)|[(_ & _ & e & R' & _)|[(_ & _ & R' & _)|
        (_ & _ & c & R' & _ & E)]]]];
    try congruence.
  rewrite R in R'. injection R' as <-. simpl. rewrite E. simpl. auto 10.
Qed.

(** X19.  [flush], and the timer when it fires, on an idle session whose
    rendering differs from [lastSentContent]: exactly one transport call
    is made, at once, carrying the current rendering: [sendMessage] when
    there is no message identifier, [editMessageText] of the identified
    message otherwise.  The content and the time of the call are recorded
    and the timer is cleared. *)
Theorem flush_delivers tc td w now e w' content :
  stopped (session w) = false ->
  inFlight (session w) = false ->
  rendered tc td w = Ok content ->
  content <> lastSentContent (session w) ->
  e = Flush \/ e = TimerFires ->
  step tc td w now e = Some w' ->
  calls w'
  = {| at_ := now; by_ := BySendOrEdit;
       call := deliveryCall (messageId (session w)) content |} :: calls w
  /\ outstanding w' = S (outstanding w)
  /\ lastSentContent (session w') = content
  /\ lastSentAt (session w') = now
  /\ inFlight (session w') = true
  /\ timer (session w') = None.
Proof.
  intros S F R N E H.
  assert (exists w0,
             w' = doFlush tc td now w0
             /\ stopped (session w0) = false /\ inFlight (session w0) = false
             /\ rendered tc td w0 = Ok content
             /\ lastSentContent (session w0) = lastSentContent (session w)
             /\ messageId (session w0) = messageId (session w)
             /\ calls w0 = calls w /\ tasks w0 = tasks w)
    as (w0 & -> & S0 & F0 & R0 & L0 & M0 & C0 & T0).
  { destruct E as [-> | ->]; simpl in H.
    - injection H as <-. exists w. auto 10.
    - destruct (timer (session w)) as [due|]; [|discriminate H].
      destruct (timeoutAt w <=? now); [|discriminate H]. injection H as <-.
      eexists. split; [reflexivity|]. simpl. auto 10. }
  rewrite <- L0 in N.
  destruct (doFlush_delivers tc td now w0 content S0 F0 R0 N)
    as (C & T & LC & LA & Fl & Tm & _).
  unfold outstanding. rewrite C, T, M0, C0, T0, count_snoc. simpl.
  rewrite Nat.add_1_r. auto 10.
Qed.

Lemma flush_delivers_witness :
  calls (flush defaultThinking defaultTools 2003 afterFailedEdit)
  = {| at_ := 2003; by_ := BySendOrEdit;
       call := EditMessageText 7 (thinkingMessage (lit "a")) |}
      :: calls afterFailedEdit
  /\ timer (session (flush defaultThinking defaultTools 2003 afterFailedEdit)) = None.
Proof.
  assert (rendered defaultThinking defaultTools afterFailedEdit
          = Ok (thinkingMessage (lit "a"))) as R by (vm_compute; reflexivity).
  assert (thinkingMessage (lit "a") <> lastSentContent (session afterFailedEdit))
    as N by (vm_compute; discriminate).
  destruct (flush_delivers defaultThinking defaultTools afterFailedEdit 2003 Flush _
              (thinkingMessage (lit "a")) eq_refl eq_refl R N
              (or_introl eq_refl) eq_refl) as (C & _ & _ & _ & _ & T).
  split; [exact C | exact T].
Defined.

(** X20.  [start], [update], [toolStart] and [toolEnd] on an idle session
    with no timer armed, once the interval has elapsed since the last
    delivery: the delivery is made at once and carries the rendering of
    the state after the mutation (unless that equals [lastSentContent]).
*)
Theorem trigger_delivers_at_once tc td w now e w' content :
  stopped (session w) = false ->
  inFlight (session w) = false ->
  timer (session w) = None ->
  updateInterval tc <= now - lastSentAt (session w) ->
  isTriggerUpdate e = true ->
  step tc td w now e = Some w' ->
  rendered tc td w' = Ok content ->
  content <> lastSentContent (session w) ->
  calls w'
  = {| at_ := now; by_ := BySendOrEdit;
       call := deliveryCall (messageId (session w)) content |} :: calls w
  /\ lastSentContent (session w') = content
  /\ lastSentAt (session w') = now
  /\ inFlight (session w') = true.
Proof.
  intros S F T G E H R N.
  destruct (trigger_step tc td now e w w' E H)
    as (w0 & -> & Tk & Ck & _ & _ & _ & M & LC & LA & Tm & Fl & St & _).
  rewrite <- St in S. rewrite <- Tm in T. rewrite <- Fl in F.
  rewrite <- LA in G. rewrite <- LC in N.
  destruct (triggerUpdate_cases tc td now w0)
    as [(S' & _)|[(_ & F' & _)|[(_ & _ & _ & _ & E')|(_ & _ & [T'|G'] & _)]]];
    try congruence; try lia.
  rewrite E' in *.
  rewrite (rendered_ext tc td w0 _ (doFlush_accumulator tc td now w0)) in R.
  destruct (doFlush_delivers tc td now w0 content S F R N)
    as (C & _ & LC' & LA' & Fl' & _).
  rewrite C, M, Ck. auto.
Qed.

Lemma trigger_delivers_at_once_witness :
  calls (update defaultThinking defaultTools 2000 (lit "b") afterFirstDelivery)
  = {| at_ := 2000; by_ := BySendOrEdit;
       call := EditMessageText 7 (thinkingMessage (lit "b")) |}
      :: calls afterFirstDelivery.
Proof.
  assert (rendered defaultThinking defaultTools
            (update defaultThinking defaultTools 2000 (lit "b") afterFirstDelivery)
          = Ok (thinkingMessage (lit "b"))) as R by (vm_compute; reflexivity).
  assert (thinkingMessage (lit "b") <> lastSentContent (session afterFirstDelivery))
    as N by (vm_compute; discriminate).
  assert (updateInterval defaultThinking
          <= 2000 - lastSentAt (session afterFirstDelivery)) as G
      by (vm_compute; discriminate).
  exact (proj1 (trigger_delivers_at_once defaultThinking defaultTools
                  afterFirstDelivery 2000 (Update (lit "b")) _
                  (thinkingMessage (lit "b")) eq_refl eq_refl eq_refl G eq_refl
                  eq_refl R N)).
Defined.



(** ** Invariants of the dispatcher *)

Ltac dispatch_cases tc td :=
  repeat match goal with
    | |- context [triggerUpdate tc td ?n ?w] =>
        destruct (triggerUpdate_cases tc td n w)
          as [(? & ->)|[(? & ? & ->)|[(? & ? & ? & ? & ->)|(? & ? & ? & ->)]]]
    | |- context [doFlush tc td ?n ?w] =>
        destruct (doFlush_cases tc td n w)
          as [(? & ->)|[(? & ? & ->)|[(? & ? & ? & ? & ->)|[(? & ? & ? & ->)|
              (? & ? & ? & ? & ? & ->)]]]]
    | |- context [schedule tc ?n ?w] =>
        destruct (schedule_cases tc n w) as [(? & ->)|(? & ? & ->)]
    end.

(** The world after an event, with the methods unfolded down to
    [triggerUpdate], [doFlush] and [schedule]. *)
Ltac invert_step H :=
  simpl in H;
  repeat match type of H with
    | match ?x with _ => _ end = Some _ => destruct x eqn:?; try discriminate H
    | (let (_, _) := ?x in _) = Some _ => destruct x eqn:?
    end;
  injection H as <-;
  unfold start, update, flush, stop, delete, collapse, toolStart, toolEnd,
    timerCallback, doFlush_resumed, delete_settled, collapse_settled in *.

Ltac settled_cases :=
  repeat match goal with
    | E : sendOrEdit_settled ?c ?r ?w = (_, _) |- _ =>
        unfold sendOrEdit_settled in E;
        destruct r; [destruct c|]; injection E as <- <-
    end.

Lemma step_stoppedInv tc td w now e w' :
  stoppedInv w -> step tc td w now e = Some w' -> stoppedInv w'.
Proof.
  unfold stoppedInv. intros Inv H.
  destruct e; invert_step H; settled_cases;
    repeat match goal with
      | |- context [match ?x with _ => _ end] => destruct x eqn:?
      end;
    dispatch_cases tc td; simpl in *; auto; try congruence.
Qed.

(** X15.  A stopped session has no timer armed: after [stop], [delete] or
    [collapse] no timeout of the updater can fire any more. *)
Theorem no_timer_after_stop tc td tr w :
  run tc td initialWorld tr = Some w ->
  stopped (session w) = true ->
  timer (session w) = None
  /\ forall now, step tc td w now TimerFires = None.
Proof.
  intros R S.
  assert (stoppedInv w) as Inv.
  { apply (run_invariant tc td stoppedInv (fun _ => true)
             (fun w0 now e w1 P _ St => step_stoppedInv tc td w0 now e w1 P St)
             tr initialWorld w); [intros _; reflexivity | | exact R].
    apply Forall_forall. reflexivity. }
  specialize (Inv S). split; [exact Inv|].
  intros now. simpl. now rewrite Inv.
Qed.

Lemma no_timer_after_stop_witness :
  timer (session afterDeleteInFlight) = None
  /\ step defaultThinking defaultTools afterDeleteInFlight 5000 TimerFires = None.
Proof.
  assert (run defaultThinking defaultTools initialWorld deleteInFlightTrace
          = Some afterDeleteInFlight) as R by (vm_compute; reflexivity).
  destruct (no_timer_after_stop defaultThinking defaultTools deleteInFlightTrace
              afterDeleteInFlight R eq_refl) as (T & F).
  split; [exact T | exact (F 5000)].
Defined.

Lemma step_after_stop tc td w now e w' :
  stopped (session w) = true ->
  step tc td w now e = Some w' ->
  deliveryCalls w' = deliveryCalls w
  /\ lastSentContent (session w') = lastSentContent (session w)
  /\ lastSentAt (session w') = lastSentAt (session w).
Proof.
  unfold deliveryCalls. intros S H.
  destruct e; invert_step H; settled_cases;
    repeat match goal with
      | |- context [match ?x with _ => _ end] => destruct x eqn:?
      end;
    dispatch_cases tc td; simpl in *; auto; try congruence.
Qed.

(** X16.  After [stop], [delete] or [collapse] the updater never delivers
    again: whatever events follow, [sendOrEdit] makes no further
    transport call, and the recorded content and time stay as they are.
    (A call that was in flight may still settle.) *)
Theorem no_delivery_after_stop tc td tr w w' :
  stopped (session w) = true ->
  run tc td w tr = Some w' ->
  stopped (session w') = true
  /\ deliveryCalls w' = deliveryCalls w
  /\ lastSentContent (session w') = lastSentContent (session w)
  /\ lastSentAt (session w') = lastSentAt (session w).
Proof.
  revert w. induction tr as [|[now e] tr IH]; intros w S R; simpl in R.
  - injection R as <-. auto.
  - destruct (step tc td w now e) as [w1|] eqn:St; [|discriminate R].
    pose proof (step_keeps_stopped tc td w now e w1 S St) as S1.
    destruct (step_after_stop tc td w now e w1 S St) as (D1 & C1 & A1).
    destruct (IH w1 S1 R) as (S2 & D2 & C2 & A2).
    repeat split; congruence.
Qed.

Lemma no_delivery_after_stop_witness :
  exists w',
    run defaultThinking defaultTools stoppedWorld
      [ (10, Update (lit "x")); (900, ToolStart (lit "t") (lit "read") None);
        (2000, Flush); (3000, ToolEnd (lit "t") None) ]
    = Some w'
    /\ stopped (session w') = true
    /\ deliveryCalls w' = [].
Proof.
  eexists. split; [vm_compute; reflexivity|].
  destruct (no_delivery_after_stop defaultThinking defaultTools
              [ (10, Update (lit "x")); (900, ToolStart (lit "t") (lit "read") None);
                (2000, Flush); (3000, ToolEnd (lit "t") None) ]
              stoppedWorld _ eq_refl eq_refl) as (S & D & _).
  split; [exact S | exact D].
Defined.

Lemma contentOf_deliveryCall m content :
  contentOf (deliveryCall m content) = content.
Proof.
  unfold deliveryCall. destruct m as [id|]; [destruct (truthyId (Some id))|];
    reflexivity.
Qed.

Lemma step_bookInv tc td w now e w' :
  bookInv w -> step tc td w now e = Some w' -> bookInv w'.
Proof.
  unfold bookInv, deliveryCalls. intros Inv H.
  destruct e; invert_step H; settled_cases;
    repeat match goal with
      | |- context [match messageId ?x with _ => _ end] =>
          destruct (messageId x) eqn:?
      | |- context [if truthyId ?x then _ else _] => destruct (truthyId x) eqn:?
      | |- context [match JsMap.get ?m ?k with _ => _ end] =>
          destruct (JsMap.get m k) eqn:?
      | |- context [if pendingUpdate ?x then _ else _] =>
          destruct (pendingUpdate x) eqn:?
      | |- context [match ?x with Ok _ => _ | Throw _ => _ end] =>
          is_var x; destruct x
      end;
    dispatch_cases tc td; simpl in *;
    try rewrite contentOf_deliveryCall; auto.
Qed.

(** X27.  The delivery bookkeeping follows the transport calls:
    [lastSentContent] and [lastSentAt] are the content and the time of
    the latest call made by [sendOrEdit], and the empty string and [0]
    while there has been none. *)
Theorem bookkeeping_follows_calls tc td tr w :
  run tc td initialWorld tr = Some w ->
  match deliveryCalls w with
  | c :: _ =>
      lastSentContent (session w) = contentOf (call c)
      /\ lastSentAt (session w) = at_ c
  | [] => lastSentContent (session w) = [] /\ lastSentAt (session w) = 0
  end.
Proof.
  intros R.
  apply (run_invariant tc td bookInv (fun _ => true)
           (fun w0 now e w1 P _ St => step_bookInv tc td w0 now e w1 P St)
           tr initialWorld w); [split; reflexivity | | exact R].
  apply Forall_forall. reflexivity.
Qed.

Lemma bookkeeping_follows_calls_witness :
  lastSentContent (session afterFailedEdit) = thinkingMessage (lit "b")
  /\ lastSentAt (session afterFailedEdit) = 2000.
Proof.
  assert (run defaultThinking defaultTools initialWorld failedEditTrace
          = Some afterFailedEdit) as R by (vm_compute; reflexivity).
  exact (bookkeeping_follows_calls defaultThinking defaultTools failedEditTrace
           afterFailedEdit R).
Defined.

Ltac break_ops :=
  repeat match goal with
    | |- context [match messageId ?x with _ => _ end] =>
        destruct (messageId x) eqn:?
    | |- context [if truthyId ?x then _ else _] => destruct (truthyId x) eqn:?
    | |- context [match JsMap.get ?m ?k with _ => _ end] =>
        destruct (JsMap.get m k) eqn:?
    | |- context [if pendingUpdate ?x then _ else _] =>
        destruct (pendingUpdate x) eqn:?
    | |- context [match ?x with Ok _ => _ | Throw _ => _ end] =>
        is_var x; destruct x
    end.

Lemma step_contentInv tc td w now e w' :
  contentInv w -> step tc td w now e = Some w' -> contentInv w'.
Proof.
  unfold contentInv, deliveryCalls. intros Inv H.
  destruct e; invert_step H; settled_cases; break_ops;
    dispatch_cases tc td; simpl in *; auto;
    (constructor; [|assumption]); simpl; rewrite contentOf_deliveryCall;
    match goal with
    | R : rendered _ _ _ = Ok _ |- _ => apply (buildMessage_bounds _ _ _ _ _ _ R)
    end.
Qed.

(** X26.  Every transport call made by [sendOrEdit], in any run of a
    session, carries a text of at least one and at most 4096 code
    units. *)
Theorem delivered_content_bounded tc td tr w :
  run tc td initialWorld tr = Some w ->
  Forall (fun c => 1 <= Js.len (contentOf (call c)) <= 4096) (deliveryCalls w).
Proof.
  intros R.
  apply (run_invariant tc td contentInv (fun _ => true)
           (fun w0 now e w1 P _ St => step_contentInv tc td w0 now e w1 P St)
           tr initialWorld w); [constructor | | exact R].
  apply Forall_forall. reflexivity.
Qed.

Lemma delivered_content_bounded_witness :
  Forall (fun c => 1 <= Js.len (contentOf (call c)) <= 4096)
    (deliveryCalls afterFlush).
Proof.
  apply (delivered_content_bounded defaultThinking defaultTools flushTrace).
  vm_compute. reflexivity.
Defined.

Ltac quiet_disjunct :=
  first
    [ left; solve [simpl in *; congruence]
    | right; left; solve [simpl in *; congruence]
    | right; right; left; solve [simpl in *; congruence]
    | right; right; right; left; solve [simpl in *; congruence]
    | right; right; right; right; left; solve [simpl in *; congruence]
    | right; right; right; right; right; solve [simpl in *; eauto] ].

Lemma step_quietInv tc td w now e w' :
  flightInv w -> quietInv tc td w ->
  step tc td w now e = Some w' ->
  quietInv tc td w'.
Proof.
  unfold quietInv, upToDate, rendered. intros (_ & _ & FR & _) (P & Q) H.
  destruct e.
  11:{ simpl in H. destruct (nth_error (tasks w) i) as [[who c|r0]|] eqn:N;
         try discriminate H.
       rewrite (FR r0 (nth_error_In _ _ N)) in H. injection H as <-.
       unfold doFlush_resumed. simpl.
       destruct (pendingUpdate (session w)) eqn:PU.
       - dispatch_cases tc td; simpl in *.
         + split; [reflexivity|].
           match goal with
           | D : timer _ <> None \/ _ |- _ =>
               destruct D as [D|D]; [right; left; exact D | left; exact D]
           end.
         + split; [reflexivity|]. right. left. discriminate.
       - split; [intros _; simpl; exact PU|]. simpl.
         destruct Q as [Q|[Q|[Q|[Q|Q]]]]; auto; try congruence.
         subst w. destruct i; discriminate N. }
  all: invert_step H; settled_cases; break_ops; dispatch_cases tc td;
    unfold rendered in *; simpl in *.
  all: try (split; [intros; try congruence; auto |]).
  all: repeat match goal with
              | D : _ \/ _ |- _ => destruct D
              end.
  all: first
         [ congruence
         | solve [ subst;
                   match goal with
                   | N : nth_error _ ?i = Some _ |- _ =>
                       destruct i; simpl in N; discriminate N
                   end ]
         | quiet_disjunct ].
Qed.

(** X22.  No change is left behind: whenever a reachable session waits
    for nothing (it is not stopped, no delivery is in flight and no timer
    is armed), either nothing has happened to it yet, or
    [lastSentContent] is the rendering of its current state, or that
    state cannot be rendered.  [pendingUpdate] is set only while a
    delivery is in flight. *)
Theorem quiescent_is_up_to_date tc td tr w :
  run tc td initialWorld tr = Some w ->
  (inFlight (session w) = false -> pendingUpdate (session w) = false)
  /\ (quiescent w -> w = initialWorld \/ upToDate tc td w).
Proof.
  intros R.
  assert (flightInv w /\ quietInv tc td w) as (_ & P & Q).
  { apply (run_invariant tc td (fun w0 => flightInv w0 /\ quietInv tc td w0)
             (fun _ => true)
             (fun w0 now e w1 I _ St =>
                conj (step_flightInv tc td w0 now e w1 (proj1 I) St)
                     (step_quietInv tc td w0 now e w1 (proj1 I) (proj2 I) St))
             tr initialWorld w); [| | exact R].
    - split; [apply initial_flightInv|]. split; [reflexivity|]. auto.
    - apply Forall_forall. reflexivity. }
  split; [exact P|]. intros (S & F & T).
  destruct Q as [Q|[Q|[Q|[Q|Q]]]]; auto; try congruence.
  rewrite (P F) in Q. discriminate Q.
Qed.

Lemma quiescent_is_up_to_date_witness :
  quiescent afterFirstDelivery
  /\ rendered defaultThinking defaultTools afterFirstDelivery
     = Ok (lastSentContent (session afterFirstDelivery)).
Proof.
  assert (run defaultThinking defaultTools initialWorld firstDeliveryTrace
          = Some afterFirstDelivery) as R by (vm_compute; reflexivity).
  assert (quiescent afterFirstDelivery) as Q by (repeat split).
  split; [exact Q|].
  destruct (quiescent_is_up_to_date defaultThinking defaultTools firstDeliveryTrace
              afterFirstDelivery R) as (_ & H).
  destruct (H Q) as [E|[U|(e & U)]].
  - discriminate E.
  - exact U.
  - vm_compute in U. discriminate U.
Defined.

Lemma In_replaceAt_removeAt {A : Type} (l : list A) (i : nat) (y x : A) :
  In x (replaceAt i y l) -> x = y \/ In x (removeAt i l).
Proof.
  revert i; induction l as [|z l IH]; intros [|i] H; simpl in *; try tauto.
  - destruct H as [H|H]; auto.
  - destruct H as [H|H]; auto. destruct (IH i H); auto.
Qed.

(** The task of the delivery cycle in progress is the only one of its
    kind. *)
Lemma only_flight_task w i t x y :
  flightInv w ->
  nth_error (tasks w) i = Some t -> isFlight t = true ->
  In x (replaceAt i y (tasks w)) -> isFlight x = true -> x = y.
Proof.
  intros (C & _) N Ft I Fx.
  apply In_replaceAt_removeAt in I as [I|I]; [exact I|].
  pose proof (count_removeAt isFlight (tasks w) i t N) as Cr.
  rewrite Ft in Cr. simpl in Cr.
  assert (count isFlight (removeAt i (tasks w)) = 0%nat) as Z0
      by (destruct (inFlight (session w)); lia).
  rewrite (count_zero isFlight _ x Z0 I) in Fx. discriminate Fx.
Qed.

Lemma deliveryCall_edits m x content :
  truthyId m = true -> deliveryCall m x <> SendMessage content.
Proof.
  unfold deliveryCall. destruct m as [id|]; [|discriminate].
  intros ->. discriminate.
Qed.

Lemma step_sendInv tc td w now e w' :
  flightInv w -> sendInv w ->
  step tc td w now e = Some w' ->
  sendInv w'.
Proof.
  unfold sendInv. intros FI Inv H.
  destruct e.
  10:{ simpl in H.
       destruct (nth_error (tasks w) i) as [[who c|r0]|] eqn:N; try discriminate H.
       destruct who.
       - destruct (sendOrEdit_settled c r w) as [w1 r1] eqn:E.
         injection H as <-. simpl. intros T content I.
         assert (AwaitApi BySendOrEdit (SendMessage content) = AwaitSendOrEdit r1)
           as Abs; [|discriminate Abs].
         assert (tasks w1 = tasks w) as Tk.
         { unfold sendOrEdit_settled in E.
           destruct r; [destruct c|]; injection E as <- _; reflexivity. }
         rewrite Tk in I.
         eapply only_flight_task; eauto.
       - injection H as <-. unfold delete_settled.
         destruct r; simpl; intros T; discriminate T.
       - injection H as <-. unfold collapse_settled.
         destruct r; simpl; intros T content I; apply In_removeAt in I;
           eapply Inv; eauto. }
  all: invert_step H; break_ops; dispatch_cases tc td; simpl in *;
    intros T content I;
    repeat match goal with
      | I : In _ (_ ++ _) |- _ => apply in_app_or in I; destruct I as [I|I]
      | I : In _ [_] |- _ => destruct I as [I|[]]
      | I : In _ (removeAt _ _) |- _ => apply In_removeAt in I
      end;
    try discriminate;
    try (eapply Inv; eauto; fail);
    try (injection I as I; eapply deliveryCall_edits; eauto).
Qed.

(** X23.  Once a message has been created, its identifier stays: in a
    reachable session with a (non-zero) message identifier, every event
    leaves the identifier as it is, except the settling of a
    [deleteMessage] call made by [delete], which clears it. *)
Theorem messageId_stable tc td tr w now e w' :
  run tc td initialWorld tr = Some w ->
  truthyId (messageId (session w)) = true ->
  step tc td w now e = Some w' ->
  messageId (session w') = messageId (session w)
  \/ (messageId (session w') = None
      /\ exists i r c,
          e = Settles i r
          /\ nth_error (tasks w) i = Some (AwaitApi ByDelete c)).
Proof.
  intros R T H.
  assert (flightInv w /\ sendInv w) as (FI & SI).
  { apply (run_invariant tc td (fun w0 => flightInv w0 /\ sendInv w0)
             (fun _ => true)
             (fun w0 n0 e0 w1 I _ St =>
                conj (step_flightInv tc td w0 n0 e0 w1 (proj1 I) St)
                     (step_sendInv tc td w0 n0 e0 w1 (proj1 I) (proj2 I) St))
             tr initialWorld w); [| | exact R].
    - split; [apply initial_flightInv|]. intros T0. discriminate T0.
    - apply Forall_forall. reflexivity. }
  destruct e.
  10:{ simpl in H.
       destruct (nth_error (tasks w) i) as [[who c|r0]|] eqn:N; try discriminate H.
       destruct who.
       - destruct (sendOrEdit_settled c r w) as [w1 r1] eqn:E.
         injection H as <-. left. simpl.
         unfold sendOrEdit_settled in E.
         destruct r as [mid|err]; [destruct c as [content|id content|id]|];
           injection E as <- _; try reflexivity.
         exfalso. apply (SI T content). eapply nth_error_In; eauto.
       - injection H as <-. right. split.
         + unfold delete_settled. destruct r; reflexivity.
         + eauto.
       - injection H as <-. left. unfold collapse_settled. destruct r; reflexivity. }
  all: left; invert_step H; break_ops; dispatch_cases tc td; reflexivity.
Qed.

Lemma messageId_stable_witness :
  truthyId (messageId (session afterFirstDelivery)) = true
  /\ messageId (session (update defaultThinking defaultTools 2000 (lit "b")
                           afterFirstDelivery))
     = Some 7.
Proof.
  assert (run defaultThinking defaultTools initialWorld firstDeliveryTrace
          = Some afterFirstDelivery) as R by (vm_compute; reflexivity).
  split; [reflexivity|].
  destruct (messageId_stable defaultThinking defaultTools firstDeliveryTrace
              afterFirstDelivery 2000 (Update (lit "b")) _ R eq_refl eq_refl)
    as [E|(_ & i & r & c & E & _)].
  - exact E.
  - discriminate E.
Defined.

(** ** The terminal methods *)

Lemma nth_error_snoc {A : Type} (l : list A) (x : A) :
  nth_error (l ++ [x]) (length l) = Some x.
Proof. induction l as [|y l IH]; [reflexivity | exact IH]. Qed.

Lemma removeAt_snoc {A : Type} (l : list A) (x : A) :
  removeAt (length l) (l ++ [x]) = l.
Proof. induction l as [|y l IH]; [reflexivity|]. simpl. now rewrite IH. Qed.

(** X24.  [delete] on a session with a (non-zero) message identifier
    stops the session and makes one [deleteMessage] call for that
    identifier, whether or not a delivery is in flight.  When the call
    settles the identifier is forgotten, also when the deletion was
    rejected; the rejection is logged and nothing is raised. *)
Theorem delete_forgets_message tc td w now id :
  messageId (session w) = Some id ->
  id <> 0 ->
  let w1 := delete now w in
  calls w1 = {| at_ := now; by_ := ByDelete; call := DeleteMessage id |} :: calls w
  /\ outstanding w1 = S (outstanding w)
  /\ stopped (session w1) = true
  /\ timer (session w1) = None
  /\ forall now2 r,
      exists w2,
        step tc td w1 now2 (Settles (length (tasks w)) r) = Some w2
        /\ messageId (session w2) = None
        /\ raised w2 = raised w
        /\ tasks w2 = tasks w
        /\ calls w2 = calls w1
        /\ verbose w2 = (if isRejected r then DeleteFailed :: verbose w
                         else verbose w).
Proof.
  intros M N w1.
  assert (w1 = invoke now ByDelete (DeleteMessage id)
                 (onSession (set_timer None) (onSession (set_stopped true) w)))
    as E.
  { subst w1. unfold delete. simpl. rewrite M. simpl.
    apply Z.eqb_neq in N. now rewrite N. }
  rewrite E. simpl. unfold outstanding. simpl. rewrite count_snoc. simpl.
  rewrite Nat.add_1_r. repeat (split; [reflexivity|]).
  intros now2 r. rewrite nth_error_snoc. eexists. split; [reflexivity|].
  unfold delete_settled. destruct r; simpl; rewrite removeAt_snoc; auto 10.
Qed.

Lemma delete_forgets_message_witness :
  messageId (session afterFirstDelivery) = Some 7
  /\ calls (delete 3000 afterFirstDelivery)
     = {| at_ := 3000; by_ := ByDelete; call := DeleteMessage 7 |}
         :: calls afterFirstDelivery
  /\ exists w2,
      step defaultThinking defaultTools (delete 3000 afterFirstDelivery) 3001
        (Settles 0 (Throw TransportError)) = Some w2
      /\ messageId (session w2) = None
      /\ raised w2 = [].
Proof.
  assert (messageId (session afterFirstDelivery) = Some 7) as M by reflexivity.
  split; [exact M|].
  destruct (delete_forgets_message defaultThinking defaultTools afterFirstDelivery
              3000 7 M ltac:(discriminate)) as (C & _ & _ & _ & K).
  split; [exact C|].
  destruct (K 3001 (Throw TransportError)) as (w2 & S & M2 & R & _).
  exists w2. auto.
Defined.

(** X25.  [collapse] on a session with a (non-zero) message identifier
    stops the session and makes one [editMessageText] call for that
    identifier, whether or not a delivery is in flight or the session was
    already stopped.  The text is the summary when one is given and is not
    empty, and the default summary for the number of completed tools
    otherwise; it is sent as it is.  When the call settles, rejected or
    not, the identifier is kept and nothing is raised. *)
Theorem collapse_edits_message tc td w now summary id :
  messageId (session w) = Some id ->
  id <> 0 ->
  let w1 := collapse now summary w in
  calls w1
  = {| at_ := now; by_ := ByCollapse;
       call := EditMessageText id
                 (collapseText summary (length (completedTools (session w)))) |}
      :: calls w
  /\ outstanding w1 = S (outstanding w)
  /\ stopped (session w1) = true
  /\ timer (session w1) = None
  /\ forall now2 r,
      exists w2,
        step tc td w1 now2 (Settles (length (tasks w)) r) = Some w2
        /\ messageId (session w2) = Some id
        /\ raised w2 = raised w
        /\ tasks w2 = tasks w
        /\ calls w2 = calls w1
        /\ verbose w2 = (if isRejected r then CollapseFailed :: verbose w
                         else verbose w).
Proof.
  intros M N w1.
  assert (w1 = invoke now ByCollapse
                 (EditMessageText id
                    (collapseText summary (length (completedTools (session w)))))
                 (onSession (set_timer None) (onSession (set_stopped true) w)))
    as E.
  { subst w1. unfold collapse, collapseText. simpl. rewrite M. simpl.
    apply Z.eqb_neq in N. rewrite N. simpl.
    destruct summary as [s|]; [destruct (truthy s)|]; reflexivity. }
  rewrite E. simpl. unfold outstanding. simpl. rewrite count_snoc. simpl.
  rewrite Nat.add_1_r. repeat (split; [reflexivity|]).
  intros now2 r. rewrite nth_error_snoc. eexists. split; [reflexivity|].
  unfold collapse_settled. destruct r; simpl; rewrite removeAt_snoc; auto 10.
Qed.

Lemma collapse_edits_message_witness :
  messageId (session afterFirstDelivery) = Some 7
  /\ map call (calls (collapse 3000 (Some []) afterFirstDelivery))
     = [ EditMessageText 7
           (brain ++ lit " <b>Thinking complete</b> " ++ emDash
              ++ lit " 0 tools used");
         SendMessage (thinkingMessage (lit "a")) ].
Proof.
  assert (messageId (session afterFirstDelivery) = Some 7) as M by reflexivity.
  split; [exact M|].
  destruct (collapse_edits_message defaultThinking defaultTools afterFirstDelivery
              3000 (Some []) 7 M ltac:(discriminate)) as (C & _).
  rewrite C. vm_compute. reflexivity.
Defined.

(** * The margin of the thinking block *)

Lemma escapeHtml_plain (s : jsstring) : Forall plain s -> escapeHtml s = s.
Proof.
  induction 1 as [|c s (A & B & C) F IH]; [reflexivity|].
  rewrite escapeHtml_cons, IH. unfold escapeUnit.
  apply N.eqb_neq in A, B, C. now rewrite A, B, C.
Qed.

Lemma lastN_Forall {A : Type} (P : A -> Prop) (n : nat) (l : list A) :
  Forall P l -> Forall P (lastN n l).
Proof.
  intros F. rewrite (lastN_suffix n l) in F. now apply Forall_app in F.
Qed.

Lemma thinkingMessage_len (t : jsstring) :
  Js.len (thinkingMessage t) = 45 + Js.len t.
Proof.
  unfold thinkingMessage. rewrite !len_app.
  change (Js.len brain) with 2. change (Js.len newline) with 1.
  change (Js.len (lit " <b>Thinking</b>")) with 16.
  change (Js.len (lit "<blockquote>")) with 12.
  change (Js.len (lit "</blockquote>")) with 13. lia.
Qed.

(** X28.  The margin of 200 keeps a thinking-only message whole: for a
    maximum length between 201 and 4250 and a non-empty thinking text
    without [&], [<] and [>], the message of a session without tools is
    the heading and the quoted block of the (possibly tail-truncated)
    text, complete with its closing tag; the cap at 4096 does not
    apply. *)
Theorem thinking_only_never_capped (text : jsstring) toolDisplay maxLength_ :
  200 < maxLength_ <= 4250 ->
  text <> [] ->
  Forall plain text ->
  buildMessage (Some text) [] [] toolDisplay maxLength_
  = Ok (thinkingMessage (trimmed text maxLength_))
  /\ Js.len (thinkingMessage (trimmed text maxLength_)) <= 4096.
Proof.
  intros M N P.
  assert (Forall plain (trimmed text maxLength_)
          /\ Js.len (trimmed text maxLength_) <= maxLength_ - 200 + 1) as (Pt & Lt).
  { destruct (Z_le_gt_dec (Js.len text) (maxLength_ - 200)) as [L|L].
    - rewrite trimmed_short by exact L. split; [exact P | lia].
    - rewrite trimmed_keeps_tail by lia. split.
      + apply Forall_app. split.
        * repeat constructor; discriminate.
        * now apply lastN_Forall.
      + rewrite len_app. unfold Js.len. rewrite lastN_length.
        change (length ellipsis) with 1%nat. lia. }
  assert (Js.len (thinkingMessage (trimmed text maxLength_)) <= 4096) as L
      by (rewrite thinkingMessage_len; lia).
  split; [|exact L].
  unfold buildMessage, buildParts, toolParts, thinkingParts.
  destruct text as [|c text]; [contradiction|].
  replace (isnt_false (enabled toolDisplay)
           && ((JsMap.size (@nil (jsstring * ToolEntry)) >? 0)
               || (Js.len (@nil CompletedToolEntry) >? 0)))%bool
    with false by (now rewrite andb_false_r).
  cbn [truthy bind]. rewrite (escapeHtml_plain _ Pt).
  change (Js.len [brain ++ lit " <b>Thinking</b>"; [];
                  lit "<blockquote>" ++ trimmed (c :: text) maxLength_
                    ++ lit "</blockquote>"] =? 0) with false.
  cbv iota. f_equal.
  destruct (cap_spec (thinkingMessage (trimmed (c :: text) maxLength_))) as [C _].
  destruct (Js.len (thinkingMessage (trimmed (c :: text) maxLength_)) >? 4096) eqn:G.
  - rewrite Z.gtb_ltb in G. apply Z.ltb_lt in G. lia.
  - assert (join (lit (String (ascii_of_nat 10) EmptyString))
              [brain ++ lit " <b>Thinking</b>"; [];
               lit "<blockquote>" ++ trimmed (c :: text) maxLength_
                 ++ lit "</blockquote>"]
            = thinkingMessage (trimmed (c :: text) maxLength_)) as J.
    { unfold thinkingMessage, newline. cbn [join].
      rewrite <- app_assoc. reflexivity. }
    rewrite J, C. reflexivity.
Qed.

Lemma thinking_only_never_capped_witness :
  buildMessage (Some longThinking) [] [] defaultTools 3800
  = Ok (thinkingMessage (trimmed longThinking 3800))
  /\ Js.len (thinkingMessage (trimmed longThinking 3800)) <= 4096.
Proof.
  apply thinking_only_never_capped.
  - lia.
  - discriminate.
  - unfold longThinking. apply Forall_forall. intros c I.
    apply repeat_spec in I. subst c. repeat split; discriminate.
Defined.
